(** * JPyang: the Java output plug-in of pyang (src/pyang/plugins/jpyang.py)

    A shallow embedding of the parts of the plug-in that turn a YANG
    statement tree into Java classes: the identifier sanitizer, the type
    resolver, the per-keyword method generators, the augment branch of the
    class generator and the insertion-ordered set that collects class
    members; with them the helpers they rest on: warnings, package names,
    the keys of a list, the lines of a generated method, and the text
    utilities [strip_first] and [indent].

    Python values are modelled as follows.
    - [str] (Python 2 byte strings) is [string]; a character is an [ascii].
    - A pyang [Statement] is a record in a store indexed by references
      ([nat]): statements are shared between [substmts], [i_children],
      [parent], [top], [i_typedef] and [i_target_node] and are mutated in
      place, so the store and the aliasing are explicit.
    - An attribute that may be missing ([hasattr], [AttributeError]) is an
      [attr]: absent, present and [None], or present with a value.
    - A [JavaMethod] is the record of its instance data; where the
      identity of the object matters, as for the key of a dictionary, a
      method object is an address into a heap of methods.
    - Module-level mutable globals ([outputted_warnings],
      [augmented_modules]), [sys.stderr] and the files written are the
      fields of [world], threaded through a state-and-exception monad [M].
    - Loops that follow [parent] or [i_typedef] links, and the recursion
      over the statement graph, take a fuel argument; [OutOfFuel] is kept
      apart from the Python exceptions. *)

From Stdlib Require Import Ascii String Sorted.
From stdpp Require Import gmap strings list fin_maps.

(** ** Characters and strings *)

Module Py.

(** The double quote and the newline, which string literals here avoid. *)
Definition dq : string := String "034"%char EmptyString.
Definition nl : string := String "010"%char EmptyString.

(** [str.upper] on one byte in the C locale: only a-z change. *)
Definition upper (c : ascii) : ascii :=
  let n := nat_of_ascii c in
  if (97 <=? n)%nat && (n <=? 122)%nat then ascii_of_nat (n - 32) else c.

(** [str.lower] on one byte in the C locale: only A-Z change. *)
Definition lower (c : ascii) : ascii :=
  let n := nat_of_ascii c in
  if (65 <=? n)%nat && (n <=? 90)%nat then ascii_of_nat (n + 32) else c.

Fixpoint map_string (f : ascii -> ascii) (s : string) : string :=
  match s with
  | EmptyString => EmptyString
  | String c r => String (f c) (map_string f r)
  end.

(** [s.capitalize()]: first byte upper-cased, the others lower-cased. *)
Definition capitalize (s : string) : string :=
  match s with
  | EmptyString => EmptyString
  | String c r => String (upper c) (map_string lower r)
  end.

(** [s[:1]] and [s[1:]]. *)
Definition take1 (s : string) : string :=
  match s with
  | EmptyString => EmptyString
  | String c _ => String c EmptyString
  end.

Definition drop1 (s : string) : string :=
  match s with
  | EmptyString => EmptyString
  | String _ r => r
  end.

(** [s[n:]]. *)
Fixpoint drop (n : nat) (s : string) : string :=
  match n, s with
  | O, _ => s
  | S n', String _ r => drop n' r
  | S _, EmptyString => EmptyString
  end.

(** [s[-n:]] for [n > 0]. *)
Definition take_last (n : nat) (s : string) : string :=
  drop (String.length s - n) s.

(** [s[:-n]] for [n > 0]. *)
Fixpoint take (n : nat) (s : string) : string :=
  match n, s with
  | O, _ => EmptyString
  | S n', String c r => String c (take n' r)
  | S _, EmptyString => EmptyString
  end.

Definition drop_last (n : nat) (s : string) : string :=
  take (String.length s - n) s.

(** [s.startswith(p)]. *)
Fixpoint startswith (p s : string) : bool :=
  match p, s with
  | EmptyString, _ => true
  | String a p', String b s' => if decide (a = b) then startswith p' s' else false
  | String _ _, EmptyString => false
  end.

(** [sep.join(l)]. *)
Fixpoint join (sep : string) (l : list string) : string :=
  match l with
  | [] => EmptyString
  | [x] => x
  | x :: r => x +:+ sep +:+ join sep r
  end.

(** [''.join(l)]. *)
Definition concat (l : list string) : string := foldr String.append EmptyString l.

(** [s.split(c)] for a one-character separator: the fields between
    occurrences of [c]; the empty string gives one empty field. *)
Fixpoint split_aux (c : ascii) (cur : string) (s : string) : list string :=
  match s with
  | EmptyString => [String.rev cur]
  | String a r =>
      if decide (a = c) then String.rev cur :: split_aux c EmptyString r
      else split_aux c (String a cur) r
  end.

Definition split (c : ascii) (s : string) : list string := split_aux c EmptyString s.

(** [s.rpartition('.')]: the text before the last dot, the separator and
    the text after it; [('', '', s)] when there is no dot. *)
Definition rpartition_dot (s : string) : string * string * string :=
  match reverse (split "."%char s) with
  | [] => (EmptyString, EmptyString, s)
  | [_] => (EmptyString, EmptyString, s)
  | lst :: before => (join "." (reverse before), ".", lst)
  end.

(** [s.lstrip(chars)]. *)
Fixpoint lstrip (chars : list ascii) (s : string) : string :=
  match s with
  | EmptyString => EmptyString
  | String c r => if decide (c ∈ chars) then lstrip chars r else s
  end.

(** [x in l] for a list or set of strings. *)
Definition mem (x : string) (l : list string) : bool := bool_decide (x ∈ l).

(** Truth value of a string: non-empty. *)
Definition truthy (s : string) : bool :=
  match s with EmptyString => false | _ => true end.

(** [needle in hay] for strings. *)
Fixpoint contains (needle hay : string) : bool :=
  startswith needle hay ||
  match hay with
  | EmptyString => false
  | String _ r => contains needle r
  end.

(** The last character of a string, if any. *)
Fixpoint last_char (s : string) : option ascii :=
  match s with
  | EmptyString => None
  | String c EmptyString => Some c
  | String _ r => last_char r
  end.

End Py.

(** ** Tables of the plug-in *)

(** [java_reserved_words], entry for entry (the table writes [const*] and
    [goto*] with the asterisk). *)
Definition java_reserved_words : list string :=
  ["abstract"; "assert"; "boolean"; "break"; "byte";
   "case"; "catch"; "char"; "class"; "const*"; "continue"; "default";
   "double"; "do"; "else"; "enum"; "extends"; "false";
   "final"; "finally"; "float"; "for"; "goto*"; "if";
   "implements"; "import"; "instanceof"; "int"; "interface"; "long";
   "native"; "new"; "null"; "package"; "private"; "protected";
   "public"; "return"; "short"; "static"; "strictfp"; "super";
   "switch"; "synchronized"; "this"; "throw"; "throws"; "transient";
   "true"; "try"; "void"; "volatile"; "while"].

(** [java_lang]: a subset of the java.lang classes. *)
Definition java_lang : list string :=
  ["Boolean"; "Byte"; "Double"; "Float"; "Integer";
   "Long"; "Number"; "Object"; "Short"; "String"].

(** [java_built_in = java_reserved_words | java_lang]. *)
Definition java_built_in : list string := java_reserved_words ++ java_lang.

(** [immutable_stmts]: keywords whose arguments are not rewritten. *)
Definition immutable_stmts : list string :=
  ["type"; "typedef"; "namespace"; "prefix"; "organization";
   "contact"; "description"; "range"].

(** ** camelize *)

(** [pairwise(iterable)]: every item with its successor, the last one with
    [None].  On an empty iterable the generator stops at once. *)
Fixpoint pairwise_from (item : ascii) (rest : string) : list (ascii * option ascii) :=
  match rest with
  | EmptyString => [(item, None)]
  | String next_item r => (item, Some next_item) :: pairwise_from next_item r
  end.

Definition pairwise (s : string) : list (ascii * option ascii) :=
  match s with
  | EmptyString => []
  | String item r => pairwise_from item r
  end.

(** [capitalize_first(string)]: [string[:1].capitalize() + string[1:]]. *)
Definition capitalize_first (s : string) : string :=
  Py.capitalize (Py.take1 s) +:+ Py.drop1 s.

(** [character in '-.'] for a one-character string. *)
Definition is_separator (c : ascii) : bool :=
  bool_decide (c = "-"%char) || bool_decide (c = "."%char).

(** The loop of [camelize] over the [pairwise] iterator.  When a separator
    has a successor, the successor is appended capitalized and
    [iterator.next()] drops the pair that starts with it; that pair always
    exists, because [pairwise] ends with a pair for the last item. *)
Fixpoint camelize_loop (iterator : list (ascii * option ascii))
    (camelized_str : string) : string :=
  match iterator with
  | [] => camelized_str
  | (character, next_character) :: iterator' =>
      match next_character with
      | Some n =>
          if is_separator character then
            let camelized_str' :=
              camelized_str +:+ capitalize_first (String n EmptyString) in
            match iterator' with
            | [] => camelized_str'
            | _ :: iterator'' => camelize_loop iterator'' camelized_str'
            end
          else camelize_loop iterator' (camelized_str +:+ String character EmptyString)
      | None => camelize_loop iterator' (camelized_str +:+ String character EmptyString)
      end
  end.

(** [camelize(string)]; the argument may be [None]. *)
Definition camelize (arg : option string) : string :=
  match arg with
  | None => EmptyString
  | Some s => camelize_loop (pairwise s) EmptyString
  end.

(** What the loop computes, by recursion on the string: a separator that
    has a successor is dropped and the successor is upper-cased and not
    looked at again. *)
Fixpoint camelize_chars (s : string) : string :=
  match s with
  | EmptyString => EmptyString
  | String c rest =>
      match rest with
      | EmptyString => String c EmptyString
      | String n rest' =>
          if is_separator c then String (Py.upper n) (camelize_chars rest')
          else String c (camelize_chars rest)
      end
  end.

(** ** Statements, the store and the world *)

Definition ref := nat.

(** An attribute that an object may lack: [Absent] makes [hasattr] false
    and an access raise [AttributeError]; [Present None] is the attribute
    set to [None]. *)
Inductive attr (A : Type) : Type :=
  | Absent
  | Present (v : option A).
Arguments Absent {A}.
Arguments Present {A} v.

(** A pyang [Statement], with the fields and validation annotations the
    plug-in reads. *)
Record Statement := mkStatement {
  keyword : string;
  arg : option string;
  substmts : list ref;
  i_children : attr (list ref);
  parent : option ref;
  top : option ref;
  i_typedef : attr ref;
  i_target_node : attr ref }.

(** [ctx.opts], as far as the generators consult it. *)
Record Context := mkContext {
  opts_debug : bool;
  opts_verbose : bool;
  opts_directory : string }.

Inductive exn : Type :=
  | AttributeError
  | TypeError
  | AssertionError
  | KeyError.

(** Everything a call can change: the statement objects, the two module
    globals, the two output streams (one entry per [print]) and the files
    written (directory, file name, content). *)
Record world := mkWorld {
  store : gmap ref Statement;
  outputted_warnings : list string;
  augmented_modules : gmap (option string) ref;
  stderr : list string;
  stdout : list string;
  files : list (string * string * string) }.

(** The world with another store, and a statement with another argument,
    substatement list or child list. *)
Definition with_store (w : world) (st : gmap ref Statement) : world :=
  mkWorld st (outputted_warnings w) (augmented_modules w)
          (stderr w) (stdout w) (files w).

Definition with_arg (s : Statement) (a : option string) : Statement :=
  mkStatement (keyword s) a (substmts s) (i_children s)
              (parent s) (top s) (i_typedef s) (i_target_node s).

Definition with_substmts (s : Statement) (l : list ref) : Statement :=
  mkStatement (keyword s) (arg s) l (i_children s)
              (parent s) (top s) (i_typedef s) (i_target_node s).

Definition with_i_children (s : Statement) (l : list ref) : Statement :=
  mkStatement (keyword s) (arg s) (substmts s) (Present (Some l))
              (parent s) (top s) (i_typedef s) (i_target_node s).

(** A call returns a value, raises, or is cut off by the model: the fuel
    ran out, or a reference names no object (which no Python run does). *)
Inductive outcome (A : Type) : Type :=
  | Ret (a : A) (w : world)
  | Exc (e : exn) (w : world)
  | OutOfFuel
  | BadRef.
Arguments Ret {A} a w.
Arguments Exc {A} e w.
Arguments OutOfFuel {A}.
Arguments BadRef {A}.

Definition M (A : Type) : Type := world -> outcome A.

Definition ret {A} (a : A) : M A := fun w => Ret a w.

Definition bind {A B} (m : M A) (k : A -> M B) : M B :=
  fun w =>
    match m w with
    | Ret a w' => k a w'
    | Exc e w' => Exc e w'
    | OutOfFuel => OutOfFuel
    | BadRef => BadRef
    end.

Definition raise {A} (e : exn) : M A := fun w => Exc e w.

Notation "'do' x <- m ;; k" := (bind m (fun x => k))
  (at level 10, x name, m at level 99, k at level 200).
Notation "'run' m ;; k" := (bind m (fun _ => k))
  (at level 10, m at level 99, k at level 200).

(** The object a reference names. *)
Definition deref (r : ref) : M Statement :=
  fun w => match store w !! r with Some s => Ret s w | None => BadRef end.

(** Attribute access on a value that may be [None]. *)
Definition deref_opt (r : option ref) : M Statement :=
  match r with
  | Some r => deref r
  | None => raise AttributeError
  end.

(** [for x in l: body(x)], collecting the results. *)
Fixpoint for_each {A B} (body : A -> M B) (l : list A) : M (list B) :=
  match l with
  | [] => ret []
  | x :: r => do y <- body x ;; do ys <- for_each body r ;; ret (y :: ys)
  end.

(** [print >> sys.stderr, line] and [print line]. *)
Definition print_stderr (line : string) : M unit :=
  fun w => Ret tt (mkWorld (store w) (outputted_warnings w) (augmented_modules w)
                           (stderr w ++ [line]) (stdout w) (files w)).

Definition print_stdout (line : string) : M unit :=
  fun w => Ret tt (mkWorld (store w) (outputted_warnings w) (augmented_modules w)
                           (stderr w) (stdout w ++ [line]) (files w)).

Definition get_outputted_warnings : M (list string) :=
  fun w => Ret (outputted_warnings w) w.

(** [outputted_warnings.append(key)]. *)
Definition append_outputted_warning (key : string) : M unit :=
  fun w => Ret tt (mkWorld (store w) (outputted_warnings w ++ [key])
                           (augmented_modules w) (stderr w) (stdout w) (files w)).

(** [augmented_modules[k] = v]. *)
Definition set_augmented_module (k : option string) (v : ref) : M unit :=
  fun w => Ret tt (mkWorld (store w) (outputted_warnings w)
                           (<[k := v]> (augmented_modules w))
                           (stderr w) (stdout w) (files w)).

(** [stmt.arg = a] on the object [r]. *)
Definition set_arg (r : ref) (a : option string) : M unit :=
  fun w =>
    match store w !! r with
    | Some s => Ret tt (with_store w (<[r := with_arg s a]> (store w)))
    | None => BadRef
    end.

(** A [str] operand that must not be [None] ([+] and [join] raise
    [TypeError] on [None]). *)
Definition as_str (a : option string) : M string :=
  match a with
  | Some s => ret s
  | None => raise TypeError
  end.

(** pyang's [Statement.search_one(keyword, arg=None)] (library code the
    plug-in calls): the first substatement with that keyword and, when
    [arg] is given, that argument; [None] when there is none. *)
Fixpoint search_one_in (st : gmap ref Statement) (kw : string)
    (a : option string) (children : list ref) : option ref :=
  match children with
  | [] => None
  | ch :: rest =>
      match st !! ch with
      | Some c =>
          if bool_decide (keyword c = kw) &&
             match a with
             | None => true
             | Some _ => bool_decide (arg c = a)
             end
          then Some ch
          else search_one_in st kw a rest
      | None => search_one_in st kw a rest
      end
  end.

Definition search_one (s : Statement) (kw : string) (a : option string)
    : M (option ref) :=
  fun w => Ret (search_one_in (store w) kw a (substmts s)) w.

(** pyang's [Statement.search(keyword)]: all substatements with that
    keyword, in order. *)
Fixpoint search_in (st : gmap ref Statement) (kw : string)
    (children : list ref) : list ref :=
  match children with
  | [] => []
  | ch :: rest =>
      match st !! ch with
      | Some c =>
          if bool_decide (keyword c = kw) then ch :: search_in st kw rest
          else search_in st kw rest
      | None => search_in st kw rest
      end
  end.

Definition search (s : Statement) (kw : string) : M (list ref) :=
  fun w => Ret (search_in (store w) kw (substmts s)) w.

(** ** Warnings *)

(** [print_warning(msg='', key='', ctx=None)].  With an empty [msg] the
    function calls itself with the default message, which is not empty, so
    the inner call takes the printing branch: [print_warning_msg] is that
    branch. *)
Definition warning_enabled (key : string) (ctx : option Context) : M bool :=
  do seen <- get_outputted_warnings ;;
  ret ((negb (Py.truthy key) || negb (Py.mem key seen)) &&
       match ctx with
       | None => true
       | Some c => opts_debug c || opts_verbose c
       end).

Definition print_warning_msg (msg key : string) (ctx : option Context) : M unit :=
  do go <- warning_enabled key ctx ;;
  if go then
    run print_stderr ("WARNING: " +:+ msg) ;;
    if Py.truthy key then append_outputted_warning key else ret tt
  else ret tt.

Definition print_warning (msg key : string) (ctx : option Context) : M unit :=
  do go <- warning_enabled key ctx ;;
  if go then
    if Py.truthy msg then
      run print_stderr ("WARNING: " +:+ msg) ;;
      if Py.truthy key then append_outputted_warning key else ret tt
    else
      print_warning_msg
        ("No support for type " +:+ Py.dq +:+ key +:+ Py.dq +:+
         ", defaulting to string.") key ctx
  else ret tt.

(** A run of [print_warning] calls with one key, each call with a message
    and a context of its own. *)
Definition print_warnings (key : string) (calls : list (string * option Context))
    : M (list unit) :=
  for_each (fun c => print_warning (fst c) key (snd c)) calls.

(** The line a call of [print_warning] prints when it prints. *)
Definition warning_line (msg key : string) : string :=
  "WARNING: " +:+
  (if Py.truthy msg then msg
   else "No support for type " +:+ Py.dq +:+ key +:+ Py.dq +:+
        ", defaulting to string.").

(** The test of [print_warning] on the context: there is none, or it has
    the debug or the verbose flag. *)
Definition loud (ctx : option Context) : bool :=
  match ctx with
  | None => true
  | Some c => opts_debug c || opts_verbose c
  end.

(** ** Packages and types *)

(** The loop of [get_package]: climb to the root, collecting the argument
    of every proper ancestor except the root, outermost first. *)
Fixpoint get_package_loop (fuel : nat) (stmt : Statement)
    (sub_packages : list (option string)) : M (list (option string)) :=
  match parent stmt with
  | None => ret sub_packages
  | Some p =>
      match fuel with
      | O => fun _ => OutOfFuel
      | S fuel' =>
          do stmt' <- deref p ;;
          match parent stmt' with
          | Some _ => get_package_loop fuel' stmt' (arg stmt' :: sub_packages)
          | None => get_package_loop fuel' stmt' sub_packages
          end
      end
  end.

(** [get_package(stmt, ctx)], with [os.sep] the slash. *)
Definition get_package (fuel : nat) (stmt : option ref) (ctx : option Context)
    : M string :=
  do s <- deref_opt stmt ;;
  do sub_packages <- get_package_loop fuel s [] ;;
  match ctx with
  | None => raise AttributeError
  | Some c =>
      let full_package :=
        (Some <$> Py.split "/"%char (opts_directory c)) ++ sub_packages in
      let full_package :=
        match full_package with
        | Some "src" :: rest => rest
        | _ => full_package
        end in
      do parts <- for_each as_str full_package ;;
      ret (Py.join "." parts)
  end.

(** [get_base_type(stmt)]: follow [i_typedef] from the type of [stmt] to a
    type statement that has no typedef. *)
Fixpoint get_base_type (fuel : nat) (stmt : option ref) : M (option ref) :=
  match fuel with
  | O => fun _ => OutOfFuel
  | S fuel' =>
      do s <- deref_opt stmt ;;
      do type_stmt <- search_one s "type" None ;;
      match type_stmt with
      | None => ret type_stmt
      | Some t =>
          do ts <- deref t ;;
          match i_typedef ts with
          | Absent => ret type_stmt
          | Present (Some typedef) => get_base_type fuel' (Some typedef)
          | Present None => ret type_stmt
          end
      end
  end.

(** The integer branch of [get_types]. *)
Definition integer_types (a : string) : string * string :=
  let primitive0 := capitalize_first (camelize (Some a)) in
  let unsigned := bool_decide (Py.take1 a = "u") in
  let integer_type :=
    if unsigned then ["long"; "long"; "int"; "short"]
    else ["long"; "int"; "short"; "byte"] in
  let netconf :=
    if unsigned then "com.tailf.jnc.YangUI" +:+ Py.drop 2 a
    else "com.tailf.jnc.Yang" +:+ primitive0 in
  let at_ i := default "" (integer_type !! i) in
  let primitive :=
    if bool_decide (Py.take_last 2 a = "64") then at_ 0%nat
    else if bool_decide (Py.take_last 2 a = "32") then at_ 1%nat
    else if bool_decide (Py.take_last 2 a = "16") then at_ 2%nat
    else at_ 3%nat in
  (netconf, primitive).

(** [get_types(yang_type, ctx)]: the library (JNC) type and the primitive
    type of a type, typedef, leaf or leaf-list statement. *)
Fixpoint get_types (fuel : nat) (yang_type : option ref) (ctx : option Context)
    : M (string * string) :=
  match fuel with
  | O => fun _ => OutOfFuel
  | S fuel' =>
      do y0 <- deref_opt yang_type ;;
      do yang_type <-
        (if Py.mem (keyword y0) ["leaf"; "leaf-list"]
         then search_one y0 "type" None else ret yang_type) ;;
      do y <- deref_opt yang_type ;;
      if negb (Py.mem (keyword y) ["type"; "typedef"]) then raise AssertionError
      else
        let primitive := capitalize_first (camelize (arg y)) in
        let netconf := "com.tailf.jnc.Yang" +:+ primitive in
        let is_in l := match arg y with Some a => Py.mem a l | None => false end in
        if is_in ["string"; "boolean"] then ret (netconf, primitive)
        else if is_in ["enumeration"; "binary"] then ret (netconf, "String")
        else if is_in ["bits"] then ret (netconf, "BigInteger")
        else if is_in ["instance-identifier"; "leafref"; "identityref"]
          then ret (netconf, "Element")
        else if is_in ["empty"] then ret (netconf, "boolean")
        else if is_in ["int8"; "int16"; "int32"; "int64";
                       "uint8"; "uint16"; "uint32"; "uint64"]
          then ret (integer_types (default "" (arg y)))
        else if is_in ["decimal64"] then ret (netconf, "BigDecimal")
        else
          match i_typedef y with
          | Absent =>
              do package <- get_package fuel' yang_type ctx ;;
              do a <- as_str (arg y) ;;
              run print_warning "" (package +:+ a) ctx ;;
              ret (netconf, primitive)
          | Present typedef =>
              run (match typedef, ctx with
                   | None, None => raise AttributeError
                   | None, Some c =>
                       if opts_verbose c
                       then do a <- as_str (arg y) ;;
                            print_stdout (keyword y +:+ " " +:+ a)
                       else ret tt
                   | Some _, _ => ret tt
                   end) ;;
              do basetype <- get_base_type fuel' typedef ;;
              do package <- get_package fuel' typedef ctx ;;
              let typedef_arg := capitalize_first (camelize (arg y)) in
              do base <- get_types fuel' basetype ctx ;;
              ret (package +:+ "." +:+ typedef_arg, snd base)
          end
  end.

(** ** The identifier sanitizer *)

(** [make_valid_identifier(stmt)]: camelize the argument of a statement
    whose keyword is not immutable and whose argument is not empty, and
    prepend [J] when the result is in [java_reserved_words]. *)
Definition make_valid_identifier (stmt : ref) : M ref :=
  do s <- deref stmt ;;
  if negb (Py.mem (keyword s) immutable_stmts) &&
     match arg s with Some a => Py.truthy a | None => false end
  then
    let a := camelize (arg s) in
    run set_arg stmt (Some a) ;;
    run (if Py.mem a java_reserved_words
         then set_arg stmt (Some ("J" +:+ a)) else ret tt) ;;
    ret stmt
  else ret stmt.

(** [stmt.substmts = l] and [stmt.i_children = l]. *)
Definition set_substmts (r : ref) (l : list ref) : M unit :=
  fun w =>
    match store w !! r with
    | Some s => Ret tt (with_store w (<[r := with_substmts s l]> (store w)))
    | None => BadRef
    end.

Definition set_i_children (r : ref) (l : list ref) : M unit :=
  fun w =>
    match store w !! r with
    | Some s => Ret tt (with_store w (<[r := with_i_children s l]> (store w)))
    | None => BadRef
    end.

(** [try: body except AttributeError: pass]. *)
Definition except_AttributeError_pass (body : M unit) : M unit :=
  fun w =>
    match body w with
    | Exc AttributeError w' => Ret tt w'
    | o => o
    end.

(** [make_valid_identifiers(stmt)]: the statement, then its substatements,
    then its [i_children] when it has the attribute.  The objects are
    rewritten in place; a statement reachable along several paths is
    rewritten once per path. *)
Fixpoint make_valid_identifiers (fuel : nat) (stmt : ref) : M ref :=
  match fuel with
  | O => fun _ => OutOfFuel
  | S fuel' =>
      do stmt <- make_valid_identifier stmt ;;
      do s <- deref stmt ;;
      do valid_substmts <- for_each (make_valid_identifiers fuel') (substmts s) ;;
      run set_substmts stmt valid_substmts ;;
      run except_AttributeError_pass
        (do s <- deref stmt ;;
         match i_children s with
         | Absent => raise AttributeError
         | Present None => raise TypeError
         | Present (Some children) =>
             do valid_i_children <-
               for_each (make_valid_identifiers fuel') children ;;
             set_i_children stmt valid_i_children
         end) ;;
      ret stmt
  end.

(** ** Java values and methods *)

Module JavaMethod.

(** The instance data of a [JavaMethod] (a [JavaValue] with a return type,
    parameters, exceptions and a body).  [imports] is a Python set: a list
    without duplicates whose order carries no meaning. *)
Record t := mk {
  exact : option (list string);
  value : option string;
  indent : string;
  javadocs : list string;
  modifiers : list string;
  name : option string;
  imports : list string;
  return_type : option string;
  parameters : list string;
  exceptions : list string;
  body : list string }.

(** [JavaMethod()] with [indent=4]: every list empty, nothing set. *)
Definition empty : t :=
  mk None None "    " [] [] None [] None [] [] [].

(** [set.add]. *)
Definition set_add (x : string) (s : list string) : list string :=
  if Py.mem x s then s else s ++ [x].

(** The setters go through [_set_instance_data], which appends to a list
    attribute or overwrites another one and then clears [exact]. *)
Definition set_name (x : string) (m : t) : t :=
  mk None (value m) (indent m) (javadocs m) (modifiers m) (Some x)
     (imports m) (return_type m) (parameters m) (exceptions m) (body m).

Definition add_modifier (x : string) (m : t) : t :=
  mk None (value m) (indent m) (javadocs m) (modifiers m ++ [x]) (name m)
     (imports m) (return_type m) (parameters m) (exceptions m) (body m).

(** [add_javadoc(line)]: the line without leading spaces, stars and
    slashes. *)
Definition add_javadoc (line : string) (m : t) : t :=
  mk None (value m) (indent m)
     (javadocs m ++ [Py.lstrip [" "; "*"; "/"]%char line])
     (modifiers m) (name m)
     (imports m) (return_type m) (parameters m) (exceptions m) (body m).

(** [add_dependency(import_)]: record the import unless the class is built
    in, and return the name to use in the code. *)
Definition add_dependency (import_ : string) (m : t) : string * t :=
  let with_import :=
    mk (exact m) (value m) (indent m) (javadocs m) (modifiers m) (name m)
       (set_add import_ (imports m))
       (return_type m) (parameters m) (exceptions m) (body m) in
  match Py.rpartition_dot import_ with
  | (_, sep, class_name) =>
      if Py.truthy sep then
        if negb (Py.mem class_name java_built_in) then (class_name, with_import)
        else (import_, m)
      else if negb (Py.mem import_ java_built_in) then (import_, with_import)
      else (import_, m)
  end.

Definition set_return_type (x : string) (m : t) : t :=
  let '(x', m) := add_dependency x m in
  mk None (value m) (indent m) (javadocs m) (modifiers m) (name m)
     (imports m) (Some x') (parameters m) (exceptions m) (body m).

Definition add_parameter (param_type param_name : string) (m : t) : t :=
  let '(ty, m) := add_dependency param_type m in
  mk None (value m) (indent m) (javadocs m) (modifiers m) (name m)
     (imports m) (return_type m)
     (parameters m ++ [Py.join " " [ty; param_name]])
     (exceptions m) (body m).

Definition add_exception (exception : string) (m : t) : t :=
  let '(e, m) := add_dependency exception m in
  mk None (value m) (indent m) (javadocs m) (modifiers m) (name m)
     (imports m) (return_type m) (parameters m) (exceptions m ++ [e]) (body m).

Definition add_line (line : string) (m : t) : t :=
  mk None (value m) (indent m) (javadocs m) (modifiers m) (name m)
     (imports m) (return_type m) (parameters m) (exceptions m)
     (body m ++ [indent m +:+ "    " +:+ line]).

Definition set_imports (l : list string) (m : t) : t :=
  mk (exact m) (value m) (indent m) (javadocs m) (modifiers m) (name m)
     l (return_type m) (parameters m) (exceptions m) (body m).

(** [JavaMethod(modifiers=ms, name=n)]. *)
Definition init (ms : list string) (n : string) : t :=
  set_name n (foldl (fun m x => add_modifier x m) empty ms).

(** [javadoc_as_string()]: the lines of the javadoc comment. *)
Definition javadoc_as_string (m : t) : list string :=
  match javadocs m with
  | [] => []
  | _ =>
      [indent m +:+ "/**"] ++
      ((fun line => indent m +:+ " * " +:+ line) <$> javadocs m) ++
      [indent m +:+ " */"]
  end.

(** What [JavaMethod.as_list] computes when there is no cached result:
    the javadoc, the signature, the body and the closing brace. *)
Definition render (n : string) (m : t) : list string :=
  let header :=
    modifiers m ++
    match return_type m with
    | Some r => [r]
    | None => []
    end ++ [n] in
  let signature :=
    [indent m; Py.join " " header; "("; Py.join ", " (parameters m); ")"] ++
    match exceptions m with
    | [] => []
    | _ => [" throws "; Py.join ", " (exceptions m)]
    end ++ [" {"] in
  javadoc_as_string m ++ [Py.concat signature] ++ body m ++ [indent m +:+ "}"].

Definition set_exact (e : list string) (m : t) : t :=
  mk (Some e) (value m) (indent m) (javadocs m) (modifiers m) (name m)
     (imports m) (return_type m) (parameters m) (exceptions m) (body m).

(** [JavaMethod.as_list()]: the cached lines, or the lines computed and
    cached now; the assertion fails when there is no name. *)
Definition as_list (m : t) : exn + list string * t :=
  match exact m with
  | Some e => inr (e, m)
  | None =>
      match name m with
      | None => inl AssertionError
      | Some n => inr (render n m, set_exact (render n m) m)
      end
  end.

(** A call of one of the methods of a [JavaMethod], or the assignment
    [method.imports = l] that [fix_imports] makes. *)
Inductive call : Type :=
  | SetName (x : string)
  | AddModifier (x : string)
  | AddJavadoc (line : string)
  | AddDependency (import_ : string)
  | SetReturnType (x : string)
  | AddParameter (param_type param_name : string)
  | AddException (exception : string)
  | AddLine (line : string)
  | SetImports (l : list string)
  | AsList.

(** The method after the call; an [as_list] that raises leaves it as it
    is. *)
Definition apply (c : call) (m : t) : t :=
  match c with
  | SetName x => set_name x m
  | AddModifier x => add_modifier x m
  | AddJavadoc line => add_javadoc line m
  | AddDependency import_ => snd (add_dependency import_ m)
  | SetReturnType x => set_return_type x m
  | AddParameter param_type param_name => add_parameter param_type param_name m
  | AddException exception => add_exception exception m
  | AddLine line => add_line line m
  | SetImports l => set_imports l m
  | AsList =>
      match as_list m with
      | inr (_, m') => m'
      | inl _ => m
      end
  end.

(** A method as a program has it: [JavaMethod()] after a sequence of
    calls. *)
Definition built (calls : list call) : t :=
  foldl (fun m c => apply c m) empty calls.

End JavaMethod.

(** [extract_names(arg)]: the file name and the class name for [arg]. *)
Definition extract_names (a : option string) : string * string :=
  let capitalized := capitalize_first (camelize a) in
  (capitalized +:+ ".java", capitalized).

(** [is_config(stmt)]: the nearest [config] substatement on the way to the
    root decides; without one the statement is configuration data. *)
Fixpoint is_config_loop (fuel : nat) (stmt : option ref) : M (option ref) :=
  match stmt with
  | None => ret None
  | Some r =>
      match fuel with
      | O => fun _ => OutOfFuel
      | S fuel' =>
          do s <- deref r ;;
          do config <- search_one s "config" None ;;
          match config with
          | Some _ => ret config
          | None => is_config_loop fuel' (parent s)
          end
      end
  end.

Definition is_config (fuel : nat) (stmt : ref) : M bool :=
  do config <- is_config_loop fuel (Some stmt) ;;
  match config with
  | None => ret true
  | Some c => do cs <- deref c ;; ret (bool_decide (arg cs = Some "true"))
  end.

(** [extract_keys(stmt, ctx)]: the key statement, whether all keys are
    of primitive type [String], and the keys with their library types and
    with their primitive types.  [only_strings] is updated with [*=], so
    the source returns an integer; its truth value is given here. *)
Definition extract_key (fuel : nat) (s : Statement) (ctx : option Context)
    (a : string) : M ((string * string) * (string * string)) :=
  do leaf <- search_one s "leaf" (Some a) ;;
  do l <- deref_opt leaf ;;
  do key_type <- search_one l "type" None ;;
  do types <- get_types fuel key_type ctx ;;
  ret ((fst types, a), (snd types, a)).

Definition extract_keys (fuel : nat) (stmt : ref) (ctx : option Context)
    : M (option ref * bool * list (string * string) * list (string * string)) :=
  do s <- deref stmt ;;
  do key <- search_one s "key" None ;;
  do k <- deref_opt key ;;
  match arg k with
  | None => raise AttributeError
  | Some key_arg =>
      do keys <- for_each (extract_key fuel s ctx) (Py.split " "%char key_arg) ;;
      let confm_keys := fst <$> keys in
      let primitive_keys := snd <$> keys in
      let only_strings :=
        forallb (fun p => bool_decide (fst p = "String")) primitive_keys in
      ret (key, only_strings, confm_keys, primitive_keys)
  end.

(** [s.replace(a, b)] for one-character strings. *)
Definition replace_char (a b : ascii) (s : string) : string :=
  Py.map_string (fun c => if decide (c = a) then b else c) s.

(** [strip_first(s)], with [os.sep] the slash. *)
Definition strip_first (s : string) : string :=
  Py.join "." (tail (Py.split "."%char (replace_char "/" "." s))).

(** [' ' * n]. *)
Fixpoint spaces (n : nat) : string :=
  match n with
  | O => EmptyString
  | S n' => String " " (spaces n')
  end.

(** [indent(lines, level)]. *)
Definition indent (lines : list string) (level : nat) : string :=
  Py.drop_last 1
    (foldl (fun res line => res +:+ (spaces (level * 4) +:+ line +:+ Py.nl))
           EmptyString lines).

(** ** Method generators *)

Module MethodGenerator.

Record t := mk {
  stmt : ref;
  n : string;
  root : option string;
  is_container : bool;
  is_list : bool;
  is_typedef : bool;
  is_top_level : bool;
  ctx : option Context }.

(** [MethodGenerator.__init__], without the choice of [self.gen]. *)
Definition init (stmt : ref) (ctx : option Context) : M t :=
  do s <- deref stmt ;;
  let n := snd (extract_names (arg s)) in
  do prefix <-
    match top s with
    | Some tp => do t <- deref tp ;; search_one t "prefix" None
    | None => ret None
    end ;;
  do root <-
    match prefix with
    | Some p => do ps <- deref p ;; ret (Some (snd (extract_names (arg ps))))
    | None => ret None
    end ;;
  let is_container := bool_decide (keyword s = "container") in
  let is_list := bool_decide (keyword s = "list") in
  let is_typedef := bool_decide (keyword s = "typedef") in
  let is_top_level := bool_decide (parent s = top s) in
  if negb (is_container || is_list || is_typedef) then raise AssertionError
  else ret (mk stmt n root is_container is_list is_typedef is_top_level ctx).

(** One round of the loop of [fix_imports]: the qualified name to keep for
    [dependency], if any. *)
Definition fix_import (g : t) (children : list string) (basepkg : string)
    (stmt_arg : option string) (dependency : string) : M (option string) :=
  if Py.startswith "java.math" dependency ||
     Py.startswith "com.tailf.jnc" dependency ||
     Py.startswith basepkg dependency
  then ret (Some dependency)
  else if Py.mem dependency ["BigInteger"; "BigDecimal"]
  then ret (Some (Py.join "." ["java.math"; dependency]))
  else if bool_decide (Some dependency = root g)
  then if is_top_level g then ret None
       else ret (Some (Py.join "." [basepkg; dependency]))
  else if Py.mem dependency children
  then do a <- as_str stmt_arg ;;
       ret (Some (Py.join "." [Py.join "." [basepkg; a]; dependency]))
  else ret (Some (Py.join "." ["com.tailf.jnc"; dependency])).

(** [fix_imports(method)]: qualify the imports of [method]. *)
Definition fix_imports (g : t) (method : JavaMethod.t) : M JavaMethod.t :=
  do s <- deref (stmt g) ;;
  do children <-
    for_each (fun r => do c <- deref r ;; ret (capitalize_first (camelize (arg c))))
             (substmts s) ;;
  match ctx g with
  | None => raise AttributeError
  | Some c =>
      let basepkg := opts_directory c in
      let basepkg :=
        if bool_decide (Py.take 4 basepkg = "src/") then Py.drop 4 basepkg
        else basepkg in
      do fixed <- for_each (fix_import g children basepkg (arg s))
                           (JavaMethod.imports method) ;;
      let res := foldl (fun res d => match d with
                                     | Some d => JavaMethod.set_add d res
                                     | None => res
                                     end) [] fixed in
      ret (JavaMethod.set_imports res method)
  end.

(** [_root_namespace(stmt_arg)], joined. *)
Definition root_namespace (g : t) (stmt_arg : option string) : M string :=
  do r <- as_str (root g) ;;
  do a <- as_str stmt_arg ;;
  ret (Py.concat ["("; r; ".NAMESPACE, "; Py.dq; a; Py.dq; ");"]).

(** [constructor_template()]: a constructor that calls the parent
    constructor, without parameters and javadoc. *)
Definition constructor_template (g : t) : M JavaMethod.t :=
  let constructor := JavaMethod.init ["public"] (n g) in
  do constructor <-
    (if is_container g || is_list g then
       do s <- deref (stmt g) ;;
       match root g with
       | None => raise AttributeError
       | Some r =>
           let constructor := snd (JavaMethod.add_dependency r constructor) in
           do call <- root_namespace g (arg s) ;;
           let constructor := JavaMethod.add_line ("super" +:+ call) constructor in
           if bool_decide (parent s = top s) then
             ret (JavaMethod.add_line
                    (Py.concat ["setPrefix("; r; ".PREFIX);"])
                    (JavaMethod.add_line "setDefaultPrefix();" constructor))
           else ret constructor
       end
     else ret (JavaMethod.add_line "super(value);" constructor)) ;;
  fix_imports g constructor.

(** [empty_constructor()]. *)
Definition empty_constructor (g : t) : M JavaMethod.t :=
  if is_typedef g then raise AssertionError
  else
    do constructor <- constructor_template g ;;
    fix_imports g
      (JavaMethod.add_javadoc
         (Py.concat ["Constructor for an empty "; n g; " object."]) constructor).

(** One round of the loop of [cloners()], with the texts of this round. *)
Definition cloner (g : t) (a b c : string) : M JavaMethod.t :=
  let cloner := JavaMethod.empty in
  let cloner :=
    JavaMethod.add_javadoc
      (Py.concat ["Clones this object, returning "; a; " copy."]) cloner in
  let cloner :=
    JavaMethod.add_javadoc
      (Py.concat ["@return A clone of the object."; b]) cloner in
  let cloner := JavaMethod.add_modifier "public" cloner in
  let cloner := JavaMethod.set_return_type "YangElement" cloner in
  let cloner := JavaMethod.set_name (Py.concat ["clone"; c]) cloner in
  let cloner :=
    JavaMethod.add_line
      (Py.concat ["return clone"; c; "Content(new "; n g; "());"]) cloner in
  fix_imports g cloner.

(** [cloners()]: no clone method for a typedef, two otherwise. *)
Definition cloners (g : t) : M (list JavaMethod.t) :=
  if is_typedef g then ret []
  else
    do c0 <- cloner g "an exact" "" "" ;;
    do c1 <- cloner g "a shallow" " Children are not included." "Shallow" ;;
    ret [c0; c1].

End MethodGenerator.

Module TypedefMethodGenerator.

(** The typedef generator: the base data, the type substatement and the
    restriction attributes, which [__init__] sets only when there is a type
    substatement. *)
Record t := mk {
  base : MethodGenerator.t;
  stmt_type : option ref;
  is_string : bool;
  needs_check : bool;
  length : attr ref;
  path : attr ref;
  range : attr ref;
  require_instance : attr ref;
  bit : option (list ref);
  enum : option (list ref);
  pattern : option (list ref) }.

(** [TypedefMethodGenerator.__init__].  [needs_check] is set to [True];
    the assignment from [enum] and [pattern] is commented out in the
    source. *)
Definition init (stmt : ref) (ctx : option Context) : M t :=
  do b <- MethodGenerator.init stmt ctx ;;
  if negb (MethodGenerator.is_typedef b) then raise AssertionError
  else
    do s <- deref stmt ;;
    do stmt_type <- search_one s "type" None ;;
    match stmt_type with
    | None => ret (mk b None false true Absent Absent Absent Absent None None None)
    | Some ty =>
        do t <- deref ty ;;
        let is_string :=
          match arg t with
          | Some a => Py.mem a ["string"; "enumeration"]
          | None => false
          end in
        do length <- search_one t "length" None ;;
        do path <- search_one t "path" None ;;
        do range <- search_one t "range" None ;;
        do require_instance <- search_one t "require_instance" None ;;
        do bit <- search t "bit" ;;
        do enum <- search t "enum" ;;
        do pattern <- search t "pattern" ;;
        ret (mk b stmt_type is_string true (Present length) (Present path)
                (Present range) (Present require_instance)
                (Some bit) (Some enum) (Some pattern))
    end.

(** One constructor of [constructors()]: [i = 0] takes a [String],
    [i = 1] the primitive type. *)
Definition constructor (g : t) (primitive : string) (i : nat) : M JavaMethod.t :=
  let n := MethodGenerator.n (base g) in
  let javadoc := Py.concat ["@param value Value to construct the "; n; " from."] in
  do constructor <- MethodGenerator.constructor_template (base g) ;;
  let '(javadoc2, constructor) :=
    match i with
    | O => (Py.concat ["Constructor for "; n; " object from a string."],
            JavaMethod.add_parameter "String" "value" constructor)
    | S _ =>
        let '(tmp_primitive, constructor) :=
          JavaMethod.add_dependency primitive constructor in
        (Py.concat ["Constructor for "; n; " object from a "; primitive; "."],
         JavaMethod.add_parameter tmp_primitive "value" constructor)
    end in
  let constructor := JavaMethod.add_javadoc javadoc2 constructor in
  let constructor := JavaMethod.add_javadoc javadoc constructor in
  let constructor :=
    if needs_check g then
      let constructor := JavaMethod.add_line "check();" constructor in
      let '(exception, constructor) :=
        JavaMethod.add_dependency "YangException" constructor in
      JavaMethod.add_exception exception constructor
    else constructor in
  MethodGenerator.fix_imports (base g) constructor.

(** [constructors()]: one constructor when the type is textual, two
    otherwise. *)
Definition constructors (fuel : nat) (g : t) : M (list JavaMethod.t) :=
  do types <- get_types fuel (stmt_type g) (MethodGenerator.ctx (base g)) ;;
  let primitive := snd types in
  for_each (constructor g primitive) (seq 0 (1 + (if is_string g then 0 else 1))).

(** The lines of [checker()] for the enum values and for the patterns. *)
Definition enum_lines (args : list string) : list string :=
  match args with
  | [] => []
  | _ =>
      ["boolean e = false;"] ++
      ((fun a => Py.concat ["e |= enumeration("; Py.dq; a; Py.dq; ");"]) <$> args) ++
      ["throwException( !e );"]
  end.

Definition pattern_lines (args : list string) : list string :=
  match args with
  | [] => []
  | [a] => [Py.concat ["pattern("; Py.dq; a; Py.dq; ");"]]
  | _ =>
      ["java.lang.String[] regexs = {"] ++
      ((fun a => Py.concat ["    "; Py.dq; a; Py.dq; ","]) <$> args) ++
      ["};"; "pattern(regexs);"]
  end.

(** The arguments of a list of statements; string concatenation raises
    [TypeError] on a missing argument. *)
Definition args_of (l : list ref) : M (list string) :=
  for_each (fun r => do s <- deref r ;; as_str (arg s)) l.

(** [checker()]: a list with the [check] method when [needs_check], the
    empty list otherwise. *)
Definition checker (g : t) : M (list JavaMethod.t) :=
  if needs_check g then
    let checker := JavaMethod.init ["public"; "void"] "check" in
    let checker := JavaMethod.add_javadoc "Checks all restrictions (if any)." checker in
    let checker := JavaMethod.add_exception "YangException" checker in
    match enum g, pattern g with
    | None, _ => raise AttributeError
    | Some enum, pattern =>
        do enum_args <- args_of enum ;;
        let checker :=
          foldl (fun m l => JavaMethod.add_line l m) checker (enum_lines enum_args) in
        match pattern with
        | None => raise AttributeError
        | Some pattern =>
            do pattern_args <- args_of pattern ;;
            let checker :=
              foldl (fun m l => JavaMethod.add_line l m) checker
                    (pattern_lines pattern_args) in
            do checker <- MethodGenerator.fix_imports (base g) checker ;;
            ret [checker]
        end
    end
  else ret [].

End TypedefMethodGenerator.

Module ContainerMethodGenerator.

(** [ContainerMethodGenerator.__init__]. *)
Definition init (stmt : ref) (ctx : option Context) : M MethodGenerator.t :=
  do b <- MethodGenerator.init stmt ctx ;;
  if negb (MethodGenerator.is_container b) then raise AssertionError else ret b.

(** [constructors()]. *)
Definition constructors (g : MethodGenerator.t) : M (list JavaMethod.t) :=
  do c <- MethodGenerator.empty_constructor g ;; ret [c].

End ContainerMethodGenerator.

(** The module-level [is_config], under a name the record field of the
    list generator does not hide. *)
Definition global_is_config := is_config.

Module ListMethodGenerator.

Record t := mk {
  base : MethodGenerator.t;
  is_config : bool }.

(** [ListMethodGenerator.__init__]. *)
Definition init (fuel : nat) (stmt : ref) (ctx : option Context) : M t :=
  do b <- MethodGenerator.init stmt ctx ;;
  if negb (MethodGenerator.is_list b) then raise AssertionError
  else do c <- global_is_config fuel stmt ;; ret (mk b c).

(** The body of the loop over the key leaves in [value_constructors], for
    constructor number [i]. *)
Definition add_key (fuel : nat) (g : t) (i : nat) (constructor : JavaMethod.t)
    (key : option ref) : M JavaMethod.t :=
  do k <- deref_opt key ;;
  do types <- get_types fuel key (MethodGenerator.ctx (base g)) ;;
  let '(confm, primitive) := types in
  do key_arg <- as_str (arg k) ;;
  let javadoc := Py.concat ["@param "; key_arg; "Value Key argument of child."] in
  let '(param_type, setValue) :=
    match i with
    | O => (confm, Py.concat [key_arg; ".setValue("; key_arg; "Value);"])
    | S O => ("String",
              Py.concat [key_arg; ".setValue("; "new "; confm; "("; key_arg; "Value));"])
    | S (S _) => (primitive,
              Py.concat [key_arg; ".setValue("; "new "; confm; "("; key_arg; "Value));"])
    end in
  do ns <- MethodGenerator.root_namespace (base g) (Some key_arg) ;;
  let newLeaf := Py.concat ["Leaf "; key_arg; " = new Leaf"; ns] in
  let insertChild := Py.concat ["insertChild("; key_arg; ", childrenNames());"] in
  let constructor := JavaMethod.add_javadoc javadoc constructor in
  let constructor := JavaMethod.add_parameter param_type (key_arg +:+ "Value") constructor in
  let constructor := JavaMethod.add_line newLeaf constructor in
  let constructor := JavaMethod.add_line setValue constructor in
  let constructor := JavaMethod.add_line insertChild constructor in
  ret constructor.

(** [for key in key_stmts], threading the constructor under construction. *)
Fixpoint add_keys (fuel : nat) (g : t) (i : nat) (constructor : JavaMethod.t)
    (key_stmts : list (option ref)) : M JavaMethod.t :=
  match key_stmts with
  | [] => ret constructor
  | key :: rest =>
      do constructor <- add_key fuel g i constructor key ;;
      add_keys fuel g i constructor rest
  end.

(** One round of the loop that creates the constructors. *)
Definition value_constructor (fuel : nat) (g : t) (javadoc2 : list string)
    (key_stmts : list (option ref)) (i : nat) : M JavaMethod.t :=
  do constructor <- MethodGenerator.constructor_template (base g) ;;
  let javadoc1 :=
    Py.concat ["Constructor for an initialized "; MethodGenerator.n (base g);
               " object,"] in
  let constructor := JavaMethod.add_javadoc javadoc1 constructor in
  let constructor := JavaMethod.add_javadoc (default "" (javadoc2 !! i)) constructor in
  let constructor := JavaMethod.add_exception "JNCException" constructor in
  do constructor <- add_keys fuel g i constructor key_stmts ;;
  MethodGenerator.fix_imports (base g) constructor.

(** [filter(lambda k: k.arg != 'string', key_stmts)]: the test looks at the
    argument of the key leaf, that is, at its name. *)
Definition not_named_string (key : option ref) : M bool :=
  do k <- deref_opt key ;; ret (negb (bool_decide (arg k = Some "string"))).

(** [value_constructors()]: the constructors that take the keys. *)
Definition value_constructors (fuel : nat) (g : t) : M (list JavaMethod.t) :=
  if negb (is_config g) then raise AssertionError
  else
    do s <- deref (MethodGenerator.stmt (base g)) ;;
    do key <- search_one s "key" None ;;
    do k <- deref_opt key ;;
    match arg k with
    | None => raise AttributeError
    | Some key_arg =>
        let keys := Py.split " "%char key_arg in
        do key_stmts <- for_each (fun k => search_one s "leaf" (Some k)) keys ;;
        do tests <- for_each not_named_string key_stmts ;;
        let non_string := existsb id tests in
        let number_of_value_constructors := if non_string then 3 else 2 in
        let javadoc2 :=
          [""; "with Strings for the keys."] ++
          (if non_string then ["with primitive Java types."] else []) in
        for_each (value_constructor fuel g javadoc2 key_stmts)
                 (seq 0 number_of_value_constructors)
    end.

(** [constructors()]: the empty constructor and, for configuration data
    or a list with a key, the value constructors. *)
Definition constructors (fuel : nat) (g : t) : M (list JavaMethod.t) :=
  do e <- MethodGenerator.empty_constructor (base g) ;;
  do s <- deref (MethodGenerator.stmt (base g)) ;;
  do key <- search_one s "key" None ;;
  if is_config g || bool_decide (key <> None) then
    do vs <- value_constructors fuel g ;; ret ([e] ++ vs)
  else ret [e].

End ListMethodGenerator.

(** [MethodGenerator(stmt, ctx)]: the generator [self.gen] chosen from the
    keyword of the statement. *)
Inductive generator : Type :=
  | TypedefGen (g : TypedefMethodGenerator.t)
  | ContainerGen (g : MethodGenerator.t)
  | ListGen (g : ListMethodGenerator.t).

Definition new_MethodGenerator (fuel : nat) (stmt : ref) (ctx : option Context)
    : M generator :=
  do b <- MethodGenerator.init stmt ctx ;;
  if MethodGenerator.is_list b then
    do g <- ListMethodGenerator.init fuel stmt ctx ;; ret (ListGen g)
  else if MethodGenerator.is_container b then
    do g <- ContainerMethodGenerator.init stmt ctx ;; ret (ContainerGen g)
  else
    do g <- TypedefMethodGenerator.init stmt ctx ;; ret (TypedefGen g).

(** [MethodGenerator.constructors()] and [MethodGenerator.checker()], which
    delegate to [self.gen]; [checker] is [None] for a container or a list. *)
Definition gen_constructors (fuel : nat) (g : generator) : M (list JavaMethod.t) :=
  match g with
  | TypedefGen g => TypedefMethodGenerator.constructors fuel g
  | ContainerGen g => ContainerMethodGenerator.constructors g
  | ListGen g => ListMethodGenerator.constructors fuel g
  end.

Definition gen_checker (g : generator) : M (option (list JavaMethod.t)) :=
  match g with
  | TypedefGen g => do c <- TypedefMethodGenerator.checker g ;; ret (Some c)
  | _ => ret None
  end.

(** ** Code templates for leaf and leaf-list children

    The templates read [stmt.keyword] and [stmt.arg]; they are given here
    as [kw] and [a]. *)

Section Templates.
Import Py.

(** [access_methods_comment(stmt, optional)]. *)
Definition access_methods_comment (kw a : string) (optional : bool) : string :=
  let opt := if optional then "optional " else "" in
  concat ["    /**"; nl;
          "     * -------------------------------------------------------"; nl;
          "     * Access methods for "; opt; kw; " child: "; dq; a; dq; "."; nl;
          "     * -------------------------------------------------------"; nl;
          "     */"].

(** [get_value(stmt, ret_type)]. *)
Definition get_value (kw a ret_type : string) : string :=
  let name := capitalize_first a in
  concat ["    /**"; nl;
          "     * Return the value for child "; kw; " "; dq; a; dq; "."; nl;
          "     * @return The value of the "; kw; "."; nl;
          "     */"; nl;
          "    public "; ret_type; " get"; name; "Value()"; nl;
          "        throws JNCException {"; nl;
          "        return ("; ret_type; ")getValue("; dq; a; dq; ");"; nl;
          "    }"].

(** [set_value(stmt, nameID, spec1, spec2, argument, body)]. *)
Definition set_value (kw a nameID spec1 spec2 argument body : string) : string :=
  let spec1 :=
    if truthy argument
    then concat [spec1; "."; nl; "     * @param "; a; "Value The "; spec2; "value to set"]
    else spec1 in
  concat ["    /**"; nl;
          "     * Sets the value for child "; kw; " "; dq; a; dq; spec1; "."; nl;
          "     */"; nl;
          "    public void set"; nameID; "Value("; argument; ")"; nl;
          "        throws JNCException {"; nl;
          "        "; body; nl;
          "    }"].

(** [set_leaf_value(stmt, prefix, arg_type, confm_type)]. *)
Definition set_leaf_value (kw a prefix arg_type confm_type : string) : string :=
  let name := capitalize_first a in
  let MAX_COLS : Z :=
    (80 - Z.of_nat (String.length
       (concat ["     * Sets the value for child "; kw; " "; dq; a; dq; ",."])))%Z in
  let '(spec1, spec2) :=
    if bool_decide (arg_type = "String")
    then (", using a string value", "string representation of the ")
    else if bool_decide (arg_type = "") then ("", "")
    else (", using the java primitive value", "") in
  let spec1 :=
    if bool_decide (MAX_COLS < Z.of_nat (String.length spec1))%Z
    then concat [","; nl; "     * "; drop 2 spec1] else spec1 in
  let body :=
    if truthy prefix then
      concat [if bool_decide (kw = "leaf-list") then "setLeafListValue("
              else "setLeafValue(";
              prefix; ".NAMESPACE,"; nl;
              "            "; dq; a; dq; ","; nl;
              "            "; a; "Value,"; nl;
              "            childrenNames());"]
    else concat ["set"; name; "Value(new "; confm_type; "("; a; "Value));"] in
  let argument := concat [arg_type; " "; a; "Value"] in
  let '(argument, body) :=
    if bool_decide (arg_type = "")
    then ("", concat ["set"; name; "Value(new "; name; "());"])
    else (argument, body) in
  set_value kw a name spec1 spec2 argument body.

(** [unset_value(stmt)]. *)
Definition unset_value (kw a : string) : string :=
  concat ["    /**"; nl;
          "     * Unsets the value for child "; kw; " "; dq; a; dq; "."; nl;
          "     */"; nl;
          "    public void unset"; capitalize_first a; "Value()"; nl;
          "        throws JNCException {"; nl;
          "        delete("; dq; a; dq; ");"; nl;
          "    }"].

(** [add_value(stmt, prefix)]. *)
Definition add_value (kw a prefix : string) : string :=
  let '(name, value_type) :=
    if bool_decide (kw = "leaf-list") then ("Empty", "List") else ("", "") in
  let name := name +:+ capitalize_first a in
  concat ["    /**"; nl;
          "     * This method is used for creating a subtree filter."; nl;
          "     * The added "; dq; a; dq; " "; kw; " will not have a value."; nl;
          "     */"; nl;
          "    public void add"; name; "()"; nl;
          "        throws JNCException {"; nl;
          "        setLeaf"; value_type; "Value("; prefix; ".NAMESPACE,"; nl;
          "            "; dq; a; dq; ","; nl;
          "            null,"; nl;
          "            childrenNames());"; nl;
          "    }"].

(** [mark(stmt, op, arg_type='String')]: the method that marks a leaf or a
    leaf-list entry with an operation. *)
Definition mark (kw a op arg_type : string) : string :=
  let spec := op +:+ dq in
  let path := a in
  let '(spec, argument, path) :=
    if bool_decide (kw = "leaf-list") then
      (concat [spec; "."; nl; "     * @param "; a; "Value The value to mark";
               if bool_decide (arg_type = "String") then ", given as a String" else ""],
       concat [arg_type; " "; a; "Value"],
       concat [path; "[name='"; dq; " + "; a; "Value+"; dq; "']"])
    else (spec, "", path) in
  concat ["    /**"; nl;
          "     * Marks the "; dq; a; dq; " "; kw; " with operation "; dq; spec; "."; nl;
          "     */"; nl;
          "    public void mark"; capitalize_first a; capitalize_first op;
          "("; argument; ")"; nl;
          "        throws JNCException {"; nl;
          "        markLeaf"; capitalize_first op; "("; dq; path; dq; ");"; nl;
          "    }"].

(** [child_iterator(substmt)]. *)
Definition child_iterator (kw a : string) : string :=
  let iterator_type :=
    if bool_decide (kw = "leaf-list") then "LeafListValue" else "Children" in
  concat ["    /**"; nl;
          "     * Iterator method for the "; kw; " "; dq; a; dq; "."; nl;
          "     * @return An iterator for the "; kw; "."; nl;
          "     */"; nl;
          "    public Element"; iterator_type; "Iterator "; a; "Iterator() {"; nl;
          "        return new Element"; iterator_type; "Iterator(children, ";
          dq; a; dq; ");"; nl;
          "    }"].

(** [delete_stmt(stmt, args, string, keys)]. *)
Definition delete_stmt (kw a : string) (args : list (string * string))
    (string_ keys : bool) : string :=
  let spec1 :=
    match args with
    | [] => ""
    | _ =>
        if keys then
          concat [dq; ", with specified keys.";
                  if string_ then concat [nl; "     * The keys are specified as Strings"]
                  else ""]
        else if string_ then concat [nl; "     * The value is specified as a String"]
        else ""
    end in
  let step (acc : string * string * string) (p : string * string) :=
    let '(spec1, arguments, spec3) := acc in
    let '(arg_type, arg_name) := p in
    let arguments :=
      if string_ then concat [arguments; "String "; arg_name; ", "]
      else concat [arguments; arg_type; " "; arg_name; ", "] in
    if keys then
      (concat [spec1; nl; "     * @param "; arg_name; " Key argument of child."],
       arguments,
       concat [spec3; "["; arg_name; "='"; dq; " + "; arg_name; " + "; dq; "']"])
    else
      (concat [spec1; nl; "     * @param "; arg_name; " Child to be removed."],
       arguments,
       concat [spec3; "[name='"; dq; " + "; arg_name; " + "; dq; "']"]) in
  let '(spec1, arguments, spec3) := foldl step (spec1, "", "") args in
  let spec2 :=
    match args with
    | [] => concat ["this."; a; " = null;"; nl; "        "]
    | _ => ""
    end in
  concat ["    /**"; nl;
          "     * Deletes "; kw; " entry "; dq; a; spec1; dq; nl;
          "     */"; nl;
          "    public void delete"; capitalize_first a; "("; drop_last 2 arguments; ")"; nl;
          "        throws JNCException {"; nl;
          "        "; spec2; "String path = "; dq; a; spec3; dq; ";"; nl;
          "        delete(path);"; nl;
          "    }"].

End Templates.

(** ** The class generator *)

Module JavaClass.

(** A member handed to [append_access_method]: a code string, a
    [JavaMethod], or a list of methods (the result of [checker]). *)
Inductive member : Type :=
  | Code (s : string)
  | Method (m : JavaMethod.t)
  | Methods (l : list JavaMethod.t).

(** The class under construction, as far as the modelled branches of the
    class generator use it: the constructor arguments and
    [access_methods], an ordered dictionary from a child name to the list
    of its access methods. *)
Record t := mk {
  filename : string;
  package : option string;
  description : string;
  source : option string;
  superclass : option string;
  access_methods : list (option string * list member) }.

(** [append_access_method(key, access_method)]. *)
Fixpoint append_to (key : option string) (x : member)
    (d : list (option string * list member)) : list (option string * list member) :=
  match d with
  | [] => [(key, [x])]
  | (k, l) :: rest =>
      if decide (k = key) then (k, l ++ [x]) :: rest
      else (k, l) :: append_to key x rest
  end.

Definition append_access_method (key : option string) (x : member) (c : t) : t :=
  mk (filename c) (package c) (description c) (source c) (superclass c)
     (append_to key x (access_methods c)).

(** [access_methods.get(key)], the empty list for a missing key. *)
Fixpoint get (key : option string) (d : list (option string * list member))
    : list member :=
  match d with
  | [] => []
  | (k, l) :: rest => if decide (k = key) then l else get key rest
  end.

End JavaClass.

Module ClassGenerator.

Record t := mk {
  stmt : ref;
  package : option string;
  src : option string;
  ctx : option Context;
  path : option string;
  ns : option string;
  prefix_name : option string;
  top_level : bool }.

End ClassGenerator.

(** [write_file(d, file_name, file_content, ctx)], as the record of the
    file in the world. *)
Definition write_file (d file_name file_content : string) : M unit :=
  fun w => Ret tt (mkWorld (store w) (outputted_warnings w) (augmented_modules w)
                           (stderr w) (stdout w)
                           (files w ++ [(d, file_name, file_content)])).

Section Generate.

(** The two parts of the class generator that are not modelled are taken
    as given: the branch of [generate_child] for list, container and
    typedef children (which generates the nested class), and what
    [generate_class] does for a statement that is not an augment (the walk
    over the children, the assembly of the class and [write_to_file]). *)
Variable generate_nested :
  ClassGenerator.t -> ref -> JavaClass.t -> M (list string * JavaClass.t).
Variable generate_members :
  ClassGenerator.t -> JavaClass.t -> M unit.

(** The operations [replace], [merge], [create], [delete], in the order
    [generate_child] adds their mark methods. *)
Definition mark_operations : list string := ["replace"; "merge"; "create"; "delete"].

(** [generate_child(sub)]: the access methods for the child [sub], added
    to the class of [self] under the name of the child; returns the field
    names to register and the class. *)
Definition generate_child (fuel : nat) (self : ClassGenerator.t)
    (java_class : JavaClass.t) (sub : ref) : M (list string * JavaClass.t) :=
  do s <- deref sub ;;
  let kw := keyword s in
  let add x c := JavaClass.append_access_method (arg s) (JavaClass.Code x) c in
  if Py.mem kw ["list"; "container"; "typedef"] then
    generate_nested self sub java_class
  else if Py.mem kw ["leaf"; "leaf-list"] then
    do type_stmt <- search_one s "type" None ;;
    do types <- get_types fuel type_stmt (ClassGenerator.ctx self) ;;
    let '(type_str1, type_str2) := types in
    let prefix := default "" (ClassGenerator.prefix_name self) in
    if bool_decide (kw = "leaf") then
      do p <- deref_opt (parent s) ;;
      do key <- search_one p "key" None ;;
      do is_key <-
        match key with
        | None => ret false
        | Some k =>
            do ks <- deref k ;;
            match arg ks with
            | None => raise AttributeError
            | Some key_arg =>
                ret match arg s with
                    | Some a => Py.mem a (Py.split " "%char key_arg)
                    | None => false
                    end
            end
        end ;;
      let optional := negb is_key in
      do a <- as_str (arg s) ;;
      let c := java_class in
      let c := add (access_methods_comment (if is_key then "key" else kw) a optional) c in
      let c := add (get_value kw a type_str1) c in
      let c := add (set_leaf_value kw a prefix type_str1 "") c in
      let c := add (set_leaf_value kw a "" "String" type_str1) c in
      let c := if negb (bool_decide (type_str2 = "String"))
               then add (set_leaf_value kw a "" type_str2 type_str1) c else c in
      let c := if optional then add (unset_value kw a) c else c in
      do prefix_name <- as_str (ClassGenerator.prefix_name self) ;;
      let c := add (add_value kw a prefix_name) c in
      let c := if optional
               then foldl (fun c op => add (mark kw a op "String") c) c mark_operations
               else c in
      ret ([], c)
    else
      do a <- as_str (arg s) ;;
      let c := java_class in
      let c := add (access_methods_comment kw a false) c in
      let c := add (child_iterator kw a) c in
      let c := add (set_leaf_value kw a prefix type_str1 "") c in
      let c := add (set_leaf_value kw a "" "String" type_str1) c in
      let c := if negb (bool_decide (type_str2 = "String"))
               then add (set_leaf_value kw a "" type_str2 type_str1) c else c in
      let c := add (delete_stmt kw a [(type_str1, a +:+ "Value")] false false) c in
      let c := add (delete_stmt kw a [(type_str1, a +:+ "Value")] true false) c in
      do prefix_name <- as_str (ClassGenerator.prefix_name self) ;;
      let c := add (add_value kw a prefix_name) c in
      let c := add (mark kw a "replace" type_str1) c in
      let c := add (mark kw a "replace" "String") c in
      let c := add (mark kw a "merge" type_str1) c in
      let c := add (mark kw a "merge" "String") c in
      let c := add (mark kw a "create" type_str1) c in
      let c := add (mark kw a "create" "String") c in
      let c := add (mark kw a "delete" type_str1) c in
      let c := add (mark kw a "delete" "String") c in
      ret ([], c)
  else ret ([], java_class).

(** [generate_class()]: for an augment statement no class is generated;
    the top statement of the target is entered in [augmented_modules], or
    a warning is printed when the statement has no [i_target_node]. *)
Definition generate_class (self : ClassGenerator.t) : M unit :=
  do s <- deref (ClassGenerator.stmt self) ;;
  let filename := fst (extract_names (arg s)) in
  do path <- as_str (ClassGenerator.path self) ;;
  do a <- as_str (arg s) ;;
  do ns <- as_str (ClassGenerator.ns self) ;;
  let java_class :=
    JavaClass.mk filename (ClassGenerator.package self)
      (Py.concat ["This class represents a "; Py.dq; path; a; Py.dq; " element";
                  Py.nl; " * from the namespace "; ns])
      (ClassGenerator.src self) (Some "YangElement") [] in
  if bool_decide (keyword s = "augment") then
    match i_target_node s with
    | Absent =>
        let warn_msg := "Target missing from augment statement" in
        print_warning warn_msg warn_msg (ClassGenerator.ctx self)
    | Present target =>
        do t <- deref_opt target ;;
        do tt <- deref_opt (top t) ;;
        match top t with
        | Some m => set_augmented_module (arg tt) m
        | None => raise AttributeError
        end
    end
  else generate_members self java_class.

End Generate.

(** ** OrderedSet *)

Module OrderedSet.
Section Defs.
Context {K : Type} `{Countable K}.

(** A pointer into the doubly linked list: to the sentinel [self.end] or
    to the cell [self.map[k]]. *)
Inductive link : Type :=
  | End
  | Node (k : K).

(** A cell [[item, prev, next]]. *)
Record cell := mkCell {
  ITEM : K;
  PREV : link;
  NEXT : link }.

(** The set: the sentinel [[None, prev, next]] and the dictionary from an
    item to its cell. *)
Record t := mk {
  end_PREV : link;
  end_NEXT : link;
  map : gmap K cell }.

(** [OrderedSet()]. *)
Definition empty : t := mk End End ∅.

(** [len(self)] and [item in self]. *)
Definition len (s : t) : nat := size (map s).

Definition contains (item : K) (s : t) : bool :=
  bool_decide (is_Some (map s !! item)).

(** [p[NEXT] = v] and [p[PREV] = v] for the object [p] points to. *)
Definition set_NEXT (p v : link) (s : t) : t :=
  match p with
  | End => mk (end_PREV s) v (map s)
  | Node k =>
      mk (end_PREV s) (end_NEXT s)
         (alter (fun c => mkCell (ITEM c) (PREV c) v) k (map s))
  end.

Definition set_PREV (p v : link) (s : t) : t :=
  match p with
  | End => mk v (end_NEXT s) (map s)
  | Node k =>
      mk (end_PREV s) (end_NEXT s)
         (alter (fun c => mkCell (ITEM c) v (NEXT c)) k (map s))
  end.

(** [add(item)]: link a new cell in before the sentinel. *)
Definition add (item : K) (s : t) : t :=
  if contains item s then s
  else
    let s := mk (end_PREV s) (end_NEXT s)
                (<[item := mkCell item (end_PREV s) End]> (map s)) in
    let s := set_NEXT (end_PREV s) (Node item) s in
    mk (Node item) (end_NEXT s) (map s).

(** [add_first(item)]: link a new cell in after the sentinel. *)
Definition add_first (item : K) (s : t) : t :=
  if contains item s then s
  else
    let s := mk (end_PREV s) (end_NEXT s)
                (<[item := mkCell item End (end_NEXT s)]> (map s)) in
    let s := set_PREV (end_NEXT s) (Node item) s in
    mk (end_PREV s) (Node item) (map s).

(** [discard(item)]: unlink the cell of [item]. *)
Definition discard (item : K) (s : t) : t :=
  match map s !! item with
  | None => s
  | Some c =>
      let s := mk (end_PREV s) (end_NEXT s) (delete item (map s)) in
      let s := set_NEXT (PREV c) (NEXT c) s in
      set_PREV (NEXT c) (PREV c) s
  end.

(** The loop of [_iterate(NEXT)] from the cell [curr]: yield the item and
    follow the link until the sentinel.  [None] when the fuel runs out or a
    link names no cell. *)
Fixpoint iterate_NEXT (fuel : nat) (s : t) (curr : link) : option (list K) :=
  match curr with
  | End => Some []
  | Node k =>
      match fuel with
      | O => None
      | S fuel' =>
          match map s !! k with
          | None => None
          | Some c => (fun l => ITEM c :: l) <$> iterate_NEXT fuel' s (NEXT c)
          end
      end
  end.

(** [list(self)], by [__iter__]; a walk over the cells needs no more steps
    than there are cells. *)
Definition to_list (s : t) : option (list K) :=
  iterate_NEXT (len s) s (end_NEXT s).

(** The set after a sequence of [add] calls. *)
Definition add_all (xs : list K) (s : t) : t := foldl (fun s x => add x s) s xs.

(** The invariant of the linked list: the cells of [l] are chained from
    [prev] in this order, each pointing back to its predecessor and on to
    its successor, the last one to the sentinel. *)
Definition head_link (l : list K) : link :=
  match l with
  | [] => End
  | k :: _ => Node k
  end.

Fixpoint last_link (prev : link) (l : list K) : link :=
  match l with
  | [] => prev
  | k :: r => last_link (Node k) r
  end.

Fixpoint chain (m : gmap K cell) (prev : link) (l : list K) : Prop :=
  match l with
  | [] => True
  | k :: r => m !! k = Some (mkCell k prev (head_link r)) ∧ chain m (Node k) r
  end.

(** [s] holds exactly the items of [l], linked in this order. *)
Definition represents (s : t) (l : list K) : Prop :=
  NoDup l ∧
  (∀ k, is_Some (map s !! k) ↔ k ∈ l) ∧
  end_NEXT s = head_link l ∧
  end_PREV s = last_link End l ∧
  chain (map s) End l.

(** The position of the first occurrence of [x] in [xs] ([length xs] when
    there is none). *)
Fixpoint first_index (x : K) (xs : list K) : nat :=
  match xs with
  | [] => 0
  | y :: r => if decide (y = x) then 0 else S (first_index x r)
  end.

(** The distinct values of [xs], each at the place of its first
    occurrence. *)
Fixpoint first_occurrences (xs : list K) : list K :=
  match xs with
  | [] => []
  | x :: r => x :: filter (fun y => y ≠ x) (first_occurrences r)
  end.

(** The loop of [_iterate(PREV)]: the same walk along the [PREV] links. *)
Fixpoint iterate_PREV (fuel : nat) (s : t) (curr : link) : option (list K) :=
  match curr with
  | End => Some []
  | Node k =>
      match fuel with
      | O => None
      | S fuel' =>
          match map s !! k with
          | None => None
          | Some c => (fun l => ITEM c :: l) <$> iterate_PREV fuel' s (PREV c)
          end
      end
  end.

(** [list(reversed(self))], by [__reversed__]. *)
Definition reversed (s : t) : option (list K) :=
  iterate_PREV (len s) s (end_PREV s).

(** [next(g)] for a generator [_iterate] that starts at [curr]: the first
    item, [None] when the generator stops at once ([StopIteration]). *)
Definition next_item (s : t) (curr : link) : option K :=
  match curr with
  | End => None
  | Node k => ITEM <$> map s !! k
  end.

(** What a call of [pop] does: it returns an item and leaves the set
    without it, or raises. *)
Inductive popped : Type :=
  | Popped (item : K) (s : t)
  | PopKeyError
  | PopStopIteration.

(** [pop(last=True)]. *)
Definition pop (last : bool) (s : t) : popped :=
  if bool_decide (len s = 0) then PopKeyError
  else
    match next_item s (if last then end_PREV s else end_NEXT s) with
    | None => PopStopIteration
    | Some item => Popped item (discard item s)
    end.

(** [clear()], the mixin method of [collections.MutableSet] that
    [__del__] calls: [pop] until [KeyError]. *)
Fixpoint clear (fuel : nat) (s : t) : option t :=
  match pop true s with
  | PopKeyError => Some s
  | PopStopIteration => None
  | Popped _ s' =>
      match fuel with
      | O => None
      | S fuel' => clear fuel' s'
      end
  end.

(** A call of one of the methods that change the set. *)
Inductive operation : Type :=
  | Add (item : K)
  | AddFirst (item : K)
  | Discard (item : K)
  | Pop (last : bool).

(** The set after the call; a [pop] that raises leaves it as it is. *)
Definition apply (o : operation) (s : t) : t :=
  match o with
  | Add item => add item s
  | AddFirst item => add_first item s
  | Discard item => discard item s
  | Pop last =>
      match pop last s with
      | Popped _ s' => s'
      | _ => s
      end
  end.

(** The same call on a plain list of distinct items. *)
Definition apply_list (o : operation) (l : list K) : list K :=
  match o with
  | Add item => if decide (item ∈ l) then l else l ++ [item]
  | AddFirst item => if decide (item ∈ l) then l else item :: l
  | Discard item => filter (fun y => y ≠ item) l
  | Pop true => take (length l - 1) l
  | Pop false => drop 1 l
  end.

(** A set as a program has it: a new set after a sequence of calls; and
    the list the same calls make of the empty list. *)
Definition built (ops : list operation) : t :=
  foldl (fun s o => apply o s) empty ops.

Definition built_list (ops : list operation) : list K :=
  foldl (fun l o => apply_list o l) [] ops.

(** A stretch of the linked list: the cells of [l] chained from [prev],
    the last one pointing on to [nxt]. *)
Definition next_or (l : list K) (nxt : link) : link :=
  match l with
  | [] => nxt
  | k :: _ => Node k
  end.

Fixpoint segment (m : gmap K cell) (prev : link) (l : list K) (nxt : link) : Prop :=
  match l with
  | [] => True
  | k :: r => m !! k = Some (mkCell k prev (next_or r nxt)) ∧ segment m (Node k) r nxt
  end.

End Defs.
Arguments link K : clear implicits.
Arguments cell K : clear implicits.
Arguments t K {_ _}.
Arguments popped K {_ _}.
Arguments operation K : clear implicits.
End OrderedSet.

(** ** Methods as items of a set *)

Module JavaValue.

(** [self == other], by [JavaValue.__eq__], for two methods: every
    attribute in [vars(self)] is compared with [!=] to the attribute of
    [other], the strings, the [None]s and the lists by value, [imports] as
    sets.  Both objects have the attributes of a [JavaMethod], so no
    [AttributeError] is raised. *)
Definition __eq__ (self other : JavaMethod.t) : bool :=
  bool_decide (JavaMethod.exact other = JavaMethod.exact self) &&
  bool_decide (JavaMethod.value other = JavaMethod.value self) &&
  bool_decide (JavaMethod.indent other = JavaMethod.indent self) &&
  bool_decide (JavaMethod.javadocs other = JavaMethod.javadocs self) &&
  bool_decide (JavaMethod.modifiers other = JavaMethod.modifiers self) &&
  bool_decide (JavaMethod.name other = JavaMethod.name self) &&
  bool_decide ((list_to_set (JavaMethod.imports other) : gset string) =
               list_to_set (JavaMethod.imports self)) &&
  bool_decide (JavaMethod.return_type other = JavaMethod.return_type self) &&
  bool_decide (JavaMethod.parameters other = JavaMethod.parameters self) &&
  bool_decide (JavaMethod.exceptions other = JavaMethod.exceptions self) &&
  bool_decide (JavaMethod.body other = JavaMethod.body self).

(** A method object is known by its address.  [JavaValue] defines
    [__eq__] and no [__hash__], so the hash of a method is the one of
    [object], computed from the address: the dictionary of an
    [OrderedSet] finds a method only under the very same object, and
    never calls [__eq__] on two different ones.  A set of methods is
    therefore an [OrderedSet.t address]. *)
Definition address : Type := nat.

(** The method objects of a program. *)
Definition heap : Type := gmap address JavaMethod.t.

(** [x == y] for the objects at the addresses [x] and [y]. *)
Definition equal (h : heap) (x y : address) : bool :=
  match h !! x, h !! y with
  | Some a, Some b => __eq__ a b
  | _, _ => false
  end.

(** [list(s)], each item as the method it is. *)
Definition values (h : heap) (s : OrderedSet.t address) : option (list JavaMethod.t) :=
  l ← OrderedSet.to_list s; mapM (fun x => h !! x) l.

End JavaValue.

(** ** Observations on generated members *)

(** A generated access method is a mark method when its code declares a
    method whose name starts with [mark]. *)
Definition is_mark_method (x : JavaClass.member) : bool :=
  match x with
  | JavaClass.Code code => Py.contains "    public void mark" code
  | JavaClass.Method m =>
      match JavaMethod.name m with
      | Some n => Py.startswith "mark" n
      | None => false
      end
  | JavaClass.Methods _ => false
  end.

(** The mark methods among the access methods of the child [a]. *)
Definition mark_methods_of (a : string) (c : JavaClass.t) : list JavaClass.member :=
  List.filter is_mark_method (JavaClass.get (Some a) (JavaClass.access_methods c)).

(** The mark methods of a leaf-list [a] with library type [type_str1]:
    for each operation one with a library-typed and one with a
    String-typed parameter. *)
Definition leaf_list_marks (a type_str1 : string) : list JavaClass.member :=
  flat_map (λ op, [JavaClass.Code (mark "leaf-list" a op type_str1);
                   JavaClass.Code (mark "leaf-list" a op "String")])
           mark_operations.

(** The other access methods of a leaf-list, in the order
    [generate_child] adds them. *)
Definition leaf_list_accessors (a prefix type_str1 type_str2 : string)
    : list JavaClass.member :=
  [JavaClass.Code (access_methods_comment "leaf-list" a false);
   JavaClass.Code (child_iterator "leaf-list" a);
   JavaClass.Code (set_leaf_value "leaf-list" a prefix type_str1 "");
   JavaClass.Code (set_leaf_value "leaf-list" a "" "String" type_str1)] ++
  (if bool_decide (type_str2 = "String") then []
   else [JavaClass.Code (set_leaf_value "leaf-list" a "" type_str2 type_str1)]) ++
  [JavaClass.Code (delete_stmt "leaf-list" a [(type_str1, a +:+ "Value")] false false);
   JavaClass.Code (delete_stmt "leaf-list" a [(type_str1, a +:+ "Value")] true false);
   JavaClass.Code (add_value "leaf-list" a prefix)].

(** The access methods of a leaf [a] before the mark methods, in the
    order [generate_child] adds them; [is_key] tells whether the leaf is
    a key of its parent. *)
Definition leaf_accessors (a prefix type_str1 type_str2 : string) (is_key : bool)
    : list JavaClass.member :=
  [JavaClass.Code (access_methods_comment (if is_key then "key" else "leaf") a
                                          (negb is_key));
   JavaClass.Code (get_value "leaf" a type_str1);
   JavaClass.Code (set_leaf_value "leaf" a prefix type_str1 "");
   JavaClass.Code (set_leaf_value "leaf" a "" "String" type_str1)] ++
  (if bool_decide (type_str2 = "String") then []
   else [JavaClass.Code (set_leaf_value "leaf" a "" type_str2 type_str1)]) ++
  (if is_key then [] else [JavaClass.Code (unset_value "leaf" a)]) ++
  [JavaClass.Code (add_value "leaf" a prefix)].

(** The mark methods of a leaf [a]: one for each operation. *)
Definition leaf_marks (a : string) : list JavaClass.member :=
  (λ op, JavaClass.Code (mark "leaf" a op "String")) <$> mark_operations.

(** The type names that [get_types] resolves from its table, without
    looking at [i_typedef]. *)
Definition table_types : list string :=
  ["string"; "boolean"] ++ ["enumeration"; "binary"] ++ ["bits"] ++
  ["instance-identifier"; "leafref"; "identityref"] ++ ["empty"] ++
  ["int8"; "int16"; "int32"; "int64"; "uint8"; "uint16"; "uint32"; "uint64"] ++
  ["decimal64"].

(** The library type and the primitive type of every type name in the
    table. *)
Definition builtin_types : list (string * (string * string)) :=
  [ ("string", ("com.tailf.jnc.YangString", "String"));
    ("boolean", ("com.tailf.jnc.YangBoolean", "Boolean"));
    ("enumeration", ("com.tailf.jnc.YangEnumeration", "String"));
    ("binary", ("com.tailf.jnc.YangBinary", "String"));
    ("bits", ("com.tailf.jnc.YangBits", "BigInteger"));
    ("instance-identifier", ("com.tailf.jnc.YangInstanceIdentifier", "Element"));
    ("leafref", ("com.tailf.jnc.YangLeafref", "Element"));
    ("identityref", ("com.tailf.jnc.YangIdentityref", "Element"));
    ("empty", ("com.tailf.jnc.YangEmpty", "boolean"));
    ("int8", ("com.tailf.jnc.YangInt8", "byte"));
    ("int16", ("com.tailf.jnc.YangInt16", "short"));
    ("int32", ("com.tailf.jnc.YangInt32", "int"));
    ("int64", ("com.tailf.jnc.YangInt64", "long"));
    ("uint8", ("com.tailf.jnc.YangUInt8", "short"));
    ("uint16", ("com.tailf.jnc.YangUInt16", "int"));
    ("uint32", ("com.tailf.jnc.YangUInt32", "long"));
    ("uint64", ("com.tailf.jnc.YangUInt64", "long"));
    ("decimal64", ("com.tailf.jnc.YangDecimal64", "BigDecimal")) ].

(** The key leaf [a] of the list [s] has the built-in type with the
    pair [ty]. *)
Definition key_of_type (st : gmap ref Statement) (s : Statement) (a : string)
    (ty : string * string) : Prop :=
  ∃ lr l tr t ta,
    search_one_in st "leaf" (Some a) (substmts s) = Some lr ∧
    st !! lr = Some l ∧
    search_one_in st "type" None (substmts l) = Some tr ∧
    st !! tr = Some t ∧
    arg t = Some ta ∧
    (ta, ty) ∈ builtin_types.

(** The pair that [get_types] gives for the built-in type [string]. *)
Definition string_pair : string * string := ("com.tailf.jnc.YangString", "String").

(** Two outcomes of a computation that only reads the store, started in
    the worlds [w] and [w']: the same result, each world unchanged. *)
Definition agree {A} (o o' : outcome A) (w w' : world) : Prop :=
  match o, o' with
  | Ret a v, Ret a' v' => a = a' ∧ v = w ∧ v' = w'
  | Exc e v, Exc e' v' => e = e' ∧ v = w ∧ v' = w'
  | OutOfFuel, OutOfFuel => True
  | BadRef, BadRef => True
  | _, _ => False
  end.

(** A computation that reads nothing but the store and changes nothing. *)
Definition reader {A} (m : M A) : Prop :=
  ∀ w w', store w = store w' → agree (m w) (m w') w w'.

(** No separator of the string is followed at once by another one. *)
Fixpoint no_adjacent_separators (s : string) : bool :=
  match s with
  | EmptyString => true
  | String c rest =>
      match rest with
      | EmptyString => true
      | String n _ =>
          negb (is_separator c && is_separator n) && no_adjacent_separators rest
      end
  end.

(** The string has no separator, except possibly as its last character. *)
Fixpoint separator_only_last (s : string) : bool :=
  match s with
  | EmptyString => true
  | String c rest =>
      match rest with
      | EmptyString => true
      | String _ _ => negb (is_separator c) && separator_only_last rest
      end
  end.

(** The name [make_valid_identifier] gives for the argument [a]. *)
Definition valid_identifier (a : string) : string :=
  if Py.mem (camelize (Some a)) java_reserved_words
  then "J" +:+ camelize (Some a) else camelize (Some a).

(** The statement as [make_valid_identifier] leaves it. *)
Definition sanitized (s : Statement) : Statement :=
  match arg s with
  | Some a =>
      if negb (Py.mem (keyword s) immutable_stmts) && Py.truthy a
      then with_arg s (Some (valid_identifier a)) else s
  | None => s
  end.

(** The statements [make_valid_identifiers] goes on to from [s]. *)
Definition children (s : Statement) : list ref :=
  substmts s ++
  match i_children s with
  | Present (Some l) => l
  | _ => []
  end.

(** Below [r] the store holds a statement graph of depth at most [fuel]:
    every reference names a statement, and no [i_children] is [None]. *)
Fixpoint tree_at (fuel : nat) (st : gmap ref Statement) (r : ref) : Prop :=
  match fuel with
  | O => False
  | S fuel' =>
      ∃ s, st !! r = Some s ∧ i_children s ≠ Present None ∧
           Forall (tree_at fuel' st) (children s)
  end.

(** Below [r] every statement already has the name
    [make_valid_identifier] gives it. *)
Fixpoint sanitized_at (fuel : nat) (st : gmap ref Statement) (r : ref) : Prop :=
  match fuel with
  | O => False
  | S fuel' =>
      ∃ s, st !! r = Some s ∧ sanitized s = s ∧ i_children s ≠ Present None ∧
           Forall (sanitized_at fuel' st) (children s)
  end.

(** No name that the sanitizer rewrites has two adjacent separators. *)
Definition names_without_adjacent_separators (st : gmap ref Statement) : Prop :=
  ∀ r s a, st !! r = Some s → Py.mem (keyword s) immutable_stmts = false →
           arg s = Some a → no_adjacent_separators a = true.

(** [st'] comes from [st] by sanitizing some of its statements. *)
Definition evolves (st st' : gmap ref Statement) : Prop :=
  ∀ r, match st !! r with
       | Some s => st' !! r = Some s ∨ st' !! r = Some (sanitized s)
       | None => st' !! r = None
       end.

(** Sanitizing any statement of [st] a second time changes nothing. *)
Definition settles (st : gmap ref Statement) : Prop :=
  ∀ r s, st !! r = Some s → sanitized (sanitized s) = sanitized s.

(** [tree_at] and [names_without_adjacent_separators] as tests. *)
Fixpoint tree_atb (fuel : nat) (st : gmap ref Statement) (r : ref) : bool :=
  match fuel with
  | O => false
  | S fuel' =>
      match st !! r with
      | None => false
      | Some s =>
          match i_children s with
          | Present None => false
          | _ => true
          end && forallb (tree_atb fuel' st) (children s)
      end
  end.

Definition clean_names (st : gmap ref Statement) : bool :=
  forallb (fun s =>
             Py.mem (keyword s) immutable_stmts ||
             match arg s with
             | Some a => no_adjacent_separators a
             | None => true
             end)
          (snd <$> map_to_list st).

(** The name of the statement is no Java reserved word, unless its
    keyword is one whose arguments the sanitizer leaves alone. *)
Definition safe (s : Statement) : Prop :=
  Py.mem (keyword s) immutable_stmts = true ∨
  ∀ a, arg s = Some a → Py.mem a java_reserved_words = false.

(** Below [r] every statement is [safe]. *)
Fixpoint safe_at (fuel : nat) (st : gmap ref Statement) (r : ref) : Prop :=
  match fuel with
  | O => False
  | S fuel' =>
      ∃ s, st !! r = Some s ∧ safe s ∧ Forall (safe_at fuel' st) (children s)
  end.

(** [st'] has the statements of [st], some of them with a name given by
    the sanitizer and otherwise as they were. *)
Definition renamed (st st' : gmap ref Statement) : Prop :=
  ∀ r, match st !! r with
       | Some s =>
           st' !! r = Some s ∨
           ∃ a, Py.mem (keyword s) immutable_stmts = false ∧
                st' !! r = Some (with_arg s (Some (valid_identifier a)))
       | None => st' !! r = None
       end.

(** The base package of [fix_imports]: the output directory without a
    leading [src/]. *)
Definition base_package (c : Context) : string :=
  if bool_decide (Py.take 4 (opts_directory c) = "src/")
  then Py.drop 4 (opts_directory c) else opts_directory c.

(** A name that [fix_imports] keeps as it is: it starts with one of the
    three prefixes. *)
Definition qualified (basepkg d : string) : bool :=
  Py.startswith "java.math" d || Py.startswith "com.tailf.jnc" d ||
  Py.startswith basepkg d.

(** The step of the loop of [fix_imports] that collects the result. *)
Definition keep_import (res : list string) (d : option string) : list string :=
  match d with
  | Some d => JavaMethod.set_add d res
  | None => res
  end.

(** The lines of the constructor of a container or list class in a module
    with the prefix class [root]. *)
Definition super_lines (root a : string) (top_level : bool) : list string :=
  ("super" +:+ Py.concat ["("; root; ".NAMESPACE, "; Py.dq; a; Py.dq; ");"]) ::
  (if top_level
   then ["setDefaultPrefix();"; Py.concat ["setPrefix("; root; ".PREFIX);"]]
   else []).

(** The cached lines of a method, if any, are the lines [as_list] would
    compute now. *)
Definition cache_current (m : JavaMethod.t) : Prop :=
  match JavaMethod.exact m with
  | None => True
  | Some e => ∃ n, JavaMethod.name m = Some n ∧ e = JavaMethod.render n m
  end.

(** The character [c] occurs in the string. *)
Fixpoint has_char (c : ascii) (s : string) : bool :=
  match s with
  | EmptyString => false
  | String a r => bool_decide (a = c) || has_char c r
  end.

(** The argument of the statement [r], as text (empty when there is no
    such statement or no argument). *)
Definition arg_text (st : gmap ref Statement) (r : ref) : string :=
  default "" (st !! r ≫= arg).

(** A line as [add_line] stores it in a method with the indentation of
    four spaces. *)
Definition body_line (line : string) : string := "    " +:+ "    " +:+ line.

(** A computation that leaves the statements as they are. *)
Definition keeps_store {A} (m : M A) : Prop :=
  ∀ w, match m w with
       | Ret _ w' | Exc _ w' => store w' = store w
       | OutOfFuel | BadRef => True
       end.

(** The world after [print_warning(key=key, ctx=c)] with the default
    message: the warning is printed and the key recorded when the key is
    new and a flag is set. *)
Definition warned (key : string) (c : Context) (w : world) : world :=
  if negb (Py.mem key (outputted_warnings w)) && (opts_debug c || opts_verbose c)
  then mkWorld (store w) (outputted_warnings w ++ [key]) (augmented_modules w)
               (stderr w ++ ["WARNING: " +:+ ("No support for type " +:+ Py.dq +:+ key
                                              +:+ Py.dq +:+ ", defaulting to string.")])
               (stdout w) (files w)
  else w.

(** ** Example documents *)

Module Examples.

(** The world with the statements [l] at the references 0, 1, ... and
    nothing printed or written yet. *)
Definition world_of (l : list Statement) : world :=
  mkWorld (list_to_map (zip (seq 0 (List.length l)) l)) [] ∅ [] [] [].

Definition verbose : option Context := Some (mkContext false true "gen").
Definition quiet : option Context := Some (mkContext false false "gen").

(** A leaf [foo-bar-] in a container. *)
Definition trailing : world :=
  world_of
    [ mkStatement "container" (Some "top") [1] (Present (Some [1])) None None Absent Absent;
      mkStatement "leaf" (Some "foo-bar-") [] Absent (Some 0) (Some 0) Absent Absent ].

(** A leaf named [String] and a leaf named [for] in a container. *)
Definition java_names : world :=
  world_of
    [ mkStatement "container" (Some "top") [1; 2] (Present (Some [1; 2])) None None Absent Absent;
      mkStatement "leaf" (Some "String") [] Absent (Some 0) (Some 0) Absent Absent;
      mkStatement "leaf" (Some "for") [] Absent (Some 0) (Some 0) Absent Absent ].

(** A module [m] with prefix [m]:
    - the list [items] with the key leaf [name] of type [string] and the
      leaf-list [tags] of type [string];
    - the list [pairs] with the key leaves [a] of type [int32] and [b] of
      type [uint8];
    - the typedef [percent] of type [uint8], without restrictions;
    - the leaf [x] whose type [foo] is not built in and has no
      [i_typedef];
    - an augment without [i_target_node];
    - the feature [a--b], a substatement that is not among the
      [i_children] of the module. *)
Definition doc_statements : list Statement :=
  [ (* 0 *) mkStatement "module" (Some "m") [1; 2; 3; 9; 15; 17; 19; 20]
              (Present (Some [3; 9; 17])) None None Absent Absent;
    (* 1 *) mkStatement "namespace" (Some "urn:m") [] Absent (Some 0) (Some 0) Absent Absent;
    (* 2 *) mkStatement "prefix" (Some "m") [] Absent (Some 0) (Some 0) Absent Absent;
    (* 3 *) mkStatement "list" (Some "items") [4; 5; 7]
              (Present (Some [5; 7])) (Some 0) (Some 0) Absent Absent;
    (* 4 *) mkStatement "key" (Some "name") [] Absent (Some 3) (Some 0) Absent Absent;
    (* 5 *) mkStatement "leaf" (Some "name") [6] Absent (Some 3) (Some 0) Absent Absent;
    (* 6 *) mkStatement "type" (Some "string") [] Absent (Some 5) (Some 0) (Present None) Absent;
    (* 7 *) mkStatement "leaf-list" (Some "tags") [8] Absent (Some 3) (Some 0) Absent Absent;
    (* 8 *) mkStatement "type" (Some "string") [] Absent (Some 7) (Some 0) (Present None) Absent;
    (* 9 *) mkStatement "list" (Some "pairs") [10; 11; 13]
              (Present (Some [11; 13])) (Some 0) (Some 0) Absent Absent;
    (* 10 *) mkStatement "key" (Some "a b") [] Absent (Some 9) (Some 0) Absent Absent;
    (* 11 *) mkStatement "leaf" (Some "a") [12] Absent (Some 9) (Some 0) Absent Absent;
    (* 12 *) mkStatement "type" (Some "int32") [] Absent (Some 11) (Some 0) (Present None) Absent;
    (* 13 *) mkStatement "leaf" (Some "b") [14] Absent (Some 9) (Some 0) Absent Absent;
    (* 14 *) mkStatement "type" (Some "uint8") [] Absent (Some 13) (Some 0) (Present None) Absent;
    (* 15 *) mkStatement "typedef" (Some "percent") [16] Absent (Some 0) (Some 0) Absent Absent;
    (* 16 *) mkStatement "type" (Some "uint8") [] Absent (Some 15) (Some 0) (Present None) Absent;
    (* 17 *) mkStatement "leaf" (Some "x") [18] Absent (Some 0) (Some 0) Absent Absent;
    (* 18 *) mkStatement "type" (Some "foo") [] Absent (Some 17) (Some 0) Absent Absent;
    (* 19 *) mkStatement "augment" (Some "/other:thing") [] Absent (Some 0) (Some 0) Absent Absent;
    (* 20 *) mkStatement "feature" (Some "a--b") [] Absent (Some 0) (Some 0) Absent Absent ].

Definition doc : world := world_of doc_statements.

(** A module [m] with prefix [m]:
    - the typedef [percent] of type [uint8] and the typedef [share] of
      type [percent];
    - the leaf [x] of type [share] and the leaf [u] of type [union];
    - the container [box] with the leaf [d] of type [string] and the
      container [in-box] with the leaf [e] of type [percent];
    - the list [log], which is not configuration data, with the key leaf
      [id] of type [uint32]. *)
Definition typedefs_statements : list Statement :=
  [ (* 0 *) mkStatement "module" (Some "m") [1; 2; 3; 5; 7; 9; 11; 18]
              (Present (Some [7; 9; 11; 18])) None None Absent Absent;
    (* 1 *) mkStatement "namespace" (Some "urn:m") [] Absent (Some 0) (Some 0) Absent Absent;
    (* 2 *) mkStatement "prefix" (Some "m") [] Absent (Some 0) (Some 0) Absent Absent;
    (* 3 *) mkStatement "typedef" (Some "percent") [4] Absent (Some 0) (Some 0) Absent Absent;
    (* 4 *) mkStatement "type" (Some "uint8") [] Absent (Some 3) (Some 0) (Present None) Absent;
    (* 5 *) mkStatement "typedef" (Some "share") [6] Absent (Some 0) (Some 0) Absent Absent;
    (* 6 *) mkStatement "type" (Some "percent") [] Absent (Some 5) (Some 0)
              (Present (Some 3)) Absent;
    (* 7 *) mkStatement "leaf" (Some "x") [8] Absent (Some 0) (Some 0) Absent Absent;
    (* 8 *) mkStatement "type" (Some "share") [] Absent (Some 7) (Some 0)
              (Present (Some 5)) Absent;
    (* 9 *) mkStatement "leaf" (Some "u") [10] Absent (Some 0) (Some 0) Absent Absent;
    (* 10 *) mkStatement "type" (Some "union") [] Absent (Some 9) (Some 0)
               (Present None) Absent;
    (* 11 *) mkStatement "container" (Some "box") [12; 14]
               (Present (Some [12; 14])) (Some 0) (Some 0) Absent Absent;
    (* 12 *) mkStatement "leaf" (Some "d") [13] Absent (Some 11) (Some 0) Absent Absent;
    (* 13 *) mkStatement "type" (Some "string") [] Absent (Some 12) (Some 0)
               (Present None) Absent;
    (* 14 *) mkStatement "container" (Some "in-box") [15]
               (Present (Some [15])) (Some 11) (Some 0) Absent Absent;
    (* 15 *) mkStatement "leaf" (Some "e") [16] Absent (Some 14) (Some 0) Absent Absent;
    (* 16 *) mkStatement "type" (Some "percent") [] Absent (Some 15) (Some 0)
               (Present (Some 3)) Absent;
    (* 17 *) mkStatement "config" (Some "false") [] Absent (Some 18) (Some 0) Absent Absent;
    (* 18 *) mkStatement "list" (Some "log") [17; 19; 20]
               (Present (Some [20])) (Some 0) (Some 0) Absent Absent;
    (* 19 *) mkStatement "key" (Some "id") [] Absent (Some 18) (Some 0) Absent Absent;
    (* 20 *) mkStatement "leaf" (Some "id") [21] Absent (Some 18) (Some 0) Absent Absent;
    (* 21 *) mkStatement "type" (Some "uint32") [] Absent (Some 20) (Some 0)
               (Present None) Absent ].

Definition typedefs : world := world_of typedefs_statements.

(** A submodule, whose prefix is a substatement of [belongs-to], with a
    container. *)
Definition submodule : world :=
  world_of
    [ mkStatement "submodule" (Some "sub") [1; 3] (Present (Some [3])) None None
        Absent Absent;
      mkStatement "belongs-to" (Some "m") [2] Absent (Some 0) (Some 0) Absent Absent;
      mkStatement "prefix" (Some "m") [] Absent (Some 1) (Some 0) Absent Absent;
      mkStatement "container" (Some "c") [] (Present (Some [])) (Some 0) (Some 0)
        Absent Absent ].

(** The class generator of a top-level statement of [doc], as
    [generate_classes] creates it. *)
Definition top_level_generator (stmt : ref) (ctx : option Context) : ClassGenerator.t :=
  ClassGenerator.mk stmt (Some "gen") (Some "m.yang") ctx
                    (Some "") (Some "urn:m") (Some "M") true.

(** The class of [items], before any child has been generated. *)
Definition items_class : JavaClass.t :=
  JavaClass.mk "Items.java" (Some "gen") "" (Some "m.yang") (Some "YangElement") [].

(** A module [m] with prefix [m] and the typedef [id] of type [union], a
    type that [get_types] does not know and that has no typedef. *)
Definition union_typedef : world :=
  world_of
    [ (* 0 *) mkStatement "module" (Some "m") [1; 2; 3] (Present (Some [])) None None
                Absent Absent;
      (* 1 *) mkStatement "namespace" (Some "urn:m") [] Absent (Some 0) (Some 0)
                Absent Absent;
      (* 2 *) mkStatement "prefix" (Some "m") [] Absent (Some 0) (Some 0) Absent Absent;
      (* 3 *) mkStatement "typedef" (Some "id") [4] Absent (Some 0) (Some 0)
                Absent Absent;
      (* 4 *) mkStatement "type" (Some "union") [5; 6] Absent (Some 3) (Some 0)
                (Present None) Absent;
      (* 5 *) mkStatement "type" (Some "string") [] Absent (Some 4) (Some 0)
                (Present None) Absent;
      (* 6 *) mkStatement "type" (Some "uint8") [] Absent (Some 4) (Some 0)
                (Present None) Absent ].

(** A module [m] with two augment statements, and the module [other] with
    the container [thing]: the target of the first augment is [thing], the
    [i_target_node] of the second is [None]. *)
Definition augments : world :=
  world_of
    [ (* 0 *) mkStatement "module" (Some "m") [1; 2; 3; 4] (Present (Some [])) None None
                Absent Absent;
      (* 1 *) mkStatement "namespace" (Some "urn:m") [] Absent (Some 0) (Some 0)
                Absent Absent;
      (* 2 *) mkStatement "prefix" (Some "m") [] Absent (Some 0) (Some 0) Absent Absent;
      (* 3 *) mkStatement "augment" (Some "/o:thing") [] Absent (Some 0) (Some 0)
                Absent (Present (Some 8));
      (* 4 *) mkStatement "augment" (Some "/o:nothing") [] Absent (Some 0) (Some 0)
                Absent (Present None);
      (* 5 *) mkStatement "module" (Some "other") [6; 7; 8] (Present (Some [8])) None None
                Absent Absent;
      (* 6 *) mkStatement "namespace" (Some "urn:other") [] Absent (Some 5) (Some 5)
                Absent Absent;
      (* 7 *) mkStatement "prefix" (Some "o") [] Absent (Some 5) (Some 5) Absent Absent;
      (* 8 *) mkStatement "container" (Some "thing") [] (Present (Some [])) (Some 5)
                (Some 5) Absent Absent ].


End Examples.

(** * Properties *)

(** ** Strings *)

Lemma append_nil_r (s : string) : s +:+ "" = s.
Proof. induction s as [|c s IH]; [done | by rewrite <- IH at 2]. Qed.

Lemma append_cons (c : ascii) (s t : string) : String c s +:+ t = String c (s +:+ t).
Proof. done. Qed.

Lemma append_assoc (s t u : string) : (s +:+ t) +:+ u = s +:+ (t +:+ u).
Proof.
  induction s as [|c s IH]; [done |].
  by rewrite !append_cons, IH.
Qed.

Lemma capitalize_first_char (c : ascii) :
  capitalize_first (String c "") = String (Py.upper c) "".
Proof. done. Qed.

Lemma last_char_cons (c : ascii) (s : string) :
  s ≠ "" → Py.last_char (String c s) = Py.last_char s.
Proof. by destruct s. Qed.

Lemma last_char_snoc (s : string) (c : ascii) :
  Py.last_char (s +:+ String c "") = Some c.
Proof.
  induction s as [|d s IH]; [done |].
  rewrite append_cons, last_char_cons; [done |].
  by destruct s.
Qed.

Lemma upper_separator (c : ascii) : is_separator c = true → Py.upper c = c.
Proof.
  unfold is_separator. intros Hc.
  apply orb_true_iff in Hc as [Hc | Hc]; apply bool_decide_eq_true in Hc; by subst c.
Qed.

(** ** camelize *)

(** The loop over the [pairwise] iterator computes [camelize_chars]. *)
Lemma camelize_loop_chars (k : nat) :
  ∀ rest c acc, String.length rest ≤ k →
    camelize_loop (pairwise_from c rest) acc = acc +:+ camelize_chars (String c rest).
Proof.
  induction k as [k IH] using lt_wf_ind.
  intros [|n rest] c acc Hk; [done |].
  cbn [pairwise_from camelize_loop camelize_chars].
  destruct (is_separator c) eqn:Hc.
  - rewrite capitalize_first_char.
    destruct rest as [|m rest]; cbn [pairwise_from].
    + cbn [camelize_chars]. done.
    + cbn in Hk. rewrite (IH (String.length rest)); [| lia | done].
      by rewrite append_assoc.
  - cbn in Hk. rewrite (IH (String.length rest)); [| lia | done].
    by rewrite append_assoc.
Qed.

Lemma camelize_Some (s : string) : camelize (Some s) = camelize_chars s.
Proof.
  destruct s as [|c rest]; [done |].
  unfold camelize, pairwise.
  by rewrite (camelize_loop_chars (String.length rest)).
Qed.

Lemma camelize_chars_nonempty (s : string) : s ≠ "" → camelize_chars s ≠ "".
Proof.
  destruct s as [|c [|n rest]]; [done | done |].
  intros _. cbn [camelize_chars]. by destruct (is_separator c).
Qed.

Lemma camelize_chars_step (c n : ascii) (rest : string) :
  camelize_chars (String c (String n rest)) =
  if is_separator c then String (Py.upper n) (camelize_chars rest)
  else String c (camelize_chars (String n rest)).
Proof. done. Qed.

(** A separator at the end of the string is still there afterwards. *)
Lemma camelize_chars_trailing (k : nat) :
  ∀ s c, String.length s ≤ k → is_separator c = true →
    Py.last_char (camelize_chars (s +:+ String c "")) = Some c.
Proof.
  induction k as [k IH] using lt_wf_ind.
  intros [|a [|b s]] c Hk Hc; [done | |].
  - change (String a "" +:+ String c "") with (String a (String c "")).
    rewrite camelize_chars_step. destruct (is_separator a); [| done].
    by rewrite (upper_separator c).
  - change (String a (String b s) +:+ String c "")
      with (String a (String b (s +:+ String c ""))).
    rewrite camelize_chars_step. cbn in Hk.
    destruct (is_separator a).
    + rewrite last_char_cons.
      * apply (IH (String.length s)); [lia | done | done].
      * apply camelize_chars_nonempty. by destruct s.
    + rewrite last_char_cons.
      * change (String b (s +:+ String c "")) with (String b s +:+ String c "").
        apply (IH (String.length (String b s))); [cbn; lia | done | done].
      * by apply camelize_chars_nonempty.
Qed.

(** ** make_valid_identifier *)

Lemma with_arg_with_arg (s : Statement) (a b : option string) :
  with_arg (with_arg s a) b = with_arg s b.
Proof. done. Qed.

Lemma with_store_with_store (w : world) (st st' : gmap ref Statement) :
  with_store (with_store w st) st' = with_store w st'.
Proof. done. Qed.

Lemma with_store_id (w : world) : with_store w (store w) = w.
Proof. by destruct w. Qed.

Lemma set_arg_eq (w : world) (r : ref) (s : Statement) (a : option string) :
  store w !! r = Some s →
  set_arg r a w = Ret tt (with_store w (<[r := with_arg s a]> (store w))).
Proof. intros Hs. unfold set_arg. by rewrite Hs. Qed.

(** The argument [make_valid_identifier] leaves in a statement with
    keyword [kw] and argument [a]. *)
Lemma make_valid_identifier_rewrites (w : world) (r : ref) (s : Statement) (a : string) :
  store w !! r = Some s →
  Py.mem (keyword s) immutable_stmts = false →
  arg s = Some a → a ≠ "" →
  make_valid_identifier r w =
  Ret r (with_store w
           (<[r := with_arg s (Some (if Py.mem (camelize (Some a)) java_reserved_words
                                     then "J" +:+ camelize (Some a)
                                     else camelize (Some a)))]> (store w))).
Proof.
  intros Hs Hkw Ha Hne.
  unfold make_valid_identifier, bind, deref. rewrite Hs, Hkw, Ha.
  assert (Py.truthy a = true) as -> by (by destruct a).
  cbn [negb andb].
  rewrite (set_arg_eq w r s _ Hs).
  destruct (Py.mem (camelize (Some a)) java_reserved_words).
  - erewrite set_arg_eq by apply lookup_insert_eq.
    cbn [ret]. cbn [with_store store]. by rewrite insert_insert_eq.
  - done.
Qed.

Lemma make_valid_identifier_keeps (w : world) (r : ref) (s : Statement) :
  store w !! r = Some s →
  Py.mem (keyword s) immutable_stmts = true ∨ arg s = None ∨ arg s = Some "" →
  make_valid_identifier r w = Ret r w.
Proof.
  intros Hs Hc.
  unfold make_valid_identifier, bind, deref. rewrite Hs.
  destruct Hc as [-> | [-> | ->]]; [done | | ].
  - by rewrite andb_false_r.
  - by rewrite andb_false_r.
Qed.

(** C10: [camelize] keeps a hyphen or dot that ends the string (only a
    separator with a successor is dropped), so the name that
    [make_valid_identifier] leaves in a statement can end with a
    separator; and [camelize(None)] is the empty string. *)
Theorem camelize_keeps_trailing_separator (s : string) (c : ascii) :
  is_separator c = true →
  Py.last_char (camelize (Some (s +:+ String c ""))) = Some c ∧
  (∀ (w : world) (r : ref) (st : Statement),
     store w !! r = Some st →
     Py.mem (keyword st) immutable_stmts = false →
     arg st = Some (s +:+ String c "") →
     ∃ w' a', make_valid_identifier r w = Ret r w' ∧
              arg <$> store w' !! r = Some (Some a') ∧
              Py.last_char a' = Some c) ∧
  camelize None = "".
Proof.
  intros Hc.
  assert (Py.last_char (camelize (Some (s +:+ String c ""))) = Some c) as Hlast.
  { rewrite camelize_Some. by apply (camelize_chars_trailing (String.length s)). }
  split; [done |]. split; [| done].
  intros w r st Hst Hkw Ha.
  eexists _, _. split.
  - apply (make_valid_identifier_rewrites w r st _ Hst Hkw Ha). by destruct s.
  - cbn [with_store store]. rewrite lookup_insert_eq. split; [done |].
    destruct (Py.mem _ java_reserved_words); [| done].
    change ("J" +:+ ?x) with (String "J" x).
    rewrite last_char_cons; [done |].
    rewrite camelize_Some. apply camelize_chars_nonempty. by destruct s.
Qed.

Lemma camelize_keeps_trailing_separator_witness :
  is_separator "-" = true ∧
  Py.last_char (camelize (Some "foo-bar-")) = Some "-"%char ∧
  (∃ w' a', make_valid_identifier 1 Examples.trailing = Ret 1 w' ∧
            arg <$> store w' !! 1 = Some (Some a') ∧
            Py.last_char a' = Some "-"%char) ∧
  camelize None = "".
Proof.
  destruct (camelize_keeps_trailing_separator "foo-bar" "-" eq_refl) as (H1 & H2 & H3).
  split; [reflexivity |]. split; [exact H1 |]. split; [| exact H3].
  eapply (H2 Examples.trailing 1); reflexivity.
Defined.

(** C6, as stated, fails on a leaf named [String]: the name is a java.lang
    class name, and [make_valid_identifier] leaves it without the marker. *)
Lemma make_valid_identifier_leaves_java_lang_name :
  Py.mem (camelize (Some "String")) java_lang = true ∧
  ∃ w', make_valid_identifier 1 Examples.java_names = Ret 1 w' ∧
        arg <$> store w' !! 1 = Some (Some "String") ∧
        "String" ≠ "J" +:+ "String".
Proof.
  split; [reflexivity |].
  eexists. split; [vm_compute; reflexivity |].
  split; [reflexivity | discriminate].
Qed.

Lemma java_lang_not_reserved (c : string) :
  Py.mem c java_lang = true → Py.mem c java_reserved_words = false.
Proof.
  unfold Py.mem. intros Hc%bool_decide_eq_true.
  unfold java_lang in Hc.
  repeat (apply elem_of_cons in Hc as [-> | Hc]; [reflexivity |]).
  by apply elem_of_nil in Hc.
Qed.

(** C6, amended: for a statement whose keyword is not immutable and whose
    argument is not empty, [make_valid_identifier] prepends [J] to the
    camelized name exactly when that name is an entry of
    [java_reserved_words]; a name that is only a java.lang class name is
    left unmarked.  The names [const] and [goto], which the table lists
    with an asterisk, are left out. *)
Theorem make_valid_identifier_marks_reserved_words
    (w : world) (r : ref) (st : Statement) (a : string) :
  store w !! r = Some st →
  Py.mem (keyword st) immutable_stmts = false →
  arg st = Some a → a ≠ "" →
  Py.mem (camelize (Some a)) ["const"; "goto"; "const*"; "goto*"] = false →
  ∃ w', make_valid_identifier r w = Ret r w' ∧
        arg <$> store w' !! r =
          Some (Some (if Py.mem (camelize (Some a)) java_reserved_words
                      then "J" +:+ camelize (Some a) else camelize (Some a))) ∧
        (Py.mem (camelize (Some a)) java_lang = true →
         arg <$> store w' !! r = Some (Some (camelize (Some a)))).
Proof.
  intros Hst Hkw Ha Hne _.
  eexists. split; [by apply (make_valid_identifier_rewrites w r st a) |].
  cbn [with_store store]. rewrite lookup_insert_eq. split; [done |].
  intros Hl. by rewrite (java_lang_not_reserved _ Hl).
Qed.

Lemma make_valid_identifier_marks_reserved_words_witness :
  ∃ w', make_valid_identifier 2 Examples.java_names = Ret 2 w' ∧
        arg <$> store w' !! 2 = Some (Some "Jfor").
Proof.
  destruct (make_valid_identifier_marks_reserved_words Examples.java_names 2
              (mkStatement "leaf" (Some "for") [] Absent (Some 0) (Some 0) Absent Absent)
              "for" eq_refl eq_refl eq_refl ltac:(discriminate) eq_refl)
    as (w' & Hrun & Harg & _).
  exists w'. split; [exact Hrun | exact Harg].
Defined.

(** ** OrderedSet *)

Section OrderedSet_properties.
Context {K : Type} `{Countable K}.
Import OrderedSet.

Implicit Types (s : OrderedSet.t K) (l xs : list K) (m : gmap K (cell K)).

Lemma represents_empty : represents (empty (K:=K)) [].
Proof.
  unfold represents, empty; cbn.
  split_and!; try done; [constructor |].
  intros k. rewrite lookup_empty. split; [by intros [? ?] | by intros ?%elem_of_nil].
Qed.

Lemma represents_contains s l (x : K) :
  represents s l → contains x s = bool_decide (x ∈ l).
Proof.
  intros (_ & Hdom & _). unfold contains.
  apply bool_decide_ext, Hdom.
Qed.

(** C9 rests on the guard of [add_first]; [add] has the same guard. *)
Lemma add_present s (x : K) : contains x s = true → add x s = s.
Proof. intros Hx. unfold add. by rewrite Hx. Qed.

Lemma last_link_node (k : K) l : ∃ p, last_link (Node k) l = Node p ∧ p ∈ k :: l.
Proof.
  revert k. induction l as [|k' l IH]; intros k; cbn.
  - exists k. split; [done | left].
  - destruct (IH k') as (p & -> & Hp). exists p. split; [done | by right].
Qed.

Lemma last_link_app prev l (x : K) : last_link prev (l ++ [x]) = Node x.
Proof. revert prev. induction l as [|k l IH]; intros prev; cbn; [done | apply IH]. Qed.

(** Linking a new cell in after the last cell of a chain. *)
Lemma chain_snoc l : ∀ (k : K) prev m (x p : K),
  x ∉ k :: l → NoDup (k :: l) →
  last_link (Node k) l = Node p →
  chain m prev (k :: l) →
  chain (alter (λ c, mkCell (ITEM c) (PREV c) (Node x)) p
               (<[x := mkCell x (Node p) End]> m))
        prev (k :: l ++ [x]).
Proof.
  induction l as [|k' l IH]; intros k prev m x p Hx Hnd Hp [Hk Hch].
  - cbn in Hp. injection Hp as <-. cbn.
    assert (k ≠ x) by (intros ->; apply Hx; left).
    split_and!; [| | done].
    + rewrite lookup_alter_eq, lookup_insert_ne by done. by rewrite Hk.
    + rewrite lookup_alter_ne by done. by rewrite lookup_insert_eq.
  - cbn in Hp.
    apply NoDup_cons in Hnd as [Hk' Hnd].
    assert (x ∉ k' :: l) as Hx' by (intros ?; apply Hx; by right).
    pose proof (IH k' (Node k) m x p Hx' Hnd Hp Hch) as IH'.
    split; [| exact IH'].
    destruct (last_link_node k' l) as (q & Hq & Hqin).
    rewrite Hp in Hq. injection Hq as <-.
    assert (k ≠ p) by (intros ->; by apply Hk').
    assert (k ≠ x) by (intros ->; apply Hx; left).
    rewrite lookup_alter_ne, lookup_insert_ne by done.
    exact Hk.
Qed.

(** [add] of a new item appends it. *)
Lemma represents_add s l (x : K) :
  represents s l → x ∉ l → represents (add x s) (l ++ [x]).
Proof.
  intros Hrep Hx.
  pose proof (represents_contains s l x Hrep) as Hc.
  rewrite bool_decide_eq_false_2 in Hc by done.
  destruct Hrep as (Hnd & Hdom & Hnext & Hprev & Hch).
  unfold add. rewrite Hc. cbn [end_PREV end_NEXT map].
  assert (NoDup (l ++ [x])) as Hnd'.
  { apply NoDup_app. split_and!; [done | | apply NoDup_singleton].
    intros y Hy ->%list_elem_of_singleton. done. }
  destruct l as [|k l].
  - cbn in Hnext, Hprev. rewrite Hprev.
    cbn [set_NEXT end_PREV end_NEXT map].
    split_and!; cbn [end_PREV end_NEXT map app head_link last_link chain]; try done.
    + intros k. rewrite lookup_insert_is_Some', Hdom.
      rewrite list_elem_of_singleton. split; [intros [->|?%elem_of_nil]; done | by left].
    + by rewrite lookup_insert_eq.
  - cbn in Hprev.
    destruct (last_link_node k l) as (p & Hp & Hpin).
    rewrite Hp in Hprev. rewrite Hprev. cbn [set_NEXT end_PREV end_NEXT map].
    split_and!; cbn [end_PREV end_NEXT map].
    + done.
    + intros k0. rewrite lookup_alter_is_Some, lookup_insert_is_Some', Hdom.
      rewrite elem_of_app, list_elem_of_singleton.
      split; [intros [-> | ?]; [by right | by left] | intros [? | ->]; [by right | by left]].
    + by rewrite Hnext.
    + change ((k :: l) ++ [x]) with (k :: (l ++ [x])). cbn.
      by rewrite last_link_app.
    + by apply chain_snoc.
Qed.

(** Iteration walks the chain. *)
Lemma iterate_chain l : ∀ s prev fuel,
  chain (map s) prev l → length l ≤ fuel →
  iterate_NEXT fuel s (head_link l) = Some l.
Proof.
  induction l as [|k l IH]; intros s prev fuel Hch Hf; [by destruct fuel |].
  destruct Hch as [Hk Hch]. cbn in Hf.
  destruct fuel as [|fuel]; [lia |].
  cbn [head_link iterate_NEXT]. rewrite Hk. cbn [ITEM NEXT].
  rewrite (IH s (Node k)); [done | done | lia].
Qed.

Lemma represents_len s l : represents s l → len s = length l.
Proof.
  intros (Hnd & Hdom & _). unfold len.
  rewrite <- size_dom, <- (size_list_to_set (C:=gset K) l) by done.
  f_equal. apply set_eq. intros k.
  by rewrite elem_of_dom, elem_of_list_to_set.
Qed.

Lemma represents_to_list s l : represents s l → to_list s = Some l.
Proof.
  intros Hrep. unfold to_list.
  rewrite (represents_len s l Hrep).
  destruct Hrep as (_ & _ & -> & _ & Hch).
  by apply (iterate_chain l s End).
Qed.

Lemma elem_of_first_occurrences xs (x : K) : x ∈ first_occurrences xs ↔ x ∈ xs.
Proof.
  induction xs as [|a xs IH]; cbn; [done |].
  rewrite !elem_of_cons, list_elem_of_filter, IH.
  destruct (decide (x = a)); intuition.
Qed.

Lemma NoDup_first_occurrences xs : NoDup (first_occurrences xs).
Proof.
  induction xs as [|a xs IH]; cbn; [constructor |].
  apply NoDup_cons. split.
  - rewrite list_elem_of_filter. by intros [? _].
  - by apply NoDup_filter.
Qed.

Lemma first_index_S (a x : K) xs : x ≠ a → first_index x (a :: xs) = S (first_index x xs).
Proof. intros Hx. cbn. by rewrite decide_False by (intros ->; done). Qed.

Lemma StronglySorted_weaken (R R' : K → K → Prop) l :
  (∀ x y, x ∈ l → y ∈ l → R x y → R' x y) →
  StronglySorted R l → StronglySorted R' l.
Proof.
  intros HR Hs. induction Hs as [|x l Hs IH Hall]; [constructor |].
  constructor.
  - apply IH. intros y z Hy Hz. apply HR; by right.
  - rewrite Forall_forall in Hall |- *. intros y Hy.
    apply HR; [left | by right | by apply Hall].
Qed.

Lemma StronglySorted_filter_keeps (R : K → K → Prop) (P : K → Prop)
    `{∀ x, Decision (P x)} l :
  StronglySorted R l → StronglySorted R (filter P l).
Proof.
  intros Hs. induction Hs as [|x l Hs IH Hall]; [constructor |].
  rewrite filter_cons. case_decide; [| done].
  constructor; [done |].
  rewrite Forall_forall in Hall |- *.
  intros y [_ Hy]%list_elem_of_filter. by apply Hall.
Qed.

(** [first_occurrences] lists the values by the place of their first
    occurrence. *)
Lemma first_occurrences_sorted xs :
  StronglySorted (λ x y, first_index x xs < first_index y xs) (first_occurrences xs).
Proof.
  induction xs as [|a xs IH]; cbn [first_occurrences]; [constructor |].
  constructor.
  - apply (StronglySorted_weaken (λ x y, first_index x xs < first_index y xs)).
    + intros x y [Hx _]%list_elem_of_filter [Hy _]%list_elem_of_filter Hlt.
      rewrite !first_index_S by done. lia.
    + by apply StronglySorted_filter_keeps.
  - apply Forall_forall. intros y [Hy _]%list_elem_of_filter.
    rewrite (first_index_S a y) by done. cbn. rewrite decide_True by done. lia.
Qed.

Lemma filter_not_in_snoc l0 (x : K) l :
  filter (λ y, y ∉ l0 ++ [x]) l = filter (λ y, y ∉ l0) (filter (λ y, y ≠ x) l).
Proof.
  rewrite list_filter_filter. apply list_filter_iff. intros y.
  rewrite elem_of_app, list_elem_of_singleton. intuition.
Qed.

Lemma filter_not_in_present l0 (x : K) l :
  x ∈ l0 → filter (λ y, y ∉ l0) l = filter (λ y, y ∉ l0) (filter (λ y, y ≠ x) l).
Proof.
  intros Hx. rewrite list_filter_filter. apply list_filter_iff. intros y.
  split; [| by intros [? _]]. intros Hy. split; [done | by intros ->].
Qed.

Lemma filter_not_in_nil l : filter (λ y : K, y ∉ []) l = l.
Proof.
  induction l as [|a l IH]; [done |].
  rewrite filter_cons, decide_True by (by intros ?%elem_of_nil).
  by rewrite IH.
Qed.

(** A sequence of [add] calls appends the new values, each where it first
    occurs. *)
Lemma represents_add_all xs : ∀ s l,
  represents s l →
  represents (add_all xs s) (l ++ filter (λ y, y ∉ l) (first_occurrences xs)).
Proof.
  induction xs as [|x xs IH]; intros s l Hrep.
  - cbn. by rewrite app_nil_r.
  - cbn [add_all foldl first_occurrences]. rewrite filter_cons.
    destruct (decide (x ∈ l)) as [Hx | Hx].
    + rewrite decide_False by (by intros ?).
      rewrite add_present by (rewrite (represents_contains s l) by done;
                              by apply bool_decide_eq_true).
      rewrite <- (filter_not_in_present l x) by done.
      by apply IH.
    + rewrite decide_True by done.
      rewrite <- filter_not_in_snoc.
      rewrite cons_middle, app_assoc.
      apply IH. by apply represents_add.
Qed.

(** Items as the dictionary tells them apart ([K] is the key: the value
    of a string, the address of a method object): after any sequence of
    [add] calls on a new set, iteration yields the distinct items added,
    each once, in the order of their first addition; and adding an item
    that is present leaves the set, so its length and every position, as
    it is. *)
Lemma OrderedSet_add_keys_first_occurrence_order (xs : list K) :
  ∃ l, to_list (add_all xs empty) = Some l ∧
       l = first_occurrences xs ∧
       NoDup l ∧
       (∀ x, x ∈ l ↔ x ∈ xs) ∧
       StronglySorted (λ x y, first_index x xs < first_index y xs) l ∧
       len (add_all xs empty) = length l ∧
       (∀ x, x ∈ xs →
          add x (add_all xs empty) = add_all xs empty ∧
          to_list (add x (add_all xs empty)) = Some l ∧
          len (add x (add_all xs empty)) = length l).
Proof.
  pose proof (represents_add_all xs empty [] represents_empty) as Hrep.
  rewrite app_nil_l, filter_not_in_nil in Hrep.
  exists (first_occurrences xs).
  pose proof (represents_to_list _ _ Hrep) as Hl.
  pose proof (represents_len _ _ Hrep) as Hlen.
  split_and!; try done.
  - apply NoDup_first_occurrences.
  - apply elem_of_first_occurrences.
  - apply first_occurrences_sorted.
  - intros x Hx.
    assert (add x (add_all xs empty) = add_all xs empty) as ->; [| done].
    apply add_present. rewrite (represents_contains _ _ x Hrep).
    apply bool_decide_eq_true. by apply elem_of_first_occurrences.
Qed.

(** [add_first] with an item whose key the dictionary holds changes
    nothing: the item keeps its place and the length and the iteration
    order stay as they were. *)
Lemma OrderedSet_add_first_present_key (s : OrderedSet.t K) (item : K) :
  contains item s = true →
  add_first item s = s ∧
  len (add_first item s) = len s ∧
  to_list (add_first item s) = to_list s.
Proof.
  intros Hc.
  assert (add_first item s = s) as ->; [| done].
  unfold add_first. by rewrite Hc.
Qed.

End OrderedSet_properties.

(** On strings, which the dictionary compares by value, an equal item is
    the same key. *)
Lemma OrderedSet_add_first_present_string :
  OrderedSet.contains "b" (OrderedSet.add_all ["a"; "b"; "c"] OrderedSet.empty) = true ∧
  OrderedSet.add_first "b" (OrderedSet.add_all ["a"; "b"; "c"] OrderedSet.empty)
    = OrderedSet.add_all ["a"; "b"; "c"] OrderedSet.empty ∧
  OrderedSet.to_list
    (OrderedSet.add_first "b" (OrderedSet.add_all ["a"; "b"; "c"] OrderedSet.empty))
    = Some ["a"; "b"; "c"].
Proof.
  split; [vm_compute; reflexivity |].
  destruct (OrderedSet_add_first_present_key
              (OrderedSet.add_all ["a"; "b"; "c"] OrderedSet.empty) "b")
    as (Heq & _ & Hl); [vm_compute; reflexivity |].
  split; [exact Heq |].
  rewrite Hl. vm_compute. reflexivity.
Qed.

(** ** Sets of methods *)

(** [__eq__] holds between a method and itself, and between any two
    methods with the same instance data. *)
Lemma JavaValue_eq_refl (m : JavaMethod.t) : JavaValue.__eq__ m m = true.
Proof.
  unfold JavaValue.__eq__.
  by rewrite !bool_decide_eq_true_2.
Qed.

(** Two different objects are two items, whatever their values: a set
    that gets two method objects with the same instance data holds both,
    in the order of the calls. *)
Lemma OrderedSet_add_distinct_objects (h : JavaValue.heap) (x y : JavaValue.address)
    (m : JavaMethod.t) :
  x ≠ y → h !! x = Some m → h !! y = Some m →
  JavaValue.equal h x y = true ∧
  OrderedSet.to_list (OrderedSet.add_all [x; y] OrderedSet.empty) = Some [x; y] ∧
  JavaValue.values h (OrderedSet.add_all [x; y] OrderedSet.empty) = Some [m; m].
Proof.
  intros Hne Hx Hy.
  assert (OrderedSet.to_list (OrderedSet.add_all [x; y] OrderedSet.empty) = Some [x; y])
    as Hl.
  { destruct (OrderedSet_add_keys_first_occurrence_order [x; y])
      as (l & Hl & -> & _).
    rewrite Hl. cbn [OrderedSet.first_occurrences].
    rewrite filter_cons, decide_True by done. by rewrite filter_nil. }
  split_and!.
  - unfold JavaValue.equal. rewrite Hx, Hy. apply JavaValue_eq_refl.
  - exact Hl.
  - unfold JavaValue.values. rewrite Hl. cbn. by rewrite Hx, Hy.
Qed.



(** ** The sanitizer on a document *)

(** C1 at the feature [a--b] of the example module: the first pass leaves
    [a-b], and a second pass over the sanitized tree changes the name
    again, to [aB]. *)
Theorem make_valid_identifiers_second_pass_changes :
  ∃ w1 w2,
    make_valid_identifiers 10 0 Examples.doc = Ret 0 w1 ∧
    arg <$> store w1 !! 20 = Some (Some "a-b") ∧
    make_valid_identifiers 10 0 w1 = Ret 0 w2 ∧
    arg <$> store w2 !! 20 = Some (Some "aB") ∧
    w2 ≠ w1.
Proof.
  eexists _, _.
  split; [vm_compute; reflexivity |].
  split; [vm_compute; reflexivity |].
  split; [vm_compute; reflexivity |].
  split; [vm_compute; reflexivity |].
  intros Heq. apply (f_equal (λ w, arg <$> store w !! 20)) in Heq.
  vm_compute in Heq. discriminate.
Qed.

(** ** The type resolver on a document *)

(** C2 at the leaf [x] of the example module, whose type [foo] is not in
    the table and has no [i_typedef]: [get_types] returns the pair made
    from the type name, not the pair of [string]; with the verbose flag,
    two calls print one warning, which says that the type defaults to
    string; without the debug and verbose flags they print none. *)
Theorem get_types_unresolved_pair :
  Py.mem "foo" table_types = false ∧
  (∃ w1 w2,
     get_types 10 (Some 18) Examples.verbose Examples.doc
       = Ret ("com.tailf.jnc.YangFoo", "Foo") w1 ∧
     get_types 10 (Some 18) Examples.verbose w1
       = Ret ("com.tailf.jnc.YangFoo", "Foo") w2 ∧
     ("com.tailf.jnc.YangFoo", "Foo") ≠ string_pair ∧
     stderr w2 =
       ["WARNING: No support for type " +:+ Py.dq +:+ "gen.xfoo" +:+ Py.dq +:+
        ", defaulting to string."]) ∧
  (∃ w1 w2,
     get_types 10 (Some 18) Examples.quiet Examples.doc
       = Ret ("com.tailf.jnc.YangFoo", "Foo") w1 ∧
     get_types 10 (Some 18) Examples.quiet w1
       = Ret ("com.tailf.jnc.YangFoo", "Foo") w2 ∧
     stderr w2 = []).
Proof.
  split; [reflexivity |]. split.
  - eexists _, _.
    split; [vm_compute; reflexivity |].
    split; [vm_compute; reflexivity |].
    split; [discriminate | reflexivity].
  - eexists _, _.
    split; [vm_compute; reflexivity |].
    split; [vm_compute; reflexivity | reflexivity].
Qed.

(** ** The list generator on a document *)

(** C3 at the list [items] of the example module, whose only key is a leaf
    of type [string]: the generator returns the empty constructor and
    three key constructors, the last two with the same parameter list,
    where the claim has two; the test that adds the third constructor
    compares the name of the key leaf, [name], with [string]. *)
Theorem list_constructors_text_key :
  get_types 10 (Some 5) Examples.verbose Examples.doc = Ret string_pair Examples.doc ∧
  ∃ g cs,
    ListMethodGenerator.init 10 3 Examples.verbose Examples.doc = Ret g Examples.doc ∧
    ListMethodGenerator.constructors 10 g Examples.doc = Ret cs Examples.doc ∧
    JavaMethod.parameters <$> cs =
      [[]; ["YangString nameValue"]; ["String nameValue"]; ["String nameValue"]].
Proof.
  split; [vm_compute; reflexivity |].
  eexists _, _.
  split; [vm_compute; reflexivity |].
  split; [vm_compute; reflexivity | reflexivity].
Qed.

(** The other half of C3 on the example module: the list [pairs], with two
    key leaves of types [int32] and [uint8], gets the empty constructor and
    the three key constructors with library, String and primitive
    parameters. *)
Lemma list_constructors_two_numeric_keys :
  ∃ g cs,
    ListMethodGenerator.init 10 9 Examples.verbose Examples.doc = Ret g Examples.doc ∧
    ListMethodGenerator.constructors 10 g Examples.doc = Ret cs Examples.doc ∧
    JavaMethod.parameters <$> cs =
      [[]; ["YangInt32 aValue"; "YangUInt8 bValue"];
       ["String aValue"; "String bValue"]; ["int aValue"; "short bValue"]].
Proof.
  eexists _, _.
  split; [vm_compute; reflexivity |].
  split; [vm_compute; reflexivity | reflexivity].
Qed.

(** ** The augment branch of the class generator *)

(** The world after a warning with message and key [k] has been printed. *)
Lemma print_warning_msg_key (k : string) (ctx : option Context) (w : world) :
  k ≠ "" →
  print_warning k k ctx w =
  Ret tt
    (if negb (Py.mem k (outputted_warnings w)) &&
        match ctx with
        | None => true
        | Some c => opts_debug c || opts_verbose c
        end
     then mkWorld (store w) (outputted_warnings w ++ [k]) (augmented_modules w)
                  (stderr w ++ ["WARNING: " +:+ k]) (stdout w) (files w)
     else w).
Proof.
  intros Hk.
  assert (Py.truthy k = true) as Ht by (by destruct k).
  unfold print_warning, warning_enabled, bind, get_outputted_warnings, ret.
  rewrite Ht. cbn [negb orb].
  by destruct (negb (Py.mem k (outputted_warnings w)) && _).
Qed.

(** C8, as stated, fails for an augment without [i_target_node] when
    neither the debug nor the verbose flag is set: the statement is
    skipped and nothing is printed. *)
Lemma generate_class_augment_quiet :
  (i_target_node <$> store Examples.doc !! 19) = Some Absent ∧
  ∃ w', generate_class (λ _ _, ret tt)
          (Examples.top_level_generator 19 Examples.quiet) Examples.doc = Ret tt w' ∧
        stderr w' = [] ∧ w' = Examples.doc.
Proof.
  split; [reflexivity |].
  eexists. split; [vm_compute; reflexivity |].
  split; reflexivity.
Qed.

(** An [i_target_node] that is [None]: [generate_class] tests only
    whether the attribute is there, and [target.top] raises. *)
Lemma generate_class_augment_target_None :
  (i_target_node <$> store Examples.augments !! 4) = Some (Present None) ∧
  generate_class (λ _ _, ret tt)
    (Examples.top_level_generator 4 Examples.verbose) Examples.augments
  = Exc AttributeError Examples.augments.
Proof. split; [reflexivity | vm_compute; reflexivity]. Qed.

(** C8, amended: for an augment statement, [generate_class] writes no file
    and does not reach the part that generates a class, whatever that
    part does.  Without an [i_target_node], nothing is entered in
    [augmented_modules] and the statement is skipped; the warning is
    printed only when the context is missing or has the debug or verbose
    flag and no warning with the same key was printed before.  When the
    [i_target_node] is a statement of another module, the top statement
    of the target is entered in [augmented_modules] under its argument,
    and nothing is printed. *)
Theorem generate_class_augment
    (generate_members : ClassGenerator.t → JavaClass.t → M unit)
    (self : ClassGenerator.t) (w : world) (s : Statement) (path a ns : string) :
  store w !! ClassGenerator.stmt self = Some s →
  keyword s = "augment" →
  arg s = Some a →
  ClassGenerator.path self = Some path →
  ClassGenerator.ns self = Some ns →
  (i_target_node s = Absent →
   let k := "Target missing from augment statement" in
   let warned :=
     negb (Py.mem k (outputted_warnings w)) &&
     match ClassGenerator.ctx self with
     | None => true
     | Some c => opts_debug c || opts_verbose c
     end in
   ∃ w', generate_class generate_members self w = Ret tt w' ∧
         files w' = files w ∧
         augmented_modules w' = augmented_modules w ∧
         stderr w' = stderr w ++ (if warned then ["WARNING: " +:+ k] else [])) ∧
  (∀ target t m ms,
     i_target_node s = Present (Some target) →
     store w !! target = Some t → top t = Some m → store w !! m = Some ms →
     top s ≠ Some m →
     ∃ w', generate_class generate_members self w = Ret tt w' ∧
           files w' = files w ∧
           augmented_modules w' = <[arg ms := m]> (augmented_modules w) ∧
           stderr w' = stderr w).
Proof.
  intros Hs Hkw Ha Hpath Hns.
  unfold generate_class, bind, deref.
  rewrite Hs, Hpath, Ha, Hns, Hkw. cbn [as_str ret].
  rewrite bool_decide_eq_true_2 by done.
  split.
  - intros ->. cbn zeta. rewrite print_warning_msg_key by done.
    eexists. split; [done |].
    destruct (negb _ && _); cbn; [done |].
    by rewrite app_nil_r.
  - intros target t m ms -> Ht Hm Hms _.
    cbn [deref_opt]. unfold deref. rewrite Ht, Hm.
    cbn [deref_opt]. unfold deref. rewrite Hms.
    eexists. split; [done |]. done.
Qed.

Lemma generate_class_augment_witness :
  (∃ w', generate_class (λ _ _, ret tt)
           (Examples.top_level_generator 19 Examples.verbose) Examples.doc = Ret tt w' ∧
         files w' = [] ∧
         augmented_modules w' = ∅ ∧
         stderr w' = ["WARNING: Target missing from augment statement"]) ∧
  (∃ w', generate_class (λ _ _, raise AssertionError)
           (Examples.top_level_generator 3 Examples.verbose) Examples.augments
           = Ret tt w' ∧
         files w' = [] ∧
         augmented_modules w' = {[ Some "other" := 5 ]} ∧
         stderr w' = []).
Proof.
  split.
  - exact (proj1 (generate_class_augment (λ _ _, ret tt)
             (Examples.top_level_generator 19 Examples.verbose) Examples.doc
             (mkStatement "augment" (Some "/other:thing") [] Absent (Some 0) (Some 0)
                          Absent Absent)
             "" "/other:thing" "urn:m" eq_refl eq_refl eq_refl eq_refl eq_refl)
           eq_refl).
  - exact (proj2 (generate_class_augment (λ _ _, raise AssertionError)
             (Examples.top_level_generator 3 Examples.verbose) Examples.augments
             (mkStatement "augment" (Some "/o:thing") [] Absent (Some 0) (Some 0)
                          Absent (Present (Some 8)))
             "" "/o:thing" "urn:m" eq_refl eq_refl eq_refl eq_refl eq_refl)
           8
           (mkStatement "container" (Some "thing") [] (Present (Some [])) (Some 5)
                        (Some 5) Absent Absent)
           5
           (mkStatement "module" (Some "other") [6; 7; 8] (Present (Some [8])) None None
                        Absent Absent)
           eq_refl eq_refl eq_refl eq_refl ltac:(discriminate)).
Defined.

(** ** Leaf-list children *)

Lemma get_append_to (k : option string) (x : JavaClass.member)
    (d : list (option string * list JavaClass.member)) :
  JavaClass.get k (JavaClass.append_to k x d) = JavaClass.get k d ++ [x].
Proof.
  induction d as [|[k' l] d IH]; cbn.
  - by rewrite decide_True.
  - destruct (decide (k' = k)) as [-> | Hne]; cbn.
    + by rewrite decide_True.
    + by rewrite decide_False.
Qed.

Lemma get_append_access_method (k : option string) (x : JavaClass.member)
    (c : JavaClass.t) :
  JavaClass.get k (JavaClass.access_methods (JavaClass.append_access_method k x c)) =
  JavaClass.get k (JavaClass.access_methods c) ++ [x].
Proof. apply get_append_to. Qed.

Lemma contains_here (needle rest : string) : Py.contains needle (needle +:+ rest) = true.
Proof.
  assert (Py.startswith needle (needle +:+ rest) = true) as Hs.
  { induction needle as [|c n IH]; [done |].
    rewrite append_cons. cbn. by rewrite decide_True. }
  destruct (needle +:+ rest); cbn; by rewrite Hs.
Qed.

Lemma contains_after (needle pre rest : string) :
  Py.contains needle rest = true → Py.contains needle (pre +:+ rest) = true.
Proof.
  intros Hr. induction pre as [|c pre IH]; [done |].
  rewrite append_cons. cbn. rewrite IH. apply orb_true_r.
Qed.

(** Every method that [mark] generates is recognized as a mark method. *)
Lemma mark_is_mark_method (kw a op arg_type : string) :
  is_mark_method (JavaClass.Code (mark kw a op arg_type)) = true.
Proof.
  unfold is_mark_method, mark.
  destruct (bool_decide (kw = "leaf-list"));
    cbn [Py.concat foldr];
    do 15 (apply contains_after);
    apply contains_here.
Qed.

(** C4, as stated, fails for the leaf-list [tags] of the example module,
    whose type is [string]: its class gets eight mark methods, all
    different, where the claim has four. *)
Lemma generate_child_text_leaf_list_marks :
  get_types 10 (Some 8) Examples.verbose Examples.doc = Ret string_pair Examples.doc ∧
  ∃ c', generate_child (λ _ _ c, ret ([], c)) 10
          (Examples.top_level_generator 3 Examples.verbose)
          Examples.items_class 7 Examples.doc = Ret ([], c') Examples.doc ∧
        length (mark_methods_of "tags" c') = 8 ∧
        length (mark_methods_of "tags" c') ≠ 4 ∧
        NoDup (JavaClass.get (Some "tags") (JavaClass.access_methods c')).
Proof.
  split; [vm_compute; reflexivity |].
  eexists. split; [vm_compute; reflexivity |].
  split; [vm_compute; reflexivity |].
  split; [vm_compute; discriminate |].
  apply (NoDup_fmap_1 (λ x, match x with JavaClass.Code c => c | _ => "" end)).
  apply (bool_decide_eq_true_1 (NoDup _)).
  vm_compute. reflexivity.
Qed.

(** C4, amended: for every leaf-list child whose type resolves,
    [generate_child] adds, after the other access methods of the child,
    eight mark methods: for each of replace, merge, create and delete one
    with a library-typed and one with a String-typed parameter.  The
    primitive type [type_str2] only decides whether a third setter is
    generated; a text-typed leaf-list gets the eight mark methods too. *)
Theorem generate_child_leaf_list_marks
    (generate_nested : ClassGenerator.t → ref → JavaClass.t → M (list string * JavaClass.t))
    (fuel : nat) (self : ClassGenerator.t) (c : JavaClass.t) (sub : ref)
    (w w' : world) (s : Statement) (a p type_str1 type_str2 : string) :
  store w !! sub = Some s →
  keyword s = "leaf-list" →
  arg s = Some a →
  ClassGenerator.prefix_name self = Some p →
  get_types fuel (search_one_in (store w) "type" None (substmts s))
            (ClassGenerator.ctx self) w = Ret (type_str1, type_str2) w' →
  ∃ c', generate_child generate_nested fuel self c sub w = Ret ([], c') w' ∧
        JavaClass.get (Some a) (JavaClass.access_methods c') =
          JavaClass.get (Some a) (JavaClass.access_methods c) ++
          leaf_list_accessors a p type_str1 type_str2 ++
          leaf_list_marks a type_str1 ∧
        length (leaf_list_marks a type_str1) = 8 ∧
        Forall (λ x, is_mark_method x = true) (leaf_list_marks a type_str1).
Proof.
  intros Hs Hkw Ha Hp Hty.
  unfold generate_child, bind, deref, search_one.
  rewrite Hs, Hkw, Ha, Hp.
  change (Py.mem "leaf-list" ["list"; "container"; "typedef"]) with false.
  change (Py.mem "leaf-list" ["leaf"; "leaf-list"]) with true.
  change (bool_decide ("leaf-list" = "leaf")) with false.
  cbv beta iota zeta. rewrite Hty. cbn [as_str ret default].
  eexists. split; [reflexivity |].
  split; [| split].
  - unfold leaf_list_accessors, leaf_list_marks, mark_operations.
    destruct (bool_decide (type_str2 = "String")); cbn [negb flat_map app];
      rewrite !get_append_access_method, <- !app_assoc; reflexivity.
  - reflexivity.
  - unfold leaf_list_marks, mark_operations. cbn [flat_map app].
    repeat (apply Forall_cons; split; [apply mark_is_mark_method |]).
    apply Forall_nil_2.
Qed.

Lemma generate_child_leaf_list_marks_witness :
  ∃ c', generate_child (λ _ _ c, ret ([], c)) 10
          (Examples.top_level_generator 3 Examples.verbose)
          Examples.items_class 7 Examples.doc = Ret ([], c') Examples.doc ∧
        JavaClass.get (Some "tags") (JavaClass.access_methods c') =
          leaf_list_accessors "tags" "M" "com.tailf.jnc.YangString" "String" ++
          leaf_list_marks "tags" "com.tailf.jnc.YangString" ∧
        length (leaf_list_marks "tags" "com.tailf.jnc.YangString") = 8.
Proof.
  destruct (generate_child_leaf_list_marks (λ _ _ c, ret ([], c)) 10
              (Examples.top_level_generator 3 Examples.verbose)
              Examples.items_class 7 Examples.doc Examples.doc
              (mkStatement "leaf-list" (Some "tags") [8] Absent (Some 3) (Some 0)
                           Absent Absent)
              "tags" "M" "com.tailf.jnc.YangString" "String"
              eq_refl eq_refl eq_refl eq_refl)
    as (c' & Hrun & Hget & Hlen & _).
  { vm_compute. reflexivity. }
  exists c'. split; [exact Hrun |]. split; [exact Hget | exact Hlen].
Defined.

(** ** Computations that only read the store *)

Lemma reader_ret {A} (a : A) : reader (ret a).
Proof. by intros w w' _. Qed.

Lemma reader_raise {A} (e : exn) : reader (raise (A:=A) e).
Proof. by intros w w' _. Qed.

Lemma reader_out_of_fuel {A} : reader (λ _, OutOfFuel (A:=A)).
Proof. by intros w w' _. Qed.

Lemma reader_bind {A B} (m : M A) (k : A → M B) :
  reader m → (∀ a, reader (k a)) → reader (bind m k).
Proof.
  intros Hm Hk w w' Hst. unfold bind.
  specialize (Hm w w' Hst).
  destruct (m w) as [a v|e v| |], (m w') as [a' v'|e' v'| |]; try done.
  destruct Hm as (<- & -> & ->). by apply Hk.
Qed.

Lemma reader_deref (r : ref) : reader (deref r).
Proof.
  intros w w' Hst. unfold deref. rewrite <- Hst.
  by destruct (store w !! r).
Qed.

Lemma reader_deref_opt (r : option ref) : reader (deref_opt r).
Proof. destruct r; [apply reader_deref | apply reader_raise]. Qed.

Lemma reader_as_str (a : option string) : reader (as_str a).
Proof. destruct a; [apply reader_ret | apply reader_raise]. Qed.

Lemma reader_search_one (s : Statement) (kw : string) (a : option string) :
  reader (search_one s kw a).
Proof. intros w w' Hst. unfold search_one. by rewrite Hst. Qed.

Lemma reader_search (s : Statement) (kw : string) : reader (search s kw).
Proof. intros w w' Hst. unfold search. by rewrite Hst. Qed.

Lemma reader_for_each {A B} (f : A → M B) (l : list A) :
  (∀ x, reader (f x)) → reader (for_each f l).
Proof.
  intros Hf. induction l as [|x l IH]; [apply reader_ret |].
  cbn. apply reader_bind; [done |]. intros y.
  apply reader_bind; [done |]. intros ys. apply reader_ret.
Qed.

Lemma reader_if {A} (b : bool) (m1 m2 : M A) :
  reader m1 → reader m2 → reader (if b then m1 else m2).
Proof. by destruct b. Qed.

(** What a reader returns in one world it returns in every world with the
    same store. *)
Lemma reader_returns {A} (m : M A) (w w' : world) (a : A) (v : world) :
  reader m → m w = Ret a v → store w = store w' → v = w ∧ m w' = Ret a w'.
Proof.
  intros Hm Hw Hst. specialize (Hm w w' Hst). rewrite Hw in Hm.
  destruct (m w') as [a' v'| | |]; try done.
  by destruct Hm as (<- & -> & ->).
Qed.

Lemma reader_get_package_loop (fuel : nat) : ∀ s acc, reader (get_package_loop fuel s acc).
Proof.
  induction fuel as [|fuel IH]; intros s acc; cbn;
    (destruct (parent s); [| apply reader_ret]).
  - apply reader_out_of_fuel.
  - apply reader_bind; [apply reader_deref |]. intros s'.
    destruct (parent s'); apply IH.
Qed.

Lemma reader_get_package (fuel : nat) (stmt : option ref) (ctx : option Context) :
  reader (get_package fuel stmt ctx).
Proof.
  unfold get_package.
  apply reader_bind; [apply reader_deref_opt |]. intros s.
  apply reader_bind; [apply reader_get_package_loop |]. intros l.
  destruct ctx; [| apply reader_raise].
  apply reader_bind; [| intros; apply reader_ret].
  apply reader_for_each, reader_as_str.
Qed.

(** ** Unresolved types *)

Lemma mem_app_false (a : string) (l1 l2 : list string) :
  Py.mem a (l1 ++ l2) = false → Py.mem a l1 = false ∧ Py.mem a l2 = false.
Proof.
  unfold Py.mem. intros Hn%bool_decide_eq_false.
  split; apply bool_decide_eq_false; intros ?; apply Hn, elem_of_app; auto.
Qed.

Lemma print_warning_default (key : string) (c : Context) (w : world) :
  key ≠ "" → print_warning "" key (Some c) w = Ret tt (warned key c w).
Proof.
  intros Hk.
  assert (Py.truthy key = true) as Ht by (by destruct key).
  unfold print_warning, print_warning_msg, warning_enabled, warned, bind,
    get_outputted_warnings, ret.
  rewrite Ht. cbn [negb orb Py.truthy].
  destruct (negb (Py.mem key (outputted_warnings w)) && _) eqn:Hgo; cbv beta; [| done].
  by rewrite Hgo.
Qed.

Lemma warned_store (key : string) (c : Context) (w : world) :
  store (warned key c w) = store w.
Proof. unfold warned. by destruct (_ && _). Qed.

Lemma warned_twice (key : string) (c : Context) (w : world) :
  warned key c (warned key c w) = warned key c w.
Proof.
  unfold warned.
  destruct (negb (Py.mem key (outputted_warnings w))) eqn:Hm; cbn [andb]; [| by rewrite Hm].
  destruct (opts_debug c || opts_verbose c) eqn:Hf; cbn [outputted_warnings].
  - assert (Py.mem key (outputted_warnings w ++ [key]) = true) as ->; [| done].
    apply bool_decide_eq_true, elem_of_app. right. apply list_elem_of_singleton. done.
  - by rewrite Hm.
Qed.

Lemma append_nonempty_r (s t : string) : t ≠ "" → s +:+ t ≠ "".
Proof. intros Ht. destruct s; [done |]. by rewrite append_cons. Qed.

(** One resolution attempt on a type statement that is not in the table
    and has no [i_typedef]. *)
Lemma get_types_unresolved (fuel : nat) (w : world) (r : ref) (y : Statement)
    (a : string) (c : Context) (pkg : string) :
  store w !! r = Some y →
  keyword y = "type" →
  arg y = Some a → a ≠ "" →
  Py.mem a table_types = false →
  i_typedef y = Absent →
  get_package fuel (Some r) (Some c) w = Ret pkg w →
  get_types (S fuel) (Some r) (Some c) w =
  Ret ("com.tailf.jnc.Yang" +:+ capitalize_first (camelize (Some a)),
       capitalize_first (camelize (Some a)))
      (warned (pkg +:+ a) c w).
Proof.
  intros Hy Hkw Ha Hne Htab Hty Hpkg.
  unfold table_types in Htab.
  repeat (apply mem_app_false in Htab as [? Htab]).
  cbn [get_types deref_opt]. unfold bind at 1 2 3. unfold deref.
  rewrite Hy, Hkw.
  change (Py.mem "type" ["leaf"; "leaf-list"]) with false.
  change (Py.mem "type" ["type"; "typedef"]) with true.
  cbn [ret negb deref_opt]. unfold deref. rewrite Hy.
  rewrite Hkw, Ha, Hty.
  change (Py.mem "type" ["type"; "typedef"]) with true. cbn [negb].
  repeat match goal with H : Py.mem a _ = false |- _ => rewrite H; clear H end.
  unfold bind. rewrite Hpkg. cbn [as_str ret].
  rewrite print_warning_default by (by apply append_nonempty_r).
  done.
Qed.

(** C2, amended: for a type statement that is not in the table of
    [get_types] and has no [i_typedef] attribute, [get_types] returns a
    pair, the same at every attempt, and repeated attempts print at most
    one warning in total: one when the debug or verbose flag is set and no
    warning for this identity was printed before, none otherwise.  Which
    pair is returned is not part of this statement. *)
Theorem get_types_unresolved_warns_once (fuel : nat) (w : world) (r : ref)
    (y : Statement) (a : string) (c : Context) (pkg : string) :
  store w !! r = Some y →
  keyword y = "type" →
  arg y = Some a → a ≠ "" →
  Py.mem a table_types = false →
  i_typedef y = Absent →
  get_package fuel (Some r) (Some c) w = Ret pkg w →
  ∃ pair w1 w2,
    get_types (S fuel) (Some r) (Some c) w = Ret pair w1 ∧
    get_types (S fuel) (Some r) (Some c) w1 = Ret pair w2 ∧
    store w2 = store w ∧
    stderr w2 =
      stderr w ++
      (if negb (Py.mem (pkg +:+ a) (outputted_warnings w)) &&
          (opts_debug c || opts_verbose c)
       then ["WARNING: " +:+ ("No support for type " +:+ Py.dq +:+ (pkg +:+ a)
                              +:+ Py.dq +:+ ", defaulting to string.")]
       else []).
Proof.
  intros Hy Hkw Ha Hne Htab Hty Hpkg.
  pose proof (warned_store (pkg +:+ a) c w) as Hst.
  destruct (reader_returns _ w (warned (pkg +:+ a) c w) pkg w
              (reader_get_package fuel (Some r) (Some c)) Hpkg (eq_sym Hst))
    as [_ Hpkg'].
  eexists _, _, _. split; [| split; [| split]].
  - by apply (get_types_unresolved fuel w r y a c pkg).
  - apply (get_types_unresolved fuel _ r y a c pkg); try done.
    by rewrite Hst.
  - by rewrite warned_twice.
  - rewrite warned_twice. unfold warned.
    destruct (_ && _); cbn [stderr]; [done | by rewrite app_nil_r].
Qed.

Lemma get_types_unresolved_warns_once_witness :
  ∃ pair w1 w2,
    get_types 10 (Some 18) Examples.verbose Examples.doc = Ret pair w1 ∧
    get_types 10 (Some 18) Examples.verbose w1 = Ret pair w2 ∧
    store w2 = store Examples.doc ∧
    stderr w2 =
      ["WARNING: " +:+ ("No support for type " +:+ Py.dq +:+ "gen.xfoo"
                        +:+ Py.dq +:+ ", defaulting to string.")].
Proof.
  exact (get_types_unresolved_warns_once 9 Examples.doc 18
           (mkStatement "type" (Some "foo") [] Absent (Some 17) (Some 0) Absent Absent)
           "foo" (mkContext false true "gen") "gen.x"
           eq_refl eq_refl eq_refl ltac:(discriminate) eq_refl eq_refl eq_refl).
Defined.

(** ** Calls that return *)

Lemma bind_Ret {A B} (m : M A) (k : A → M B) (w w' : world) (a : A) :
  m w = Ret a w' → bind m k w = k a w'.
Proof. intros Hm. unfold bind. by rewrite Hm. Qed.

Lemma deref_eq (r : ref) (s : Statement) (w : world) :
  store w !! r = Some s → deref r w = Ret s w.
Proof. intros Hs. unfold deref. by rewrite Hs. Qed.

Lemma for_each_returns_fmap {A B} (f : A → M B) (g : A → B) (l : list A) (w : world) :
  (∀ x, x ∈ l → f x w = Ret (g x) w) → for_each f l w = Ret (g <$> l) w.
Proof.
  induction l as [|x l IH]; intros Hf; [done |].
  cbn. unfold bind. rewrite Hf by left.
  rewrite IH by (intros y Hy; apply Hf; by right). done.
Qed.

Lemma for_each_returns {A B} (f : A → M B) (l : list A) (w : world) :
  (∀ x, x ∈ l → ∃ y, f x w = Ret y w) →
  ∃ ys, for_each f l w = Ret ys w ∧ length ys = length l.
Proof.
  induction l as [|x l IH]; intros Hf; [by exists [] |].
  destruct (Hf x) as [y Hy]; [left |].
  destruct IH as (ys & Hys & Hlen); [intros z Hz; apply Hf; by right |].
  exists (y :: ys). cbn. unfold bind. rewrite Hy, Hys. by rewrite Hlen.
Qed.

Lemma search_one_in_Some (st : gmap ref Statement) (kw : string) (a : option string)
    (l : list ref) (r : ref) :
  search_one_in st kw a l = Some r →
  ∃ c, st !! r = Some c ∧ keyword c = kw ∧ r ∈ l.
Proof.
  induction l as [|ch l IH]; [done |]. cbn.
  destruct (st !! ch) as [c|] eqn:Hc.
  - destruct (bool_decide (keyword c = kw)) eqn:Hk; cbn [andb].
    + destruct (match a with None => true | Some _ => _ end).
      * intros [= <-]. exists c. apply bool_decide_eq_true in Hk.
        split_and!; [done | done | left].
      * intros (c' & ? & ? & ?)%IH. exists c'. split_and!; [done | done | by right].
    + intros (c' & ? & ? & ?)%IH. exists c'. split_and!; [done | done | by right].
  - intros (c' & ? & ? & ?)%IH. exists c'. split_and!; [done | done | by right].
Qed.

Lemma search_in_elem (st : gmap ref Statement) (kw : string) (l : list ref) (r : ref) :
  r ∈ search_in st kw l → ∃ c, st !! r = Some c ∧ keyword c = kw.
Proof.
  induction l as [|ch l IH]; cbn; [by intros ?%elem_of_nil |].
  destruct (st !! ch) as [c|] eqn:Hc; [| done].
  destruct (bool_decide (keyword c = kw)) eqn:Hk; [| done].
  intros [-> | Hr]%elem_of_cons; [| by apply IH].
  exists c. by apply bool_decide_eq_true in Hk.
Qed.

(** [fix_imports] only replaces the imports of the method. *)
Lemma fix_imports_returns (g : MethodGenerator.t) (m : JavaMethod.t) (w : world)
    (s : Statement) (a : string) (c : Context) :
  store w !! MethodGenerator.stmt g = Some s →
  Forall (λ r, is_Some (store w !! r)) (substmts s) →
  arg s = Some a →
  MethodGenerator.ctx g = Some c →
  ∃ res, MethodGenerator.fix_imports g m w = Ret (JavaMethod.set_imports res m) w.
Proof.
  intros Hs Hsub Ha Hc.
  unfold MethodGenerator.fix_imports.
  rewrite (bind_Ret _ _ _ _ _ (deref_eq _ _ _ Hs)).
  destruct (for_each_returns
              (λ r, do c0 <- deref r ;; ret (capitalize_first (camelize (arg c0))))
              (substmts s) w) as (children & Hch & _).
  { intros r Hr. rewrite Forall_forall in Hsub.
    destruct (Hsub r Hr) as [c0 Hc0].
    eexists. by rewrite (bind_Ret _ _ _ _ _ (deref_eq _ _ _ Hc0)). }
  rewrite (bind_Ret _ _ _ _ _ Hch), Hc.
  match goal with
  | |- context [for_each ?f (JavaMethod.imports m)] =>
      destruct (for_each_returns f (JavaMethod.imports m) w) as (fixed & Hfix & _)
  end.
  { intros d _. unfold MethodGenerator.fix_import.
    repeat match goal with
           | |- context [if ?b then _ else _] => destruct b
           end; rewrite ?Ha; by eexists. }
  rewrite (bind_Ret _ _ _ _ _ Hfix). by eexists.
Qed.

(** ** Calls that leave the statements alone *)

Lemma keeps_store_ret {A} (a : A) : keeps_store (ret a).
Proof. by intros w. Qed.

Lemma keeps_store_raise {A} (e : exn) : keeps_store (raise (A:=A) e).
Proof. by intros w. Qed.

Lemma keeps_store_bind {A B} (m : M A) (k : A → M B) :
  keeps_store m → (∀ a, keeps_store (k a)) → keeps_store (bind m k).
Proof.
  intros Hm Hk w. unfold bind. specialize (Hm w).
  destruct (m w) as [a v|e v| |]; try done.
  specialize (Hk a v). destruct (k a v); try done; congruence.
Qed.

Lemma reader_keeps_store {A} (m : M A) : reader m → keeps_store m.
Proof.
  intros Hm w. specialize (Hm w w eq_refl).
  destruct (m w); try done; by destruct Hm as (_ & -> & _).
Qed.

Lemma keeps_store_print_warning (msg key : string) (ctx : option Context) :
  keeps_store (print_warning msg key ctx).
Proof.
  intros w.
  unfold print_warning, print_warning_msg, warning_enabled, bind,
    get_outputted_warnings, ret, print_stderr, append_outputted_warning.
  repeat match goal with
         | |- context [if ?b then _ else _] => destruct b; try done
         end.
Qed.

Lemma reader_get_base_type (fuel : nat) : ∀ stmt, reader (get_base_type fuel stmt).
Proof.
  induction fuel as [|fuel IH]; intros stmt; cbn; [apply reader_out_of_fuel |].
  apply reader_bind; [apply reader_deref_opt |]. intros s.
  apply reader_bind; [apply reader_search_one |]. intros [t|]; [| apply reader_ret].
  apply reader_bind; [apply reader_deref |]. intros ts.
  destruct (i_typedef ts) as [|[typedef|]]; [apply reader_ret | apply IH | apply reader_ret].
Qed.

Lemma keeps_store_get_types (fuel : nat) :
  ∀ yang_type ctx, keeps_store (get_types fuel yang_type ctx).
Proof.
  induction fuel as [|fuel IH]; intros yang_type ctx; [done |].
  cbn [get_types].
  apply keeps_store_bind; [apply reader_keeps_store, reader_deref_opt |]. intros y0.
  apply keeps_store_bind.
  { destruct (Py.mem _ _);
      [apply reader_keeps_store, reader_search_one | apply keeps_store_ret]. }
  intros yt.
  apply keeps_store_bind; [apply reader_keeps_store, reader_deref_opt |]. intros y.
  repeat match goal with
         | |- keeps_store (if ?b then _ else _) => destruct b
         | |- keeps_store (ret _) => apply keeps_store_ret
         | |- keeps_store (raise _) => apply keeps_store_raise
         end.
  destruct (i_typedef y) as [|typedef].
  - apply keeps_store_bind; [apply reader_keeps_store, reader_get_package |]. intros pkg.
    apply keeps_store_bind; [apply reader_keeps_store, reader_as_str |]. intros a.
    apply keeps_store_bind; [apply keeps_store_print_warning |]. intros _.
    apply keeps_store_ret.
  - apply keeps_store_bind.
    { destruct typedef, ctx as [c|];
        try apply keeps_store_ret; try apply keeps_store_raise.
      destruct (opts_verbose c); [| apply keeps_store_ret].
      apply keeps_store_bind; [apply reader_keeps_store, reader_as_str |].
      intros a w. done. }
    intros _.
    apply keeps_store_bind; [apply reader_keeps_store, reader_get_base_type |].
    intros basetype.
    apply keeps_store_bind; [apply reader_keeps_store, reader_get_package |]. intros pkg.
    apply keeps_store_bind; [apply IH |]. intros base.
    apply keeps_store_ret.
Qed.

(** ** What the setters of a method leave alone *)

Lemma add_dependency_body (x : string) (m : JavaMethod.t) :
  JavaMethod.body (JavaMethod.add_dependency x m).2 = JavaMethod.body m ∧
  JavaMethod.indent (JavaMethod.add_dependency x m).2 = JavaMethod.indent m ∧
  JavaMethod.name (JavaMethod.add_dependency x m).2 = JavaMethod.name m.
Proof.
  unfold JavaMethod.add_dependency.
  destruct (Py.rpartition_dot x) as [[? sep] cls].
  by destruct (Py.truthy sep), (negb (Py.mem cls java_built_in)),
       (negb (Py.mem x java_built_in)).
Qed.

Lemma add_parameter_body (ty n : string) (m : JavaMethod.t) :
  JavaMethod.body (JavaMethod.add_parameter ty n m) = JavaMethod.body m ∧
  JavaMethod.indent (JavaMethod.add_parameter ty n m) = JavaMethod.indent m ∧
  JavaMethod.name (JavaMethod.add_parameter ty n m) = JavaMethod.name m.
Proof.
  unfold JavaMethod.add_parameter.
  pose proof (add_dependency_body ty m) as Hd.
  by destruct (JavaMethod.add_dependency ty m).
Qed.

Lemma add_exception_body (e : string) (m : JavaMethod.t) :
  JavaMethod.body (JavaMethod.add_exception e m) = JavaMethod.body m ∧
  JavaMethod.indent (JavaMethod.add_exception e m) = JavaMethod.indent m ∧
  JavaMethod.name (JavaMethod.add_exception e m) = JavaMethod.name m.
Proof.
  unfold JavaMethod.add_exception.
  pose proof (add_dependency_body e m) as Hd.
  by destruct (JavaMethod.add_dependency e m).
Qed.

Lemma add_lines_body (lines : list string) : ∀ m : JavaMethod.t,
  JavaMethod.body (foldl (λ m l, JavaMethod.add_line l m) m lines) =
    JavaMethod.body m ++ ((λ l, JavaMethod.indent m +:+ "    " +:+ l) <$> lines) ∧
  JavaMethod.indent (foldl (λ m l, JavaMethod.add_line l m) m lines) =
    JavaMethod.indent m ∧
  JavaMethod.name (foldl (λ m l, JavaMethod.add_line l m) m lines) =
    JavaMethod.name m.
Proof.
  induction lines as [|l lines IH]; intros m; cbn [foldl fmap list_fmap].
  - by rewrite app_nil_r.
  - destruct (IH (JavaMethod.add_line l m)) as (-> & -> & ->).
    cbn. by rewrite <- app_assoc.
Qed.

(** ** The typedef generator *)

Lemma MethodGenerator_init_typedef (w : world) (stmt : ref) (s : Statement)
    (ctx : option Context) :
  store w !! stmt = Some s →
  keyword s = "typedef" →
  (∀ tp, top s = Some tp → is_Some (store w !! tp)) →
  ∃ root,
    MethodGenerator.init stmt ctx w =
    Ret (MethodGenerator.mk stmt (extract_names (arg s)).2 root false false true
                            (bool_decide (parent s = top s)) ctx) w.
Proof.
  intros Hs Hkw Htop.
  unfold MethodGenerator.init.
  rewrite (bind_Ret _ _ _ _ _ (deref_eq _ _ _ Hs)).
  assert (∃ prefix,
            match top s with
            | Some tp => do t <- deref tp ;; search_one t "prefix" None
            | None => ret None
            end w = Ret prefix w ∧
            ∀ p, prefix = Some p → is_Some (store w !! p)) as (prefix & Hprefix & Hp).
  { destruct (top s) as [tp|]; [| by exists None].
    destruct (Htop tp eq_refl) as [t Ht].
    rewrite (bind_Ret _ _ _ _ _ (deref_eq _ _ _ Ht)).
    eexists. split; [reflexivity |].
    intros p (c & Hc & _)%search_one_in_Some. by exists c. }
  rewrite (bind_Ret _ _ _ _ _ Hprefix).
  rewrite Hkw.
  destruct prefix as [p|].
  - destruct (Hp p eq_refl) as [ps Hps].
    erewrite (bind_Ret (do ps <- deref p ;; _));
      [| rewrite (bind_Ret _ _ _ _ _ (deref_eq _ _ _ Hps)); reflexivity].
    by eexists.
  - by eexists.
Qed.

Lemma args_of_returns (w : world) (l : list ref) :
  (∀ r, r ∈ l → ∃ x a, store w !! r = Some x ∧ arg x = Some a) →
  TypedefMethodGenerator.args_of l w = Ret (arg_text (store w) <$> l) w.
Proof.
  intros Hl. unfold TypedefMethodGenerator.args_of.
  apply for_each_returns_fmap. intros r Hr.
  destruct (Hl r Hr) as (x & a & Hx & Ha).
  rewrite (bind_Ret _ _ _ _ _ (deref_eq _ _ _ Hx)).
  unfold arg_text. rewrite Hx. cbn. by rewrite Ha.
Qed.

Lemma TypedefMethodGenerator_init_returns (w : world) (stmt : ref) (s : Statement)
    (ctx : option Context) (ty : ref) (t : Statement) :
  store w !! stmt = Some s →
  keyword s = "typedef" →
  (∀ tp, top s = Some tp → is_Some (store w !! tp)) →
  search_one_in (store w) "type" None (substmts s) = Some ty →
  store w !! ty = Some t →
  ∃ g root,
    TypedefMethodGenerator.init stmt ctx w = Ret g w ∧
    TypedefMethodGenerator.base g =
      MethodGenerator.mk stmt (extract_names (arg s)).2 root false false true
                         (bool_decide (parent s = top s)) ctx ∧
    TypedefMethodGenerator.stmt_type g = Some ty ∧
    TypedefMethodGenerator.needs_check g = true ∧
    TypedefMethodGenerator.is_string g =
      match arg t with
      | Some a => Py.mem a ["string"; "enumeration"]
      | None => false
      end ∧
    TypedefMethodGenerator.enum g = Some (search_in (store w) "enum" (substmts t)) ∧
    TypedefMethodGenerator.pattern g = Some (search_in (store w) "pattern" (substmts t)).
Proof.
  intros Hs Hkw Htop Hty Ht.
  destruct (MethodGenerator_init_typedef w stmt s ctx Hs Hkw Htop) as [root Hinit].
  unfold TypedefMethodGenerator.init.
  rewrite (bind_Ret _ _ _ _ _ Hinit). cbn [MethodGenerator.is_typedef negb].
  rewrite (bind_Ret _ _ _ _ _ (deref_eq _ _ _ Hs)).
  unfold search_one at 1. unfold bind at 1. rewrite Hty.
  rewrite (bind_Ret _ _ _ _ _ (deref_eq _ _ _ Ht)).
  eexists _, root. split; [reflexivity |]. done.
Qed.

(** C7, as stated, fails for the typedef [percent] of the example module,
    whose type [uint8] declares neither enum values nor patterns: the
    generator still returns a [check] method, with an empty body, and both
    constructors call it. *)
Lemma typedef_without_restrictions_has_checker :
  ∃ g m cs,
    TypedefMethodGenerator.init 15 Examples.verbose Examples.doc = Ret g Examples.doc ∧
    TypedefMethodGenerator.enum g = Some [] ∧
    TypedefMethodGenerator.pattern g = Some [] ∧
    TypedefMethodGenerator.checker g Examples.doc = Ret [m] Examples.doc ∧
    JavaMethod.name m = Some "check" ∧
    JavaMethod.body m = [] ∧
    TypedefMethodGenerator.constructors 10 g Examples.doc = Ret cs Examples.doc ∧
    JavaMethod.body <$> cs =
      [[body_line "super(value);"; body_line "check();"];
       [body_line "super(value);"; body_line "check();"]].
Proof.
  eexists _, _, _.
  split; [vm_compute; reflexivity |].
  split; [reflexivity |]. split; [reflexivity |].
  split; [vm_compute; reflexivity |].
  split; [reflexivity |]. split; [reflexivity |].
  split; [vm_compute; reflexivity | reflexivity].
Qed.

Lemma search_in_subset (st : gmap ref Statement) (kw : string) (l : list ref) (r : ref) :
  r ∈ search_in st kw l → r ∈ l.
Proof.
  induction l as [|ch l IH]; cbn; [done |].
  destruct (st !! ch) as [c|]; [| by right; apply IH].
  destruct (bool_decide (keyword c = kw)); [| by right; apply IH].
  intros [-> | Hr]%elem_of_cons; [left | right; by apply IH].
Qed.

Lemma for_each_returns_Forall {A B} (f : A → M B) (P : B → Prop) (l : list A)
    (w : world) :
  (∀ x, x ∈ l → ∃ y, f x w = Ret y w ∧ P y) →
  ∃ ys, for_each f l w = Ret ys w ∧ length ys = length l ∧ Forall P ys.
Proof.
  induction l as [|x l IH]; intros Hf; [by exists [] |].
  destruct (Hf x) as (y & Hy & HP); [left |].
  destruct IH as (ys & Hys & Hlen & Hall); [intros z Hz; apply Hf; by right |].
  exists (y :: ys). cbn. unfold bind. rewrite Hy, Hys.
  split_and!; [done | by rewrite Hlen | by constructor].
Qed.

(** Each constructor of a typedef class calls the parent constructor and
    then [check()]. *)
Lemma typedef_constructor_returns (g : TypedefMethodGenerator.t) (w : world)
    (s : Statement) (a : string) (c : Context) (primitive : string) (i : nat) :
  store w !! MethodGenerator.stmt (TypedefMethodGenerator.base g) = Some s →
  Forall (λ r, is_Some (store w !! r)) (substmts s) →
  arg s = Some a →
  MethodGenerator.ctx (TypedefMethodGenerator.base g) = Some c →
  MethodGenerator.is_container (TypedefMethodGenerator.base g) = false →
  MethodGenerator.is_list (TypedefMethodGenerator.base g) = false →
  TypedefMethodGenerator.needs_check g = true →
  ∃ k, TypedefMethodGenerator.constructor g primitive i w = Ret k w ∧
       JavaMethod.body k = [body_line "super(value);"; body_line "check();"].
Proof.
  intros Hs Hsub Ha Hc Hcont Hlist Hneeds.
  unfold TypedefMethodGenerator.constructor, MethodGenerator.constructor_template.
  rewrite Hcont, Hlist, Hneeds. cbn [orb].
  destruct (fix_imports_returns (TypedefMethodGenerator.base g)
              (JavaMethod.add_line "super(value);"
                 (JavaMethod.init ["public"]
                    (MethodGenerator.n (TypedefMethodGenerator.base g))))
              w s a c Hs Hsub Ha Hc) as [res Hfix].
  erewrite (bind_Ret (do constructor <- ret _ ;; _)) by exact Hfix.
  set (m0 := JavaMethod.set_imports res _).
  assert (JavaMethod.body m0 = [body_line "super(value);"] ∧
          JavaMethod.indent m0 = "    ") as [Hb0 Hi0] by done.
  clearbody m0.
  assert (∀ m : JavaMethod.t,
            JavaMethod.body m = JavaMethod.body m0 →
            JavaMethod.indent m = JavaMethod.indent m0 →
            ∀ jd1 jd2,
            JavaMethod.body
              (let '(exception, constructor1) :=
                 JavaMethod.add_dependency "YangException"
                   (JavaMethod.add_line "check();"
                      (JavaMethod.add_javadoc jd1 (JavaMethod.add_javadoc jd2 m))) in
               JavaMethod.add_exception exception constructor1) =
            [body_line "super(value);"; body_line "check();"]) as Hchecked.
  { intros m Hb Hi jd1 jd2.
    match goal with
    | |- context [JavaMethod.add_dependency "YangException" ?X] =>
        pose proof (add_dependency_body "YangException" X) as (Hb1 & _ & _);
        destruct (JavaMethod.add_dependency "YangException" X) as [e m1]
    end.
    cbn [snd] in Hb1.
    destruct (add_exception_body e m1) as (-> & _ & _).
    rewrite Hb1. cbn [JavaMethod.add_line JavaMethod.body JavaMethod.add_javadoc
                        JavaMethod.indent].
    by rewrite Hb, Hi, Hb0, Hi0. }
  destruct i as [|i]; cbv beta iota zeta.
  - match goal with
    | |- context [MethodGenerator.fix_imports _ ?M w] =>
        destruct (fix_imports_returns (TypedefMethodGenerator.base g) M
                    w s a c Hs Hsub Ha Hc) as [res' Hfix']
    end.
    rewrite Hfix'. eexists. split; [reflexivity |].
    cbn [JavaMethod.set_imports JavaMethod.body].
    apply Hchecked; apply (add_parameter_body "String" "value" m0).
  - pose proof (add_dependency_body primitive m0) as (Hb' & Hi' & _).
    destruct (JavaMethod.add_dependency primitive m0) as [tmp m0'].
    cbn [snd] in Hb', Hi'.
    match goal with
    | |- context [MethodGenerator.fix_imports _ ?M w] =>
        destruct (fix_imports_returns (TypedefMethodGenerator.base g) M
                    w s a c Hs Hsub Ha Hc) as [res' Hfix']
    end.
    rewrite Hfix'. eexists. split; [reflexivity |].
    cbn [JavaMethod.set_imports JavaMethod.body].
    destruct (add_parameter_body tmp "value" m0') as (Hb & Hi & _).
    apply Hchecked; congruence.
Qed.

(** The typedef [id] of type [union]: the generator returns the [check]
    method, while [constructors] raises, because [get_types] finds no
    typedef for the type. *)
Lemma typedef_of_union_has_checker :
  ∃ g m w1,
    TypedefMethodGenerator.init 3 Examples.verbose Examples.union_typedef
      = Ret g Examples.union_typedef ∧
    TypedefMethodGenerator.checker g Examples.union_typedef
      = Ret [m] Examples.union_typedef ∧
    JavaMethod.name m = Some "check" ∧
    JavaMethod.body m = [] ∧
    get_types 10 (Some 4) Examples.verbose Examples.union_typedef
      = Exc AttributeError w1 ∧
    TypedefMethodGenerator.constructors 10 g Examples.union_typedef
      = Exc AttributeError w1.
Proof.
  eexists _, _, _.
  split; [vm_compute; reflexivity |].
  split; [vm_compute; reflexivity |].
  split; [reflexivity |]. split; [reflexivity |].
  split; vm_compute; reflexivity.
Qed.

(** C7, amended: for every typedef statement with a type substatement
    (in a store that holds its substatements, with arguments on the
    substatements of the type), the generator always returns exactly one
    checker method, named [check], whether or not the type declares
    restrictions and whether or not the type resolves.  The restrictions
    only decide the body of the checker: the enum lines are there exactly
    when enum values are declared, the pattern lines exactly when
    patterns are; with neither, the body is empty.  The constructors
    depend on [get_types]: when it returns, there is one constructor for a
    textual type and there are two otherwise, and every one of them calls
    [check()] after the parent constructor; when it does not return,
    [constructors] ends in the same way and there is no constructor. *)
Theorem typedef_checker_always_generated (fuel : nat) (w : world) (stmt : ref)
    (s : Statement) (a : string) (c : Context) (ty : ref) (t : Statement) :
  store w !! stmt = Some s →
  keyword s = "typedef" →
  arg s = Some a →
  Forall (λ r, is_Some (store w !! r)) (substmts s) →
  (∀ tp, top s = Some tp → is_Some (store w !! tp)) →
  search_one_in (store w) "type" None (substmts s) = Some ty →
  store w !! ty = Some t →
  (∀ r x, r ∈ substmts t → store w !! r = Some x → is_Some (arg x)) →
  ∃ g m,
    TypedefMethodGenerator.init stmt (Some c) w = Ret g w ∧
    TypedefMethodGenerator.checker g w = Ret [m] w ∧
    JavaMethod.name m = Some "check" ∧
    JavaMethod.body m =
      body_line <$>
        (TypedefMethodGenerator.enum_lines
           (arg_text (store w) <$> search_in (store w) "enum" (substmts t)) ++
         TypedefMethodGenerator.pattern_lines
           (arg_text (store w) <$> search_in (store w) "pattern" (substmts t))) ∧
    (search_in (store w) "enum" (substmts t) = [] →
     search_in (store w) "pattern" (substmts t) = [] →
     JavaMethod.body m = []) ∧
    match get_types fuel (Some ty) (Some c) w with
    | Ret types w1 =>
        ∃ cs,
          TypedefMethodGenerator.constructors fuel g w = Ret cs w1 ∧
          length cs = (if TypedefMethodGenerator.is_string g then 1 else 2) ∧
          Forall (λ k, JavaMethod.body k =
                         [body_line "super(value);"; body_line "check();"]) cs
    | Exc e w1 => TypedefMethodGenerator.constructors fuel g w = Exc e w1
    | OutOfFuel => TypedefMethodGenerator.constructors fuel g w = OutOfFuel
    | BadRef => TypedefMethodGenerator.constructors fuel g w = BadRef
    end.
Proof.
  intros Hs Hkw Ha Hsub Htop Hty Ht Hargs.
  destruct (TypedefMethodGenerator_init_returns w stmt s (Some c) ty t
              Hs Hkw Htop Hty Ht)
    as (g & root & Hinit & Hbase & Hstmt_type & Hneeds & _ & Henum & Hpattern).
  assert (MethodGenerator.stmt (TypedefMethodGenerator.base g) = stmt) as Hgs
    by (by rewrite Hbase).
  assert (MethodGenerator.ctx (TypedefMethodGenerator.base g) = Some c) as Hgc
    by (by rewrite Hbase).
  assert (MethodGenerator.is_container (TypedefMethodGenerator.base g) = false) as Hgcont
    by (by rewrite Hbase).
  assert (MethodGenerator.is_list (TypedefMethodGenerator.base g) = false) as Hglist
    by (by rewrite Hbase).
  assert (∀ kw l, l = search_in (store w) kw (substmts t) →
            TypedefMethodGenerator.args_of l w = Ret (arg_text (store w) <$> l) w)
    as Hargs_of.
  { intros kw l ->. apply args_of_returns. intros r Hr.
    destruct (search_in_elem _ _ _ _ Hr) as (x & Hx & _).
    destruct (Hargs r x (search_in_subset _ _ _ _ Hr) Hx) as [ax Hax]. eauto. }
  (* the checker *)
  set (checker0 :=
         JavaMethod.add_exception "YangException"
           (JavaMethod.add_javadoc "Checks all restrictions (if any)."
              (JavaMethod.init ["public"; "void"] "check"))).
  set (enums := search_in (store w) "enum" (substmts t)) in *.
  set (patterns := search_in (store w) "pattern" (substmts t)) in *.
  set (lines1 := TypedefMethodGenerator.enum_lines (arg_text (store w) <$> enums)).
  set (lines2 := TypedefMethodGenerator.pattern_lines (arg_text (store w) <$> patterns)).
  set (checker2 := foldl (λ m l, JavaMethod.add_line l m)
                         (foldl (λ m l, JavaMethod.add_line l m) checker0 lines1) lines2).
  destruct (fix_imports_returns (TypedefMethodGenerator.base g) checker2 w s a c)
    as [res Hfix]; [by rewrite Hgs | done | done | done |].
  assert (TypedefMethodGenerator.checker g w =
          Ret [JavaMethod.set_imports res checker2] w) as Hchecker.
  { unfold TypedefMethodGenerator.checker. rewrite Hneeds, Henum, Hpattern.
    rewrite (bind_Ret _ _ _ _ _ (Hargs_of "enum" enums eq_refl)).
    rewrite (bind_Ret _ _ _ _ _ (Hargs_of "pattern" patterns eq_refl)).
    fold checker0 lines1 lines2 checker2.
    by rewrite (bind_Ret _ _ _ _ _ Hfix). }
  assert (JavaMethod.body checker2 = body_line <$> (lines1 ++ lines2)) as Hbody.
  { unfold checker2.
    destruct (add_lines_body lines2
                (foldl (λ m l, JavaMethod.add_line l m) checker0 lines1))
      as (-> & _ & _).
    destruct (add_lines_body lines1 checker0) as (-> & -> & _).
    by rewrite fmap_app. }
  assert (JavaMethod.name checker2 = Some "check") as Hname.
  { unfold checker2.
    destruct (add_lines_body lines2
                (foldl (λ m l, JavaMethod.add_line l m) checker0 lines1))
      as (_ & _ & ->).
    by destruct (add_lines_body lines1 checker0) as (_ & _ & ->). }
  exists g, (JavaMethod.set_imports res checker2).
  split; [exact Hinit |].
  split; [exact Hchecker |].
  split; [exact Hname |].
  split; [exact Hbody |].
  split.
  { intros He Hp. change (JavaMethod.body checker2 = []).
    rewrite Hbody. unfold lines1, lines2. by rewrite He, Hp. }
  (* the constructors *)
  pose proof (keeps_store_get_types fuel (Some ty) (Some c) w) as Hst.
  unfold TypedefMethodGenerator.constructors. rewrite Hstmt_type, Hgc.
  destruct (get_types fuel (Some ty) (Some c) w) as [types w1| e w1 | |] eqn:Hget;
    [| by unfold bind; rewrite Hget ..].
  destruct (for_each_returns_Forall
              (TypedefMethodGenerator.constructor g types.2)
              (λ k, JavaMethod.body k = [body_line "super(value);"; body_line "check();"])
              (seq 0 (1 + (if TypedefMethodGenerator.is_string g then 0 else 1))) w1)
    as (cs & Hcs & Hlen & Hall).
  { intros i _.
    apply (typedef_constructor_returns g w1 s a c); try done.
    - by rewrite Hst, Hgs.
    - by rewrite Hst. }
  exists cs. split_and!.
  - by rewrite (bind_Ret _ _ _ _ _ Hget).
  - rewrite Hlen, length_seq. by destruct (TypedefMethodGenerator.is_string g).
  - exact Hall.
Qed.

Lemma typedef_checker_always_generated_witness :
  (∃ g m cs,
     TypedefMethodGenerator.init 15 Examples.verbose Examples.doc = Ret g Examples.doc ∧
     TypedefMethodGenerator.checker g Examples.doc = Ret [m] Examples.doc ∧
     JavaMethod.name m = Some "check" ∧
     TypedefMethodGenerator.constructors 10 g Examples.doc = Ret cs Examples.doc ∧
     length cs = (if TypedefMethodGenerator.is_string g then 1 else 2) ∧
     Forall (λ k, JavaMethod.body k =
                    [body_line "super(value);"; body_line "check();"]) cs) ∧
  (∃ g m w1,
     TypedefMethodGenerator.init 3 Examples.verbose Examples.union_typedef
       = Ret g Examples.union_typedef ∧
     TypedefMethodGenerator.checker g Examples.union_typedef
       = Ret [m] Examples.union_typedef ∧
     JavaMethod.name m = Some "check" ∧
     TypedefMethodGenerator.constructors 10 g Examples.union_typedef
       = Exc AttributeError w1).
Proof.
  split.
  - destruct (typedef_checker_always_generated 10 Examples.doc 15
                (mkStatement "typedef" (Some "percent") [16] Absent (Some 0) (Some 0)
                             Absent Absent)
                "percent" (mkContext false true "gen") 16
                (mkStatement "type" (Some "uint8") [] Absent (Some 15) (Some 0)
                             (Present None) Absent))
      as (g & m & Hinit & Hchecker & Hname & _ & _ & Hcs).
    + reflexivity.
    + reflexivity.
    + reflexivity.
    + repeat constructor. by eexists.
    + intros tp [= <-]. by eexists.
    + reflexivity.
    + reflexivity.
    + intros r x Hr. by apply elem_of_nil in Hr.
    + change (get_types 10 (Some 16) (Some (mkContext false true "gen")) Examples.doc)
        with (Ret (A := string * string) ("com.tailf.jnc.YangUInt8", "short")
                  Examples.doc) in Hcs.
      destruct Hcs as (cs & Hcs & Hlen & Hall).
      exists g, m, cs. split_and!; assumption.
  - destruct (typedef_checker_always_generated 10 Examples.union_typedef 3
                (mkStatement "typedef" (Some "id") [4] Absent (Some 0) (Some 0)
                             Absent Absent)
                "id" (mkContext false true "gen") 4
                (mkStatement "type" (Some "union") [5; 6] Absent (Some 3) (Some 0)
                             (Present None) Absent))
      as (g & m & Hinit & Hchecker & Hname & _ & _ & Hcs).
    + reflexivity.
    + reflexivity.
    + reflexivity.
    + repeat constructor. by eexists.
    + intros tp [= <-]. by eexists.
    + reflexivity.
    + reflexivity.
    + intros r x Hr Hx.
      apply elem_of_cons in Hr as [-> | Hr];
        [| apply list_elem_of_singleton in Hr as ->];
        vm_compute in Hx; injection Hx as <-; by eexists.
    + vm_compute get_types in Hcs.
      exists g, m. eexists. split_and!; [assumption .. | exact Hcs].
Defined.

(** ** Where a second sanitization changes nothing *)

Lemma upper_not_separator (c : ascii) :
  is_separator c = false → is_separator (Py.upper c) = false.
Proof. destruct c as [[] [] [] [] [] [] [] []]; vm_compute; congruence. Qed.

Lemma separator_only_last_fixed (k : nat) : ∀ s,
  String.length s ≤ k → separator_only_last s = true → camelize_chars s = s.
Proof.
  induction k as [|k IH]; intros [|c [|n rest]] Hk Hs; try done; cbn in Hk; [lia |].
  rewrite camelize_chars_step.
  cbn [separator_only_last] in Hs. apply andb_true_iff in Hs as [Hc Hs].
  apply negb_true_iff in Hc. rewrite Hc.
  rewrite (IH (String n rest)); [done | cbn; lia | done].
Qed.

Lemma camelize_chars_separator_only_last (k : nat) : ∀ s,
  String.length s ≤ k → no_adjacent_separators s = true →
  separator_only_last (camelize_chars s) = true.
Proof.
  induction k as [k IH] using lt_wf_ind.
  intros [|c [|n rest]] Hk Hs; [done | done |].
  rewrite camelize_chars_step. cbn in Hk.
  cbn [no_adjacent_separators] in Hs. apply andb_true_iff in Hs as [Hcn Hs].
  destruct (is_separator c) eqn:Hc.
  - cbn in Hcn. apply negb_true_iff in Hcn.
    assert (no_adjacent_separators rest = true) as Hrest.
    { destruct rest as [|m rest]; [done |].
      cbn [no_adjacent_separators] in Hs. by apply andb_true_iff in Hs as [_ Hs]. }
    pose proof (IH (String.length rest) ltac:(lia) rest ltac:(lia) Hrest) as Hr.
    destruct (camelize_chars rest) as [|x y] eqn:Hcr; [done |].
    cbn [separator_only_last]. rewrite (upper_not_separator n Hcn). exact Hr.
  - pose proof (IH (String.length (String n rest)) ltac:(cbn; lia)
                  (String n rest) ltac:(lia) Hs) as Hr.
    destruct (camelize_chars (String n rest)) as [|x y] eqn:Hcr; [done |].
    cbn [separator_only_last]. by rewrite Hc.
Qed.

(** On a name without adjacent separators [camelize] is idempotent. *)
Lemma camelize_idempotent (s : string) :
  no_adjacent_separators s = true →
  camelize (Some (camelize (Some s))) = camelize (Some s).
Proof.
  intros Hs. rewrite !camelize_Some.
  apply (separator_only_last_fixed (String.length (camelize_chars s))); [done |].
  by apply (camelize_chars_separator_only_last (String.length s)).
Qed.

Lemma reserved_words_not_J (x : string) :
  Py.mem ("J" +:+ x) java_reserved_words = false.
Proof.
  apply bool_decide_eq_false. unfold java_reserved_words.
  change ("J" +:+ x) with (String "J" x).
  intros Hx. repeat (apply elem_of_cons in Hx as [Hx | Hx]; [discriminate |]).
  by apply elem_of_nil in Hx.
Qed.

(** On such a name the renaming of [make_valid_identifier] is idempotent
    too: the marker is not added twice and a marked name is not a
    reserved word. *)
Lemma valid_identifier_idempotent (a : string) :
  no_adjacent_separators a = true →
  valid_identifier (valid_identifier a) = valid_identifier a.
Proof.
  intros Ha. unfold valid_identifier.
  destruct (Py.mem (camelize (Some a)) java_reserved_words) eqn:Hr.
  - assert (camelize (Some ("J" +:+ camelize (Some a))) = "J" +:+ camelize (Some a))
      as ->.
    { rewrite !camelize_Some.
      apply (separator_only_last_fixed _ _ (le_n _)).
      change ("J" +:+ ?x) with (String "J" x).
      pose proof (camelize_chars_separator_only_last _ a (le_n _) Ha) as Hs.
      by destruct (camelize_chars a). }
    by rewrite reserved_words_not_J.
  - by rewrite (camelize_idempotent a Ha), Hr.
Qed.

Lemma truthy_append_J (x : string) : Py.truthy ("J" +:+ x) = true.
Proof. done. Qed.

Lemma valid_identifier_truthy (a : string) : a ≠ "" → Py.truthy (valid_identifier a) = true.
Proof.
  intros Ha. unfold valid_identifier.
  destruct (Py.mem _ _); [done |].
  rewrite camelize_Some.
  pose proof (camelize_chars_nonempty a Ha). by destruct (camelize_chars a).
Qed.

Lemma sanitized_shape (s : Statement) :
  keyword (sanitized s) = keyword s ∧
  substmts (sanitized s) = substmts s ∧
  i_children (sanitized s) = i_children s.
Proof.
  unfold sanitized. destruct (arg s); [| done].
  by destruct (negb _ && _).
Qed.

Lemma sanitized_children (s : Statement) : children (sanitized s) = children s.
Proof.
  unfold children. destruct (sanitized_shape s) as (_ & -> & ->). done.
Qed.

Lemma sanitized_idempotent (s : Statement) :
  (∀ a, Py.mem (keyword s) immutable_stmts = false → arg s = Some a →
        no_adjacent_separators a = true) →
  sanitized (sanitized s) = sanitized s.
Proof.
  intros Hok. unfold sanitized at 2 3.
  destruct (arg s) as [a|] eqn:Ha; [| unfold sanitized; by rewrite Ha].
  destruct (Py.mem (keyword s) immutable_stmts) eqn:Hkw; cbn [negb andb].
  { unfold sanitized. by rewrite Ha, Hkw. }
  destruct (Py.truthy a) eqn:Ht.
  - unfold sanitized. cbn [arg with_arg keyword]. rewrite Hkw. cbn [negb andb].
    rewrite valid_identifier_truthy by (by destruct a).
    rewrite valid_identifier_idempotent by (by apply Hok). done.
  - unfold sanitized. by rewrite Ha, Hkw, Ht.
Qed.

Lemma names_settle (st : gmap ref Statement) :
  names_without_adjacent_separators st → settles st.
Proof.
  intros Hok r s Hs. apply sanitized_idempotent. intros a Hkw Ha.
  by apply (Hok r s a).
Qed.

Lemma evolves_refl (st : gmap ref Statement) : evolves st st.
Proof. intros r. destruct (st !! r); [by left | done]. Qed.

Lemma evolves_trans (st1 st2 st3 : gmap ref Statement) :
  settles st1 → evolves st1 st2 → evolves st2 st3 → evolves st1 st3.
Proof.
  intros Hset H12 H23 r. specialize (H12 r). specialize (H23 r).
  destruct (st1 !! r) as [s|] eqn:Hs.
  - destruct H12 as [H12 | H12]; rewrite H12 in H23.
    + done.
    + destruct H23 as [H23 | H23]; [by right |].
      right. by rewrite H23, (Hset r s Hs).
  - by rewrite H12 in H23.
Qed.

Lemma settles_evolves (st st' : gmap ref Statement) :
  settles st → evolves st st' → settles st'.
Proof.
  intros Hset Hev r s' Hs'. specialize (Hev r).
  destruct (st !! r) as [s|] eqn:Hs; [| congruence].
  destruct Hev as [Hev | Hev]; rewrite Hev in Hs'; injection Hs' as <-.
  - by apply (Hset r).
  - by rewrite !(Hset r s Hs).
Qed.

Lemma evolves_insert (st : gmap ref Statement) (r : ref) (s : Statement) :
  st !! r = Some s → evolves st (<[r := sanitized s]> st).
Proof.
  intros Hs r'. destruct (decide (r = r')) as [<- | Hne].
  - rewrite Hs, lookup_insert_eq. by right.
  - rewrite lookup_insert_ne by done. destruct (st !! r'); [by left | done].
Qed.

Lemma tree_at_evolves (fuel : nat) : ∀ st st' r,
  evolves st st' → tree_at fuel st r → tree_at fuel st' r.
Proof.
  induction fuel as [|fuel IH]; intros st st' r Hev; [done |].
  intros (s & Hs & Hic & Hch). cbn.
  pose proof (Hev r) as Hr. rewrite Hs in Hr.
  assert (Forall (tree_at fuel st') (children s)) as Hch'.
  { eapply Forall_impl; [exact Hch |]. intros c. by apply IH. }
  destruct Hr as [Hr | Hr].
  - by exists s.
  - exists (sanitized s). rewrite sanitized_children.
    destruct (sanitized_shape s) as (_ & _ & ->). done.
Qed.

Lemma sanitized_at_evolves (fuel : nat) : ∀ st st' r,
  evolves st st' → sanitized_at fuel st r → sanitized_at fuel st' r.
Proof.
  induction fuel as [|fuel IH]; intros st st' r Hev; [done |].
  intros (s & Hs & Hfix & Hic & Hch). cbn.
  pose proof (Hev r) as Hr. rewrite Hs, Hfix in Hr.
  exists s. split_and!; [by destruct Hr | done | done |].
  eapply Forall_impl; [exact Hch |]. intros c. by apply IH.
Qed.

Lemma make_valid_identifier_sanitizes (w : world) (r : ref) (s : Statement) :
  store w !! r = Some s →
  make_valid_identifier r w = Ret r (with_store w (<[r := sanitized s]> (store w))).
Proof.
  intros Hs. unfold sanitized.
  destruct (arg s) as [a|] eqn:Ha.
  - destruct (Py.mem (keyword s) immutable_stmts) eqn:Hkw.
    + rewrite (make_valid_identifier_keeps w r s Hs) by (by left).
      cbn [negb andb]. by rewrite insert_id, with_store_id.
    + destruct a as [|c a].
      * rewrite (make_valid_identifier_keeps w r s Hs) by (by right; right).
        cbn [negb andb Py.truthy]. by rewrite insert_id, with_store_id.
      * by rewrite (make_valid_identifier_rewrites w r s _ Hs Hkw Ha).
  - rewrite (make_valid_identifier_keeps w r s Hs) by (by right; left).
    by rewrite insert_id, with_store_id.
Qed.

Lemma with_substmts_id (s : Statement) : with_substmts s (substmts s) = s.
Proof. by destruct s. Qed.

Lemma with_i_children_id (s : Statement) (l : list ref) :
  i_children s = Present (Some l) → with_i_children s l = s.
Proof. destruct s. cbn. by intros ->. Qed.

Lemma set_substmts_same (w : world) (r : ref) (s : Statement) :
  store w !! r = Some s → set_substmts r (substmts s) w = Ret tt w.
Proof.
  intros Hs. unfold set_substmts. rewrite Hs, with_substmts_id.
  by rewrite insert_id, with_store_id.
Qed.

Lemma set_i_children_same (w : world) (r : ref) (s : Statement) (l : list ref) :
  store w !! r = Some s → i_children s = Present (Some l) →
  set_i_children r l w = Ret tt w.
Proof.
  intros Hs Hl. unfold set_i_children. rewrite Hs, with_i_children_id by done.
  by rewrite insert_id, with_store_id.
Qed.

(** A pass over a sanitized graph changes nothing. *)
Lemma make_valid_identifiers_sanitized (fuel : nat) : ∀ r w,
  sanitized_at fuel (store w) r → make_valid_identifiers fuel r w = Ret r w.
Proof.
  induction fuel as [|fuel IH]; intros r w; [done |].
  intros (s & Hs & Hfix & Hic & Hch).
  unfold children in Hch. apply Forall_app in Hch as [Hsub Hich].
  assert (∀ l, Forall (sanitized_at fuel (store w)) l →
               for_each (make_valid_identifiers fuel) l w = Ret l w) as Hloop.
  { intros l Hl. rewrite <- (list_fmap_id l) at 2.
    apply for_each_returns_fmap. intros c Hc.
    rewrite Forall_forall in Hl. by apply IH, Hl. }
  cbn [make_valid_identifiers].
  rewrite (bind_Ret _ _ w w r).
  2:{ rewrite (make_valid_identifier_sanitizes w r s Hs), Hfix.
      by rewrite insert_id, with_store_id. }
  rewrite (bind_Ret _ _ _ _ _ (deref_eq _ _ _ Hs)).
  rewrite (bind_Ret _ _ _ _ _ (Hloop _ Hsub)).
  rewrite (bind_Ret _ _ _ _ _ (set_substmts_same w r s Hs)).
  rewrite (bind_Ret _ _ w w tt); [done |].
  unfold except_AttributeError_pass.
  rewrite (bind_Ret _ _ _ _ _ (deref_eq _ _ _ Hs)).
  destruct (i_children s) as [|[l|]] eqn:Hl; [done | | done].
  rewrite (bind_Ret _ _ _ _ _ (Hloop _ Hich)).
  by rewrite (set_i_children_same w r s l Hs Hl).
Qed.

(** The first pass over a statement graph returns and leaves it
    sanitized, when a second renaming of a statement changes nothing. *)
Lemma make_valid_identifiers_first_pass (fuel : nat) : ∀ r w,
  tree_at fuel (store w) r → settles (store w) →
  ∃ w1, make_valid_identifiers fuel r w = Ret r w1 ∧
        evolves (store w) (store w1) ∧
        sanitized_at fuel (store w1) r.
Proof.
  induction fuel as [|fuel IH]; intros r w; [done |].
  intros (s & Hs & Hic & Hch) Hset.
  assert (∀ l w, Forall (tree_at fuel (store w)) l → settles (store w) →
            ∃ w1, for_each (make_valid_identifiers fuel) l w = Ret l w1 ∧
                  evolves (store w) (store w1) ∧
                  Forall (sanitized_at fuel (store w1)) l) as Hloop.
  { clear -IH. induction l as [|c l IHl]; intros w Hl Hset.
    - exists w. split_and!; [done | apply evolves_refl | done].
    - apply Forall_cons in Hl as [Hc Hl].
      destruct (IH c w Hc Hset) as (wa & Hrun & Hev & Hsan).
      destruct (IHl wa) as (wb & Hrunl & Hevl & Hsanl).
      { eapply Forall_impl; [exact Hl |]. intros x. by apply tree_at_evolves. }
      { by apply (settles_evolves (store w)). }
      exists wb. split_and!.
      + cbn. rewrite (bind_Ret _ _ _ _ _ Hrun), (bind_Ret _ _ _ _ _ Hrunl). done.
      + by apply (evolves_trans _ (store wa)).
      + apply Forall_cons. split; [| done].
        by apply (sanitized_at_evolves fuel (store wa)). }
  unfold children in Hch. apply Forall_app in Hch as [Hsub Hich].
  pose proof (Hset r s Hs) as Hidem.
  (* the statement itself *)
  set (wa := with_store w (<[r := sanitized s]> (store w))).
  assert (evolves (store w) (store wa)) as Hev_a by (by apply evolves_insert).
  assert (store wa !! r = Some (sanitized s)) as Hsa by apply lookup_insert_eq.
  destruct (sanitized_shape s) as (_ & Hsub_eq & Hic_eq).
  (* its substatements *)
  destruct (Hloop (substmts s) wa) as (wb & Hrun_b & Hev_b & Hsan_b).
  { eapply Forall_impl; [exact Hsub |]. intros x. by apply tree_at_evolves. }
  { by apply (settles_evolves (store w)). }
  assert (store wb !! r = Some (sanitized s)) as Hsb.
  { pose proof (Hev_b r) as Hr. rewrite Hsa, Hidem in Hr. by destruct Hr. }
  assert (evolves (store w) (store wb)) as Hev_wb
    by (by apply (evolves_trans _ (store wa))).
  (* its i_children *)
  assert (∃ wc, except_AttributeError_pass
                  (do s0 <- deref r ;;
                   match i_children s0 with
                   | Absent => raise AttributeError
                   | Present None => raise TypeError
                   | Present (Some children) =>
                       do valid_i_children <-
                         for_each (make_valid_identifiers fuel) children ;;
                       set_i_children r valid_i_children
                   end) wb = Ret tt wc ∧
                evolves (store wb) (store wc) ∧
                Forall (sanitized_at fuel (store wc))
                       (match i_children s with
                        | Present (Some l) => l
                        | _ => []
                        end)) as (wc & Hrun_c & Hev_c & Hsan_c).
  { unfold except_AttributeError_pass.
    rewrite (bind_Ret _ _ _ _ _ (deref_eq _ _ _ Hsb)), Hic_eq.
    destruct (i_children s) as [|[l|]] eqn:Hl; [| | done].
    - exists wb. split_and!; [done | apply evolves_refl | done].
    - destruct (Hloop l wb) as (wc & Hrun_c & Hev_c & Hsan_c).
      { eapply Forall_impl; [exact Hich |]. intros x. by apply tree_at_evolves. }
      { by apply (settles_evolves (store w)). }
      assert (store wc !! r = Some (sanitized s)) as Hsc.
      { pose proof (Hev_c r) as Hr. rewrite Hsb, Hidem in Hr. by destruct Hr. }
      exists wc. rewrite (bind_Ret _ _ _ _ _ Hrun_c).
      rewrite (set_i_children_same wc r (sanitized s) l Hsc) by (by rewrite Hic_eq).
      done. }
  exists wc. split_and!.
  - cbn [make_valid_identifiers].
    rewrite (bind_Ret _ _ _ _ _ (make_valid_identifier_sanitizes w r s Hs)).
    fold wa. rewrite (bind_Ret _ _ _ _ _ (deref_eq _ _ _ Hsa)), Hsub_eq.
    rewrite (bind_Ret _ _ _ _ _ Hrun_b).
    rewrite <- Hsub_eq.
    rewrite (bind_Ret _ _ _ _ _ (set_substmts_same wb r (sanitized s) Hsb)).
    by rewrite (bind_Ret _ _ _ _ _ Hrun_c).
  - apply (evolves_trans _ (store wb)); [done | done | done].
  - exists (sanitized s). split_and!.
    + pose proof (Hev_c r) as Hr. rewrite Hsb, Hidem in Hr. by destruct Hr.
    + done.
    + by rewrite Hic_eq.
    + rewrite sanitized_children. unfold children. apply Forall_app. split; [| done].
      eapply Forall_impl; [exact Hsan_b |]. intros x.
      by apply sanitized_at_evolves.
Qed.

(** Where C1 holds: on a statement graph whose names have no two adjacent
    separators, the sanitization pass returns, and a second pass over the
    result returns the same world, unchanged. *)
Lemma make_valid_identifiers_idempotent (fuel : nat) (r : ref) (w : world) :
  tree_at fuel (store w) r →
  names_without_adjacent_separators (store w) →
  ∃ w1, make_valid_identifiers fuel r w = Ret r w1 ∧
        make_valid_identifiers fuel r w1 = Ret r w1.
Proof.
  intros Htree Hnames.
  destruct (make_valid_identifiers_first_pass fuel r w Htree (names_settle _ Hnames))
    as (w1 & Hrun & _ & Hsan).
  exists w1. split; [done |]. by apply make_valid_identifiers_sanitized.
Qed.

(** ** The number of key constructors of a list *)

Lemma bind_inv {A B} (m : M A) (k : A → M B) (w w' : world) (b : B) :
  bind m k w = Ret b w' → ∃ a w1, m w = Ret a w1 ∧ k a w1 = Ret b w'.
Proof.
  unfold bind. destruct (m w) as [a w1| | |]; [| done..].
  intros Hk. by exists a, w1.
Qed.

Lemma for_each_length {A B} (f : A → M B) (l : list A) : ∀ w w' ys,
  for_each f l w = Ret ys w' → length ys = length l.
Proof.
  induction l as [|x l IH]; intros w w' ys; cbn.
  - by intros [= <- _].
  - intros (y & w1 & _ & (ys' & w2 & Hys & [= <- _])%bind_inv)%bind_inv.
    cbn. f_equal. by apply (IH w1 w2).
Qed.

Lemma search_one_in_arg (st : gmap ref Statement) (kw a : string)
    (l : list ref) (r : ref) :
  search_one_in st kw (Some a) l = Some r → ∃ c, st !! r = Some c ∧ arg c = Some a.
Proof.
  induction l as [|ch l IH]; [done |]. cbn.
  destruct (st !! ch) as [c|] eqn:Hc; [| done].
  destruct (bool_decide (keyword c = kw)); cbn [andb]; [| done].
  destruct (bool_decide (arg c = Some a)) eqn:Ha; [| done].
  intros [= <-]. exists c. by apply bool_decide_eq_true in Ha.
Qed.

Lemma for_each_search_one_world (s : Statement) (kw : string) (keys : list string) :
  ∀ w w' rs,
    for_each (λ k, search_one s kw (Some k)) keys w = Ret rs w' → w' = w.
Proof.
  intros w w' rs Hrun.
  assert (reader (for_each (λ k, search_one s kw (Some k)) keys)) as Hr
    by (apply reader_for_each; intros; apply reader_search_one).
  by destruct (reader_returns _ w w _ _ Hr Hrun eq_refl).
Qed.

(** The test of [value_constructors] on the leaf found for the key [k]
    says whether [k], the name of the leaf, differs from [string]. *)
Lemma key_tests (w : world) (s : Statement) (keys : list string) :
  ∀ tests w',
    (do key_stmts <- for_each (λ k, search_one s "leaf" (Some k)) keys ;;
     for_each ListMethodGenerator.not_named_string key_stmts) w = Ret tests w' →
    w' = w ∧ tests = (λ k, negb (bool_decide (k = "string"))) <$> keys.
Proof.
  induction keys as [|k keys IH]; intros tests w'.
  - by intros [= <- <-].
  - cbn [for_each].
    intros (key_stmts & w1 & Hks & Htests)%bind_inv.
    apply bind_inv in Hks as (key & w2 & Hkey & Hks).
    apply bind_inv in Hks as (rest & w3 & Hrest & [= <- <-]).
    unfold search_one in Hkey. injection Hkey as <- <-.
    pose proof (for_each_search_one_world _ _ _ _ _ _ Hrest) as ->.
    cbn [for_each] in Htests.
    apply bind_inv in Htests as (t & w4 & Ht & Htests).
    apply bind_inv in Htests as (ts & w5 & Hts & [= <- <-]).
    unfold ListMethodGenerator.not_named_string in Ht.
    apply bind_inv in Ht as (leaf & w6 & Hleaf & [= <- <-]).
    destruct (search_one_in (store w) "leaf" (Some k) (substmts s)) as [r|] eqn:Hr;
      [| done].
    destruct (search_one_in_arg _ _ _ _ _ Hr) as (c & Hc & Harg).
    cbn [deref_opt] in Hleaf. rewrite (deref_eq _ _ _ Hc) in Hleaf.
    injection Hleaf as <- <-.
    destruct (IH ts w5) as [-> ->].
    { by rewrite (bind_Ret _ _ _ _ _ Hrest). }
    split; [done |]. cbn. f_equal. rewrite Harg.
    destruct (decide (k = "string")) as [-> | Hne].
    + by rewrite !bool_decide_eq_true_2.
    + rewrite !bool_decide_eq_false_2; [done | done | congruence].
Qed.

Lemma existsb_negb_forallb {A} (p : A → bool) (l : list A) :
  existsb id ((λ x, negb (p x)) <$> l) = negb (forallb p l).
Proof.
  induction l as [|x l IH]; [done |]. cbn. rewrite IH. by destruct (p x).
Qed.

(** Whenever [value_constructors] returns, it returns three constructors
    unless every key leaf is named [string], and two in that case: the
    count follows the names of the key leaves, not their types. *)
Lemma value_constructors_count (fuel : nat) (g : ListMethodGenerator.t)
    (w w' : world) (cs : list JavaMethod.t) (s : Statement) (key : ref)
    (k : Statement) (key_arg : string) :
  ListMethodGenerator.value_constructors fuel g w = Ret cs w' →
  store w !! MethodGenerator.stmt (ListMethodGenerator.base g) = Some s →
  search_one_in (store w) "key" None (substmts s) = Some key →
  store w !! key = Some k →
  arg k = Some key_arg →
  length cs =
    if forallb (λ name, bool_decide (name = "string")) (Py.split " " key_arg)
    then 2 else 3.
Proof.
  intros Hrun Hs Hkey Hk Harg.
  unfold ListMethodGenerator.value_constructors in Hrun.
  destruct (ListMethodGenerator.is_config g); [| done]. cbn [negb] in Hrun.
  rewrite (bind_Ret _ _ _ _ _ (deref_eq _ _ _ Hs)) in Hrun.
  unfold search_one at 1 in Hrun. unfold bind at 1 in Hrun. rewrite Hkey in Hrun.
  cbn [deref_opt] in Hrun.
  rewrite (bind_Ret _ _ _ _ _ (deref_eq _ _ _ Hk)), Harg in Hrun.
  apply bind_inv in Hrun as (key_stmts & w1 & Hks & Hrun).
  apply bind_inv in Hrun as (tests & w2 & Htests & Hrun).
  destruct (key_tests w s (Py.split " " key_arg) tests w2) as [-> ->].
  { by rewrite (bind_Ret _ _ _ _ _ Hks). }
  apply for_each_length in Hrun. rewrite Hrun, length_seq.
  rewrite existsb_negb_forallb. by destruct (forallb _ _).
Qed.

(** ** More on the ordered set *)

Section OrderedSet_operations.
Context {K : Type} `{Countable K}.
Import OrderedSet.

Implicit Types (s : OrderedSet.t K) (l xs : list K) (m : gmap K (cell K)).

Lemma next_or_End l : next_or l End = head_link l.
Proof. by destruct l. Qed.

Lemma chain_segment m prev l : chain m prev l ↔ segment m prev l End.
Proof.
  revert prev. induction l as [|k l IH]; intros prev; cbn; [done |].
  by rewrite next_or_End, IH.
Qed.

Lemma next_or_app l1 l2 (nxt : link K) :
  next_or (l1 ++ l2) nxt = next_or l1 (next_or l2 nxt).
Proof. by destruct l1. Qed.

Lemma segment_app m prev l1 l2 nxt :
  segment m prev (l1 ++ l2) nxt ↔
  segment m prev l1 (next_or l2 nxt) ∧ segment m (last_link prev l1) l2 nxt.
Proof.
  revert prev. induction l1 as [|k l1 IH]; intros prev; cbn.
  - tauto.
  - rewrite next_or_app, IH. tauto.
Qed.

Lemma segment_frame m m' prev l nxt :
  (∀ k, k ∈ l → m' !! k = m !! k) →
  segment m prev l nxt → segment m' prev l nxt.
Proof.
  revert prev. induction l as [|k l IH]; intros prev Hsame; cbn; [done |].
  intros [Hk Hseg]. split.
  - rewrite Hsame by left. done.
  - apply IH; [| done]. intros k' Hk'. apply Hsame. by right.
Qed.

(** Redirecting the [NEXT] link of the last cell of a stretch. *)
Lemma segment_set_next m prev l (p : K) nxt v :
  p ∉ l → segment m prev (l ++ [p]) nxt →
  segment (alter (λ c, mkCell (ITEM c) (PREV c) v) p m) prev (l ++ [p]) v.
Proof.
  intros Hp. rewrite !segment_app. cbn. intros (Hl & Hcell & _).
  split_and!; [| | done].
  - apply (segment_frame m); [| done].
    intros k Hk. apply lookup_alter_ne. by intros ->.
  - by rewrite lookup_alter_eq, Hcell.
Qed.

(** Redirecting the [PREV] link of the first cell of a stretch. *)
Lemma segment_set_prev m prev (q : K) l nxt v :
  q ∉ l → segment m prev (q :: l) nxt →
  segment (alter (λ c, mkCell (ITEM c) v (NEXT c)) q m) v (q :: l) nxt.
Proof.
  intros Hq [Hcell Hseg]. split.
  - by rewrite lookup_alter_eq, Hcell.
  - apply (segment_frame m); [| done].
    intros k Hk. apply lookup_alter_ne. by intros ->.
Qed.

Lemma last_link_app_cons prev l1 (x : K) l2 :
  last_link prev (l1 ++ x :: l2) = last_link (Node x) l2.
Proof. revert prev. induction l1 as [|k l1 IH]; intros prev; cbn; [done | apply IH]. Qed.

Lemma last_link_snoc_app prev l1 l2 :
  l2 ≠ [] → last_link prev (l1 ++ l2) = last_link End l2.
Proof.
  destruct l2 as [|x l2]; [done |]. intros _.
  by rewrite last_link_app_cons.
Qed.

Lemma filter_ne_middle l1 (x : K) l2 :
  NoDup (l1 ++ x :: l2) → filter (λ y, y ≠ x) (l1 ++ x :: l2) = l1 ++ l2.
Proof.
  intros Hnd. apply NoDup_app in Hnd as (_ & Hx1 & Hnd2).
  apply NoDup_cons in Hnd2 as [Hx2 _].
  assert (∀ l, x ∉ l → filter (λ y, y ≠ x) l = l) as Hid.
  { induction l as [|a l IH]; intros Hl; [done |].
    apply not_elem_of_cons in Hl as [Hne Hl].
    rewrite filter_cons_True by done. f_equal. auto. }
  rewrite filter_app, filter_cons_False by (intros ?; done).
  rewrite !Hid; [done | done |].
  intros Hin. apply (Hx1 x Hin). left.
Qed.

(** [add_first] of a new item links it in at the front. *)
Lemma represents_add_first s l (x : K) :
  represents s l → x ∉ l → represents (add_first x s) (x :: l).
Proof.
  intros Hrep Hx.
  pose proof (represents_contains s l x Hrep) as Hc.
  rewrite bool_decide_eq_false_2 in Hc by done.
  destruct Hrep as (Hnd & Hdom & Hnext & Hprev & Hch).
  unfold add_first. rewrite Hc. cbn [end_PREV end_NEXT map]. rewrite Hnext.
  assert (NoDup (x :: l)) as Hnd' by (by apply NoDup_cons).
  destruct l as [|q l].
  - cbn [head_link set_PREV end_PREV end_NEXT map].
    split_and!; cbn [end_PREV end_NEXT map head_link last_link chain]; try done.
    + intros k. rewrite lookup_insert_is_Some', Hdom.
      rewrite list_elem_of_singleton. split; [intros [->|?%elem_of_nil]; done | by left].
    + by rewrite lookup_insert_eq.
  - cbn [head_link set_PREV end_PREV end_NEXT map].
    assert (q ≠ x) as Hqx by (intros ->; apply Hx; left).
    apply NoDup_cons in Hnd as [Hq Hnd].
    refine (conj _ (conj _ (conj _ (conj _ _)))); cbn [end_PREV end_NEXT map].
    + done.
    + intros k. rewrite lookup_alter_is_Some, lookup_insert_is_Some', Hdom.
      rewrite (elem_of_cons (q :: l)).
      split; [intros [-> | ?]; [by left | by right] | intros [-> | ?]; [by left | by right]].
    + done.
    + by rewrite Hprev.
    + apply chain_segment. cbn [segment next_or]. split.
      * rewrite lookup_alter_ne, lookup_insert_eq by done. done.
      * apply (segment_set_prev _ End); [done |].
        apply (segment_frame (map s)); [| by apply chain_segment].
        intros k Hk. apply lookup_insert_ne. by intros <-.
Qed.

(** [discard] of an item unlinks its cell and leaves the others in place. *)
Lemma represents_discard_middle s l1 (x : K) l2 :
  represents s (l1 ++ x :: l2) → represents (discard x s) (l1 ++ l2).
Proof.
  intros (Hnd & Hdom & Hnext & Hprev & Hch).
  apply chain_segment, segment_app in Hch. destruct Hch as [Hseg1 [Hcell Hseg2]].
  cbn [next_or] in Hseg1.
  apply NoDup_app in Hnd as (Hnd1 & Hx1 & Hnd2).
  apply NoDup_cons in Hnd2 as [Hx2 Hnd2].
  assert (x ∉ l1) as Hxl1 by (intros Hin; apply (Hx1 x Hin); left).
  assert (∀ k, k ∈ l1 → k ∉ l2) as Hdisj
    by (intros k Hk Hk2; apply (Hx1 k Hk); by right).
  assert (NoDup (l1 ++ l2)) as Hnd' by (apply NoDup_app; split_and!; done).
  assert (∀ k, (x ≠ k ∧ is_Some (map s !! k)) ↔ k ∈ l1 ++ l2) as Hdom'.
  { intros k. rewrite Hdom, !elem_of_app, elem_of_cons. split.
    - intros [Hne [?|[->|?]]]; [by left | done | by right].
    - intros [Hk|Hk]; (split; [by intros <- |]); [by left | by right; right]. }
  assert (segment (delete x (map s)) End l1 (Node x)) as Hd1.
  { apply (segment_frame (map s)); [| done].
    intros k Hk. apply lookup_delete_ne. by intros ->. }
  assert (segment (delete x (map s)) (Node x) l2 End) as Hd2.
  { apply (segment_frame (map s)); [| done].
    intros k Hk. apply lookup_delete_ne. by intros ->. }
  unfold discard. rewrite Hcell. cbn [PREV NEXT end_PREV end_NEXT map].
  destruct l1 as [|p l1 _] using rev_ind; destruct l2 as [|q l2].
  - cbn [last_link next_or set_NEXT set_PREV end_PREV end_NEXT map app].
    refine (conj _ (conj _ (conj _ (conj _ _)))); cbn [end_PREV end_NEXT map]; try done.
    intros k. rewrite lookup_delete_is_Some. apply Hdom'.
  - cbn [last_link next_or set_NEXT set_PREV end_PREV end_NEXT map app].
    refine (conj _ (conj _ (conj _ (conj _ _)))); cbn [end_PREV end_NEXT map]; try done.
    + intros k. rewrite lookup_alter_is_Some, lookup_delete_is_Some. apply Hdom'.
    + apply chain_segment.
      apply NoDup_cons in Hnd2 as [Hq _].
      by apply (segment_set_prev _ (Node x)).
  - rewrite last_link_app.
    cbn [next_or set_NEXT set_PREV end_PREV end_NEXT map].
    rewrite app_nil_r in *.
    refine (conj _ (conj _ (conj _ (conj _ _)))); cbn [end_PREV end_NEXT map]; try done.
    + intros k. rewrite lookup_alter_is_Some, lookup_delete_is_Some. apply Hdom'.
    + rewrite Hnext. by destruct l1.
    + by rewrite last_link_app.
    + apply chain_segment.
      apply (segment_set_next _ _ _ _ (Node x)); [| done].
      by apply NoDup_app in Hnd1 as (_ & Hp & _); intros Hin; apply (Hp p Hin); left.
  - rewrite last_link_app.
    cbn [next_or set_NEXT set_PREV end_PREV end_NEXT map].
    assert (p ≠ q) as Hpq.
    { intros Heq. apply (Hdisj p); [apply elem_of_app; right; left | rewrite Heq; left]. }
    refine (conj _ (conj _ (conj _ (conj _ _)))); cbn [end_PREV end_NEXT map]; try done.
    + intros k. rewrite !lookup_alter_is_Some, lookup_delete_is_Some. apply Hdom'.
    + rewrite Hnext. by destruct l1.
    + rewrite Hprev. by rewrite !last_link_app_cons.
    + apply chain_segment, segment_app. split.
      * apply (segment_frame (alter (λ c, mkCell (ITEM c) (PREV c) (Node q)) p
                                    (delete x (map s)))).
        { intros k Hk. apply lookup_alter_ne. intros Heq.
          apply (Hdisj k Hk). rewrite <- Heq. left. }
        apply (segment_set_next _ _ _ _ (Node x)); [| done].
        apply NoDup_app in Hnd1 as (_ & Hp & _). intros Hin. apply (Hp p Hin). left.
      * rewrite last_link_app.
        apply NoDup_cons in Hnd2 as [Hq _].
        apply (segment_set_prev _ (Node x)); [done |].
        apply (segment_frame (delete x (map s))); [| done].
        intros k Hk. apply lookup_alter_ne. intros Heq.
        apply (Hdisj p); [apply elem_of_app; right; left | by rewrite Heq].
Qed.

Lemma discard_absent s (x : K) : contains x s = false → discard x s = s.
Proof.
  unfold contains, discard. intros Hc.
  apply bool_decide_eq_false_1 in Hc.
  destruct (map s !! x) eqn:E; [| done].
  exfalso. apply Hc. by exists c.
Qed.

(** [discard] removes the item, if present, and keeps the order. *)
Lemma represents_discard s l (x : K) :
  represents s l → represents (discard x s) (filter (λ y, y ≠ x) l).
Proof.
  intros Hrep. destruct (decide (x ∈ l)) as [Hx | Hx].
  - apply list_elem_of_split in Hx as (l1 & l2 & ->).
    rewrite filter_ne_middle by apply Hrep.
    by apply represents_discard_middle.
  - rewrite discard_absent.
    + assert (filter (λ y, y ≠ x) l = l) as ->; [| done].
      clear Hrep. induction l as [|a l IH]; [done |].
      apply not_elem_of_cons in Hx as [Hne Hl].
      rewrite filter_cons_True by done. f_equal. auto.
    + rewrite (represents_contains s l x Hrep). by apply bool_decide_eq_false_2.
Qed.

(** The walk along the [PREV] links yields a stretch backwards. *)
Lemma iterate_PREV_segment l : ∀ s prev nxt fuel,
  segment (map s) prev l nxt →
  iterate_PREV (length l + fuel) s (last_link prev l) =
  (λ r, reverse l ++ r) <$> iterate_PREV fuel s prev.
Proof.
  induction l as [|x l IH] using rev_ind; intros s prev nxt fuel Hseg.
  - cbn. by destruct (iterate_PREV fuel s prev).
  - apply segment_app in Hseg as [Hl [Hcell _]].
    rewrite last_link_app, length_app, reverse_snoc. cbn [length].
    replace (length l + 1 + fuel) with (S (length l + fuel)) by lia.
    cbn [iterate_PREV]. rewrite Hcell. cbn [ITEM PREV].
    rewrite (IH s prev (Node x) fuel Hl).
    by destruct (iterate_PREV fuel s prev).
Qed.

Lemma represents_reversed s l : represents s l → reversed s = Some (reverse l).
Proof.
  intros Hrep. unfold reversed.
  rewrite (represents_len s l Hrep).
  destruct Hrep as (_ & _ & _ & -> & Hch).
  apply chain_segment in Hch.
  replace (length l) with (length l + 0) by lia.
  rewrite (iterate_PREV_segment l s End End 0 Hch).
  cbn. by rewrite app_nil_r.
Qed.

Lemma represents_nil s : represents s [] → s = empty.
Proof.
  intros (_ & Hdom & Hnext & Hprev & _). destruct s as [p n m].
  cbn in *. subst. unfold empty. f_equal.
  apply map_empty. intros k. apply eq_None_not_Some.
  rewrite Hdom. apply not_elem_of_nil.
Qed.

Lemma snoc_case l : l = [] ∨ ∃ l' (x : K), l = l' ++ [x].
Proof. destruct l as [|x l _] using rev_ind; [by left | right; by exists l, x]. Qed.

Lemma represents_pop s l (at_end : bool) :
  represents s l →
  pop at_end s =
  match (if at_end then last l else head l) with
  | None => PopKeyError
  | Some x => Popped x (discard x s)
  end.
Proof.
  intros Hrep. unfold pop. rewrite (represents_len s l Hrep).
  destruct Hrep as (Hnd & Hdom & Hnext & Hprev & Hch).
  apply chain_segment in Hch.
  destruct l as [|a l]; [by destruct at_end |].
  rewrite bool_decide_eq_false_2 by done.
  destruct at_end.
  - destruct (snoc_case (a :: l)) as [? | (l' & x & Hl)]; [done |].
    rewrite Hl in *. clear Hl.
    rewrite last_snoc. rewrite Hprev, last_link_app. cbn [next_item].
    apply segment_app in Hch as [_ [Hcell _]]. by rewrite Hcell.
  - cbn [head]. rewrite Hnext. cbn [head_link next_item].
    destruct Hch as [Hcell _]. by rewrite Hcell.
Qed.

Lemma filter_ne_last l (x : K) :
  NoDup (l ++ [x]) → filter (λ y, y ≠ x) (l ++ [x]) = l.
Proof. intros Hnd. by rewrite filter_ne_middle, app_nil_r. Qed.

Lemma filter_ne_head (x : K) l :
  NoDup (x :: l) → filter (λ y, y ≠ x) (x :: l) = l.
Proof. intros Hnd. exact (filter_ne_middle [] x l Hnd). Qed.

(** Every call keeps the linked list well formed and does to it what
    the same call does to a plain list. *)
Lemma represents_apply (o : operation K) s l :
  represents s l → represents (apply o s) (apply_list o l).
Proof.
  intros Hrep. destruct o as [x | x | x | at_end]; cbn [apply apply_list].
  - destruct (decide (x ∈ l)) as [Hx | Hx].
    + rewrite add_present; [done |].
      rewrite (represents_contains s l x Hrep). by apply bool_decide_eq_true_2.
    + by apply represents_add.
  - destruct (decide (x ∈ l)) as [Hx | Hx].
    + unfold add_first. rewrite (represents_contains s l x Hrep).
      by rewrite bool_decide_eq_true_2.
    + by apply represents_add_first.
  - by apply represents_discard.
  - rewrite (represents_pop s l at_end Hrep).
    destruct at_end.
    + destruct (snoc_case l) as [-> | (l' & x & ->)]; [done |].
      rewrite last_snoc, length_app. cbn [length].
      replace (length l' + 1 - 1) with (length l') by lia.
      rewrite take_app_length.
      rewrite <- (filter_ne_last l' x) by apply Hrep.
      by apply represents_discard.
    + destruct l as [|x l]; [done |]. cbn [head drop].
      rewrite <- (filter_ne_head x l) by apply Hrep.
      by apply represents_discard.
Qed.

Lemma represents_clear l : ∀ s, represents s l → clear (length l) s = Some empty.
Proof.
  induction l as [|x l IH] using rev_ind; intros s Hrep.
  - cbn [length clear]. rewrite (represents_pop s [] true Hrep). cbn.
    by rewrite (represents_nil s Hrep).
  - rewrite length_app. cbn [length].
    replace (length l + 1) with (S (length l)) by lia.
    cbn [clear]. rewrite (represents_pop s _ true Hrep), last_snoc.
    apply IH.
    rewrite <- (filter_ne_last l x) by apply Hrep.
    by apply represents_discard.
Qed.

Lemma represents_built (ops : list (operation K)) :
  represents (built ops) (built_list ops).
Proof.
  unfold built, built_list.
  generalize (represents_empty (K:=K)).
  generalize (empty (K:=K)) ([] : list K).
  induction ops as [|o ops IH]; intros s l Hrep; cbn [foldl]; [done |].
  by apply IH, represents_apply.
Qed.

(** X1: whatever calls of [add], [add_first], [discard] and [pop] made a
    set, the linked list is well formed: iteration ends and yields what
    the same calls make of a plain list, without duplicates; [len] is the
    number of items yielded and [in] holds of exactly these items. *)
Theorem OrderedSet_iteration_after_calls (ops : list (operation K)) :
  to_list (built ops) = Some (built_list ops) ∧
  NoDup (built_list ops) ∧
  len (built ops) = length (built_list ops) ∧
  (∀ x, contains x (built ops) = true ↔ x ∈ built_list ops).
Proof.
  pose proof (represents_built ops) as Hrep.
  split_and!.
  - by apply represents_to_list.
  - apply Hrep.
  - by apply represents_len.
  - intros x. rewrite (represents_contains _ _ x Hrep). apply bool_decide_eq_true.
Qed.

(** X2: [reversed] yields the items of the set in the opposite order of
    iteration. *)
Theorem OrderedSet_reversed_is_reverse (ops : list (operation K)) :
  reversed (built ops) = reverse <$> to_list (built ops).
Proof.
  pose proof (represents_built ops) as Hrep.
  by rewrite (represents_reversed _ _ Hrep), (represents_to_list _ _ Hrep).
Qed.

(** X3: [add_first] with an item the set does not contain puts it before
    all the others, which keep their order; the length grows by one. *)
Theorem OrderedSet_add_first_new (ops : list (operation K)) (item : K) :
  contains item (built ops) = false →
  to_list (add_first item (built ops)) = (λ l, item :: l) <$> to_list (built ops) ∧
  len (add_first item (built ops)) = S (len (built ops)).
Proof.
  intros Hc.
  pose proof (represents_built ops) as Hrep.
  rewrite (represents_contains _ _ item Hrep) in Hc.
  apply bool_decide_eq_false_1 in Hc.
  pose proof (represents_add_first _ _ item Hrep Hc) as Hrep'.
  rewrite (represents_to_list _ _ Hrep'), (represents_to_list _ _ Hrep).
  by rewrite (represents_len _ _ Hrep'), (represents_len _ _ Hrep).
Qed.

(** X4: [discard] removes the item and nothing else: the other items
    keep their order, the item is no longer in the set, and discarding an
    item that is not in the set changes nothing. *)
Theorem OrderedSet_discard_removes (ops : list (operation K)) (item : K) :
  to_list (discard item (built ops)) =
    filter (λ y, y ≠ item) <$> to_list (built ops) ∧
  contains item (discard item (built ops)) = false ∧
  (contains item (built ops) = false → discard item (built ops) = built ops).
Proof.
  pose proof (represents_built ops) as Hrep.
  pose proof (represents_discard _ _ item Hrep) as Hrep'.
  split_and!.
  - by rewrite (represents_to_list _ _ Hrep'), (represents_to_list _ _ Hrep).
  - rewrite (represents_contains _ _ item Hrep').
    apply bool_decide_eq_false_2. rewrite list_elem_of_filter. by intros [? _].
  - apply discard_absent.
Qed.

(** X5: [pop] raises [KeyError] exactly on an empty set; otherwise it
    returns the last item of the iteration order (the first one with
    [last=False]) and leaves the set with the other items in their
    order. *)
Theorem OrderedSet_pop_end (ops : list (operation K)) (at_end : bool) :
  ∃ l, to_list (built ops) = Some l ∧
       match pop at_end (built ops) with
       | PopKeyError => l = []
       | PopStopIteration => False
       | Popped item s' =>
           if at_end
           then l = take (length l - 1) l ++ [item] ∧
                to_list s' = Some (take (length l - 1) l)
           else l = item :: drop 1 l ∧ to_list s' = Some (drop 1 l)
       end.
Proof.
  pose proof (represents_built ops) as Hrep.
  exists (built_list ops). split; [by apply represents_to_list |].
  rewrite (represents_pop _ _ at_end Hrep).
  destruct at_end.
  - destruct (snoc_case (built_list ops)) as [Hnil | (l' & x & Hl)];
      rewrite ?Hnil, ?Hl in *; [done |].
    rewrite last_snoc, length_app. cbn [length].
    replace (length l' + 1 - 1) with (length l') by lia.
    rewrite take_app_length.
    split; [done |]. apply represents_to_list.
    rewrite <- (filter_ne_last l' x) by apply Hrep.
    by apply represents_discard.
  - destruct (built_list ops) as [|x l]; [done |].
    cbn [head drop].
    split; [done |]. apply represents_to_list.
    rewrite <- (filter_ne_head x l) by apply Hrep.
    by apply represents_discard.
Qed.

(** X6: [clear], which the destructor calls, ends and leaves the empty
    set. *)
Theorem OrderedSet_clear_empties (ops : list (operation K)) :
  clear (len (built ops)) (built ops) = Some empty.
Proof.
  pose proof (represents_built ops) as Hrep.
  rewrite (represents_len _ _ Hrep).
  by apply represents_clear.
Qed.

End OrderedSet_operations.

Lemma OrderedSet_add_first_new_witness :
  OrderedSet.contains 3
    (OrderedSet.built [OrderedSet.Add 1; OrderedSet.Add 2; OrderedSet.Discard 1]) = false ∧
  OrderedSet.to_list
    (OrderedSet.add_first 3
       (OrderedSet.built [OrderedSet.Add 1; OrderedSet.Add 2; OrderedSet.Discard 1]))
    = Some [3; 2].
Proof.
  split; [vm_compute; reflexivity |].
  destruct (OrderedSet_add_first_new
              [OrderedSet.Add 1; OrderedSet.Add 2; OrderedSet.Discard 1] 3)
    as [Hl _]; [vm_compute; reflexivity |].
  rewrite Hl. vm_compute. reflexivity.
Defined.

(** ** More on camelize and the sanitizer *)

Lemma camelize_chars_length (k : nat) : ∀ s,
  String.length s ≤ k → String.length (camelize_chars s) ≤ String.length s.
Proof.
  induction k as [k IH] using lt_wf_ind.
  intros [|c [|n rest]] Hk; [done | done |].
  rewrite camelize_chars_step. cbn in Hk.
  destruct (is_separator c).
  - pose proof (IH (String.length rest) ltac:(lia) rest ltac:(lia)). cbn. lia.
  - pose proof (IH (String.length (String n rest)) ltac:(cbn; lia)
                  (String n rest) ltac:(lia)) as Hr.
    cbn [String.length] in *. lia.
Qed.

(** X7: [camelize] never makes a string longer, gives the empty string
    for [None], and gives it for no string but the empty one. *)
Theorem camelize_length (s : string) :
  String.length (camelize (Some s)) ≤ String.length s ∧
  (camelize (Some s) = "" ↔ s = "") ∧
  camelize None = "".
Proof.
  rewrite camelize_Some. split_and!; [| | done].
  - by apply (camelize_chars_length (String.length s)).
  - split; [| by intros ->].
    intros Hc. destruct (decide (s = "")) as [| Hs]; [done |].
    by destruct (camelize_chars_nonempty s Hs).
Qed.

(** X8: a string without a hyphen or a dot, except possibly as its last
    character, is returned by [camelize] as it is. *)
Theorem camelize_without_separators (s : string) :
  separator_only_last s = true → camelize (Some s) = s.
Proof.
  intros Hs. rewrite camelize_Some.
  by apply (separator_only_last_fixed (String.length s)).
Qed.

Lemma camelize_without_separators_witness :
  separator_only_last "fooBar-" = true ∧ camelize (Some "fooBar-") = "fooBar-".
Proof.
  split; [vm_compute; reflexivity |].
  apply (camelize_without_separators "fooBar-"). vm_compute. reflexivity.
Defined.

(** X9: when no hyphen or dot of the string is followed at once by
    another one, the result of [camelize] has none left, except possibly
    as its last character, and [camelize] leaves the result as it is. *)
Theorem camelize_removes_separators (s : string) :
  no_adjacent_separators s = true →
  separator_only_last (camelize (Some s)) = true ∧
  camelize (Some (camelize (Some s))) = camelize (Some s).
Proof.
  intros Hs. split; [| by apply camelize_idempotent].
  rewrite camelize_Some.
  by apply (camelize_chars_separator_only_last (String.length s)).
Qed.

Lemma camelize_removes_separators_witness :
  no_adjacent_separators "foo-bar.baz-" = true ∧
  separator_only_last (camelize (Some "foo-bar.baz-")) = true ∧
  camelize (Some (camelize (Some "foo-bar.baz-"))) = camelize (Some "foo-bar.baz-").
Proof.
  split; [vm_compute; reflexivity |].
  apply (camelize_removes_separators "foo-bar.baz-"). vm_compute. reflexivity.
Defined.

(** *** The tests are sound *)

Lemma tree_atb_tree_at (fuel : nat) : ∀ st r,
  tree_atb fuel st r = true → tree_at fuel st r.
Proof.
  induction fuel as [|fuel IH]; intros st r; [done |].
  cbn [tree_atb tree_at].
  destruct (st !! r) as [s|]; [| done].
  intros [Hic Hch]%andb_true_iff.
  exists s. split_and!; [done | by intros Heq; rewrite Heq in Hic |].
  apply Forall_forall. intros c Hc.
  apply IH. rewrite forallb_forall in Hch. apply Hch. by apply list_elem_of_In.
Qed.

Lemma clean_names_sound (st : gmap ref Statement) :
  clean_names st = true → names_without_adjacent_separators st.
Proof.
  unfold clean_names. rewrite forallb_forall.
  intros Hall r s a Hs Hkw Ha.
  specialize (Hall s). rewrite Hkw, Ha in Hall. apply Hall.
  apply list_elem_of_In, list_elem_of_fmap. exists (r, s).
  split; [done |]. by apply elem_of_map_to_list.
Qed.

(** X10: on a well-formed statement graph whose names have no two
    adjacent separators, the sanitization pass returns, and a second
    pass over the result returns and changes nothing. *)
Theorem make_valid_identifiers_second_pass (fuel : nat) (r : ref) (w : world) :
  tree_atb fuel (store w) r = true →
  clean_names (store w) = true →
  ∃ w1, make_valid_identifiers fuel r w = Ret r w1 ∧
        make_valid_identifiers fuel r w1 = Ret r w1.
Proof.
  intros Htree Hnames.
  destruct (make_valid_identifiers_first_pass fuel r w)
    as (w1 & Hrun & _ & Hsan).
  - by apply tree_atb_tree_at.
  - by apply names_settle, clean_names_sound.
  - exists w1. split; [done |]. by apply make_valid_identifiers_sanitized.
Qed.

Lemma make_valid_identifiers_second_pass_witness :
  tree_atb 3 (store Examples.trailing) 0 = true ∧
  clean_names (store Examples.trailing) = true ∧
  ∃ w1, make_valid_identifiers 3 0 Examples.trailing = Ret 0 w1 ∧
        make_valid_identifiers 3 0 w1 = Ret 0 w1.
Proof.
  split; [vm_compute; reflexivity |].
  split; [vm_compute; reflexivity |].
  apply (make_valid_identifiers_second_pass 3 0 Examples.trailing);
    vm_compute; reflexivity.
Defined.

(** *** Names after the sanitization pass *)

Lemma valid_identifier_not_reserved (a : string) :
  Py.mem (valid_identifier a) java_reserved_words = false.
Proof.
  unfold valid_identifier.
  destruct (Py.mem (camelize (Some a)) java_reserved_words) eqn:Hr;
    [apply reserved_words_not_J | done].
Qed.

Lemma safe_with_arg (s : Statement) (a : string) :
  safe (with_arg s (Some (valid_identifier a))).
Proof. right. cbn. intros ? [= <-]. apply valid_identifier_not_reserved. Qed.

Lemma safe_sanitized (s : Statement) : safe (sanitized s).
Proof.
  unfold sanitized. destruct (arg s) as [a|] eqn:Ha.
  - destruct (Py.mem (keyword s) immutable_stmts) eqn:Hkw; cbn [negb andb].
    + by left.
    + destruct a as [|c a]; cbn [Py.truthy].
      * right. intros a'. rewrite Ha. by intros [= <-].
      * apply safe_with_arg.
  - right. intros a. by rewrite Ha.
Qed.

Lemma renamed_refl (st : gmap ref Statement) : renamed st st.
Proof. intros r. destruct (st !! r); [by left | done]. Qed.

Lemma renamed_trans (st1 st2 st3 : gmap ref Statement) :
  renamed st1 st2 → renamed st2 st3 → renamed st1 st3.
Proof.
  intros H12 H23 r. specialize (H12 r). specialize (H23 r).
  destruct (st1 !! r) as [s|].
  - destruct H12 as [H12 | (a & Hkw & H12)]; rewrite H12 in H23; [done |].
    destruct H23 as [H23 | (a' & _ & H23)]; right.
    + by exists a.
    + exists a'. by rewrite H23.
  - by rewrite H12 in H23.
Qed.

Lemma renamed_insert (st : gmap ref Statement) (r : ref) (s : Statement) :
  st !! r = Some s → renamed st (<[r := sanitized s]> st).
Proof.
  intros Hs r'. destruct (decide (r = r')) as [<- | Hne].
  - rewrite Hs, lookup_insert_eq. unfold sanitized.
    destruct (arg s) as [a|]; [| by left].
    destruct (Py.mem (keyword s) immutable_stmts) eqn:Hkw; cbn [negb andb]; [by left |].
    destruct (Py.truthy a); [| by left].
    right. by exists a.
  - rewrite lookup_insert_ne by done. destruct (st !! r'); [by left | done].
Qed.

(** A renaming keeps the links of a statement and a safe name safe. *)
Lemma renamed_lookup (st st' : gmap ref Statement) (r : ref) (s : Statement) :
  renamed st st' → st !! r = Some s →
  ∃ s', st' !! r = Some s' ∧ substmts s' = substmts s ∧
        i_children s' = i_children s ∧ (safe s → safe s').
Proof.
  intros Hren Hs. specialize (Hren r). rewrite Hs in Hren.
  destruct Hren as [Hr | (a & _ & Hr)].
  - by exists s.
  - exists (with_arg s (Some (valid_identifier a))).
    split_and!; [done | done | done |]. intros _. apply safe_with_arg.
Qed.

Lemma tree_at_renamed (fuel : nat) : ∀ st st' r,
  renamed st st' → tree_at fuel st r → tree_at fuel st' r.
Proof.
  induction fuel as [|fuel IH]; intros st st' r Hren; [done |].
  intros (s & Hs & Hic & Hch). cbn.
  destruct (renamed_lookup st st' r s Hren Hs) as (s' & Hs' & Hsub & Hich & _).
  exists s'. unfold children. rewrite Hsub, Hich.
  split_and!; [done | done |].
  eapply Forall_impl; [exact Hch |]. intros c. by apply IH.
Qed.

Lemma safe_at_renamed (fuel : nat) : ∀ st st' r,
  renamed st st' → safe_at fuel st r → safe_at fuel st' r.
Proof.
  induction fuel as [|fuel IH]; intros st st' r Hren; [done |].
  intros (s & Hs & Hsafe & Hch). cbn.
  destruct (renamed_lookup st st' r s Hren Hs) as (s' & Hs' & Hsub & Hich & Hsafe').
  exists s'. unfold children. rewrite Hsub, Hich.
  split_and!; [done | by apply Hsafe' |].
  eapply Forall_impl; [exact Hch |]. intros c. by apply IH.
Qed.

Lemma set_substmts_kept (w : world) (r : ref) (s : Statement) (l : list ref) :
  store w !! r = Some s → substmts s = l → set_substmts r l w = Ret tt w.
Proof. intros Hs <-. by apply set_substmts_same. Qed.

(** The pass over any well-formed statement graph returns, changes
    nothing but names, and leaves no reserved word below [r]. *)
Lemma make_valid_identifiers_safe (fuel : nat) : ∀ r w,
  tree_at fuel (store w) r →
  ∃ st1, make_valid_identifiers fuel r w = Ret r (with_store w st1) ∧
         renamed (store w) st1 ∧ safe_at fuel st1 r.
Proof.
  induction fuel as [|fuel IH]; intros r w; [done |].
  intros (s & Hs & Hic & Hch).
  assert (∀ l w, Forall (tree_at fuel (store w)) l →
            ∃ st1, for_each (make_valid_identifiers fuel) l w
                     = Ret l (with_store w st1) ∧
                   renamed (store w) st1 ∧
                   Forall (safe_at fuel st1) l) as Hloop.
  { clear -IH. induction l as [|c l IHl]; intros w Hl.
    - exists (store w). rewrite with_store_id.
      split_and!; [done | apply renamed_refl | done].
    - apply Forall_cons in Hl as [Hc Hl].
      destruct (IH c w Hc) as (sta & Hrun & Hren & Hsafe).
      destruct (IHl (with_store w sta)) as (stb & Hrunl & Hrenl & Hsafel).
      { eapply Forall_impl; [exact Hl |]. intros x. by apply tree_at_renamed. }
      exists stb. split_and!.
      + cbn. rewrite (bind_Ret _ _ _ _ _ Hrun), (bind_Ret _ _ _ _ _ Hrunl). done.
      + by apply (renamed_trans _ sta).
      + apply Forall_cons. split; [| done].
        by apply (safe_at_renamed fuel sta). }
  unfold children in Hch. apply Forall_app in Hch as [Hsub Hich].
  (* the statement itself *)
  set (sta := <[r := sanitized s]> (store w)).
  assert (renamed (store w) sta) as Hren_a by (by apply renamed_insert).
  assert (sta !! r = Some (sanitized s)) as Hsa by apply lookup_insert_eq.
  destruct (sanitized_shape s) as (_ & Hsub_eq & Hic_eq).
  (* its substatements *)
  destruct (Hloop (substmts s) (with_store w sta)) as (stb & Hrun_b & Hren_b & Hsafe_b).
  { eapply Forall_impl; [exact Hsub |]. intros x. by apply tree_at_renamed. }
  cbn [store with_store] in Hren_b. rewrite with_store_with_store in Hrun_b.
  destruct (renamed_lookup sta stb r _ Hren_b Hsa)
    as (sb & Hsb & Hsub_b & Hic_b & Hsafe_sb).
  rewrite Hsub_eq in Hsub_b. rewrite Hic_eq in Hic_b.
  pose proof (Hsafe_sb (safe_sanitized s)) as Hsafe_r.
  (* its i_children *)
  assert (∃ stc, except_AttributeError_pass
                  (do s0 <- deref r ;;
                   match i_children s0 with
                   | Absent => raise AttributeError
                   | Present None => raise TypeError
                   | Present (Some children) =>
                       do valid_i_children <-
                         for_each (make_valid_identifiers fuel) children ;;
                       set_i_children r valid_i_children
                   end) (with_store w stb) = Ret tt (with_store w stc) ∧
                renamed stb stc ∧
                Forall (safe_at fuel stc)
                       (match i_children s with
                        | Present (Some l) => l
                        | _ => []
                        end)) as (stc & Hrun_c & Hren_c & Hsafe_c).
  { unfold except_AttributeError_pass.
    rewrite (bind_Ret _ _ _ _ _ (deref_eq _ _ (with_store w stb) Hsb)), Hic_b.
    destruct (i_children s) as [|[l|]] eqn:Hl; [| | done].
    - exists stb. split_and!; [done | apply renamed_refl | done].
    - destruct (Hloop l (with_store w stb)) as (stc & Hrun_c & Hren_c & Hsafe_c).
      { eapply Forall_impl; [exact Hich |]. intros x.
        apply tree_at_renamed. by apply (renamed_trans _ sta). }
      cbn [store with_store] in Hren_c. rewrite with_store_with_store in Hrun_c.
      destruct (renamed_lookup stb stc r _ Hren_c Hsb) as (sc & Hsc & _ & Hic_c & _).
      exists stc. rewrite (bind_Ret _ _ _ _ _ Hrun_c).
      rewrite (set_i_children_same (with_store w stc) r sc l Hsc)
        by (by rewrite Hic_c, Hic_b).
      done. }
  exists stc. split_and!.
  - cbn [make_valid_identifiers].
    rewrite (bind_Ret _ _ _ _ _ (make_valid_identifier_sanitizes w r s Hs)).
    fold sta.
    rewrite (bind_Ret _ _ _ _ _ (deref_eq _ _ (with_store w sta) Hsa)), Hsub_eq.
    rewrite (bind_Ret _ _ _ _ _ Hrun_b).
    rewrite (bind_Ret _ _ _ _ _
               (set_substmts_kept (with_store w stb) r sb _ Hsb Hsub_b)).
    by rewrite (bind_Ret _ _ _ _ _ Hrun_c).
  - apply (renamed_trans _ sta); [done |]. by apply (renamed_trans _ stb).
  - destruct (renamed_lookup stb stc r _ Hren_c Hsb)
      as (sc & Hsc & Hsub_c & Hic_c & Hsafe_sc).
    exists sc. split_and!; [done | by apply Hsafe_sc |].
    unfold children. rewrite Hsub_c, Hic_c, Hsub_b, Hic_b.
    apply Forall_app. split; [| done].
    eapply Forall_impl; [exact Hsafe_b |]. intros x.
    by apply safe_at_renamed.
Qed.

(** X11: the sanitization pass over a well-formed statement graph
    returns and changes nothing but names (nothing is printed or written
    either); afterwards no statement below the one passed is named by a
    Java reserved word, except those whose keyword the sanitizer leaves
    alone. *)
Theorem make_valid_identifiers_no_reserved_word (fuel : nat) (r : ref) (w : world) :
  tree_atb fuel (store w) r = true →
  ∃ st1, make_valid_identifiers fuel r w = Ret r (with_store w st1) ∧
         renamed (store w) st1 ∧ safe_at fuel st1 r.
Proof. intros Htree. by apply make_valid_identifiers_safe, tree_atb_tree_at. Qed.

Lemma make_valid_identifiers_no_reserved_word_witness :
  tree_atb 3 (store Examples.java_names) 0 = true ∧
  ∃ st1, make_valid_identifiers 3 0 Examples.java_names
           = Ret 0 (with_store Examples.java_names st1) ∧
         renamed (store Examples.java_names) st1 ∧ safe_at 3 st1 0.
Proof.
  split; [vm_compute; reflexivity |].
  apply (make_valid_identifiers_no_reserved_word 3 0 Examples.java_names).
  vm_compute. reflexivity.
Defined.

(** ** Warnings are printed once *)

Lemma mem_snoc (x : string) (l : list string) : Py.mem x (l ++ [x]) = true.
Proof. apply bool_decide_eq_true_2, elem_of_app. right. left. Qed.

(** A call prints nothing and records nothing when the key is recorded
    already, or when the context has neither flag. *)
Lemma print_warning_seen (msg key : string) (ctx : option Context) (w : world) :
  Py.truthy key = true →
  Py.mem key (outputted_warnings w) = true →
  print_warning msg key ctx w = Ret tt w.
Proof.
  intros Hkey Hseen.
  unfold print_warning, warning_enabled, bind, get_outputted_warnings, ret.
  by rewrite Hkey, Hseen.
Qed.

Lemma print_warning_muted (msg key : string) (ctx : option Context) (w : world) :
  loud ctx = false →
  print_warning msg key ctx w = Ret tt w.
Proof.
  intros Hloud.
  unfold print_warning, warning_enabled, bind, get_outputted_warnings, ret.
  fold (loud ctx). by rewrite Hloud, andb_false_r.
Qed.

(** Otherwise it prints its line and records the key. *)
Lemma print_warning_prints (msg key : string) (ctx : option Context) (w : world) :
  Py.truthy key = true →
  Py.mem key (outputted_warnings w) = false →
  loud ctx = true →
  print_warning msg key ctx w =
  Ret tt (mkWorld (store w) (outputted_warnings w ++ [key]) (augmented_modules w)
                  (stderr w ++ [warning_line msg key]) (stdout w) (files w)).
Proof.
  intros Hkey Hnew Hloud.
  unfold print_warning, warning_enabled, bind, get_outputted_warnings, ret.
  fold (loud ctx). rewrite Hkey, Hnew, Hloud. cbn [negb orb andb].
  unfold warning_line.
  destruct (Py.truthy msg) eqn:Hmsg.
  - reflexivity.
  - unfold print_warning_msg, warning_enabled, bind, get_outputted_warnings, ret.
    fold (loud ctx). rewrite Hkey, Hnew, Hloud. reflexivity.
Qed.

Lemma print_warnings_seen (key : string) (calls : list (string * option Context))
    (w : world) :
  Py.truthy key = true →
  Py.mem key (outputted_warnings w) = true →
  ∃ us, print_warnings key calls w = Ret us w.
Proof.
  intros Hkey Hseen. unfold print_warnings.
  induction calls as [|[msg ctx] calls [us IH]]; [by exists [] |].
  exists (tt :: us). cbn [for_each fst snd]. unfold bind.
  by rewrite (print_warning_seen msg key ctx w Hkey Hseen), IH.
Qed.

(** X12: a warning with a key is printed at most once, whatever the
    messages and the contexts of the calls.  A run of calls with one key
    changes nothing when the key is recorded already or when no call has
    a context that lets it print; otherwise it prints one line, the one
    of the first call whose context lets it print, on the standard error
    stream, records the key, and changes nothing else. *)
Theorem print_warning_once_per_key (key : string)
    (calls : list (string * option Context)) (w : world) :
  Py.truthy key = true →
  ∃ us w1,
    print_warnings key calls w = Ret us w1 ∧
    match (if Py.mem key (outputted_warnings w) then None
           else List.find (λ c, loud (snd c)) calls) with
    | None => w1 = w
    | Some c =>
        w1 = mkWorld (store w) (outputted_warnings w ++ [key]) (augmented_modules w)
                     (stderr w ++ [warning_line (fst c) key]) (stdout w) (files w)
    end.
Proof.
  intros Hkey.
  destruct (Py.mem key (outputted_warnings w)) eqn:Hseen.
  { destruct (print_warnings_seen key calls w Hkey Hseen) as [us Hus]. by exists us, w. }
  induction calls as [|[msg ctx] calls IH]; [by exists [], w |].
  cbn [List.find snd].
  destruct (loud ctx) eqn:Hloud.
  - set (w1 := mkWorld (store w) (outputted_warnings w ++ [key]) (augmented_modules w)
                       (stderr w ++ [warning_line msg key]) (stdout w) (files w)).
    destruct (print_warnings_seen key calls w1 Hkey) as [us Hus];
      [apply mem_snoc |].
    exists (tt :: us), w1. split; [| done].
    unfold print_warnings in *. cbn [for_each fst snd]. unfold bind.
    rewrite (print_warning_prints msg key ctx w Hkey Hseen Hloud).
    fold w1. by rewrite Hus.
  - destruct IH as (us & w1 & Hus & Hw1).
    exists (tt :: us), w1. split; [| done].
    unfold print_warnings in *. cbn [for_each fst snd]. unfold bind.
    rewrite (print_warning_muted msg key ctx w Hloud). by rewrite Hus.
Qed.

Lemma print_warning_once_per_key_witness :
  Py.truthy "k" = true ∧
  ∃ us w1,
    print_warnings "k" [("first", Examples.quiet); ("second", Examples.verbose);
                        ("third", None)] Examples.doc = Ret us w1 ∧
    outputted_warnings w1 = ["k"] ∧
    stderr w1 = ["WARNING: second"].
Proof.
  split; [reflexivity |].
  destruct (print_warning_once_per_key "k"
              [("first", Examples.quiet); ("second", Examples.verbose); ("third", None)]
              Examples.doc) as (us & w1 & Hrun & Hw1); [reflexivity |].
  exists us, w1. split; [exact Hrun |].
  cbn in Hw1. rewrite Hw1. split; reflexivity.
Defined.

(** ** Packages *)

Lemma get_package_loop_acc (fuel : nat) : ∀ s acc w,
  get_package_loop fuel s acc w =
  match get_package_loop fuel s [] w with
  | Ret l w' => Ret (l ++ acc) w'
  | Exc e w' => Exc e w'
  | OutOfFuel => OutOfFuel
  | BadRef => BadRef
  end.
Proof.
  induction fuel as [|fuel IH]; intros s acc w; cbn [get_package_loop].
  - by destruct (parent s).
  - destruct (parent s) as [p|]; [| done].
    unfold bind, deref. destruct (store w !! p) as [s'|]; [| done].
    destruct (parent s').
    + rewrite (IH s' (arg s' :: acc)), (IH s' [arg s']).
      destruct (get_package_loop fuel s' [] w); try done.
      by rewrite <- app_assoc.
    + apply IH.
Qed.

Lemma for_each_as_str_snoc (l : list (option string)) (a : string) (w : world) :
  ∀ parts, for_each as_str l w = Ret parts w →
  for_each as_str (l ++ [Some a]) w = Ret (parts ++ [a]) w.
Proof.
  induction l as [|x l IH]; intros parts Hl.
  - cbn in Hl. injection Hl as <-. done.
  - cbn [for_each app] in *.
    destruct x as [x|]; [| done].
    rewrite (bind_Ret _ _ w w x) in Hl by done.
    rewrite (bind_Ret _ _ w w x) by done.
    destruct (for_each as_str l w) as [parts' w'| | |] eqn:Hfe;
      unfold bind in Hl; rewrite Hfe in Hl; try done.
    cbn in Hl. injection Hl as <- ->.
    unfold bind. rewrite (IH parts' eq_refl). done.
Qed.

Lemma join_snoc (sep : string) (parts : list string) (a : string) :
  parts ≠ [] → Py.join sep (parts ++ [a]) = Py.join sep parts +:+ sep +:+ a.
Proof.
  induction parts as [|x parts IH]; [done |]. intros _.
  destruct parts as [|y parts]; [done |].
  change (Py.join sep ((x :: y :: parts) ++ [a]))
    with (x +:+ sep +:+ Py.join sep ((y :: parts) ++ [a])).
  rewrite IH by done.
  change (Py.join sep (x :: y :: parts)) with (x +:+ sep +:+ Py.join sep (y :: parts)).
  by rewrite !append_assoc.
Qed.

(** Dropping a leading [src] component. *)
Lemma drop_src_other (x : option string) (rest : list (option string)) :
  x ≠ Some "src" →
  match x :: rest with
  | Some "src" :: rest => rest
  | _ => x :: rest
  end = x :: rest.
Proof.
  intros Hx. destruct x as [x|]; [| done].
  repeat (match goal with
          | |- context [match ?v with _ => _ end] => destruct v; try done
          end).
Qed.

Lemma for_each_as_str_world (l : list (option string)) (w w' : world)
    (parts : list string) :
  for_each as_str l w = Ret parts w' → w' = w.
Proof.
  intros Hl.
  assert (reader (for_each as_str l)) as Hr by apply reader_for_each, reader_as_str.
  by destruct (reader_returns _ w w _ _ Hr Hl eq_refl).
Qed.

(** X13: the package of a statement is the package of its parent
    followed by a dot and the name of the parent, when the parent is not
    the module itself (and its package name is not empty). *)
Theorem get_package_of_child (fuel : nat) (r p : ref) (s ps : Statement)
    (a pkg : string) (c : Context) (w : world) :
  store w !! r = Some s → parent s = Some p →
  store w !! p = Some ps → is_Some (parent ps) → arg ps = Some a →
  get_package fuel (Some p) (Some c) w = Ret pkg w → pkg ≠ "" →
  get_package (S fuel) (Some r) (Some c) w = Ret (pkg +:+ "." +:+ a) w.
Proof.
  intros Hs Hp Hps [g Hg] Ha Hpkg Hne.
  unfold get_package in Hpkg. cbn [deref_opt] in Hpkg.
  rewrite (bind_Ret _ _ _ _ _ (deref_eq _ _ _ Hps)) in Hpkg.
  apply bind_inv in Hpkg as (subs & w1 & Hloop & Hpkg).
  assert (w1 = w) as ->.
  { by destruct (reader_returns _ w w _ _ (reader_get_package_loop fuel ps [])
                   Hloop eq_refl). }
  apply bind_inv in Hpkg as (parts & w2 & Hparts & Hret).
  pose proof (for_each_as_str_world _ _ _ _ Hparts) as ->.
  cbn in Hret. injection Hret as <-.
  unfold get_package. cbn [deref_opt].
  rewrite (bind_Ret _ _ _ _ _ (deref_eq _ _ _ Hs)).
  rewrite (bind_Ret _ _ w w (subs ++ [Some a])).
  2:{ cbn [get_package_loop]. rewrite Hp.
      rewrite (bind_Ret _ _ _ _ _ (deref_eq _ _ _ Hps)), Hg.
      by rewrite get_package_loop_acc, Hloop, Ha. }
  cbv zeta. rewrite app_assoc.
  set (full := (Some <$> Py.split "/" (opts_directory c)) ++ subs) in *.
  destruct full as [|x rest].
  { cbn in Hparts. injection Hparts as <-. done. }
  destruct (decide (x = Some "src")) as [-> | Hx].
  - destruct rest as [|y rest].
    { cbn in Hparts. injection Hparts as <-. done. }
    change (((Some "src" :: y :: rest) ++ [Some a]))
      with (Some "src" :: ((y :: rest) ++ [Some a])).
    cbv iota beta.
    rewrite (bind_Ret _ _ _ _ _ (for_each_as_str_snoc _ a w _ Hparts)).
    cbn [ret]. rewrite join_snoc; [done |].
    intros ->. by destruct y.
  - rewrite drop_src_other in Hparts by done.
    change ((x :: rest) ++ [Some a]) with (x :: (rest ++ [Some a])).
    cbv beta iota.
    rewrite (drop_src_other x (rest ++ [Some a])) by done.
    change (x :: (rest ++ [Some a])) with ((x :: rest) ++ [Some a]).
    rewrite (bind_Ret _ _ _ _ _ (for_each_as_str_snoc _ a w _ Hparts)).
    cbn [ret]. rewrite join_snoc; [done |].
    intros ->. by destruct x.
Qed.

Lemma get_package_of_child_witness :
  get_package 5 (Some 14) Examples.quiet Examples.typedefs = Ret "gen.box" Examples.typedefs ∧
  get_package 6 (Some 15) Examples.quiet Examples.typedefs
    = Ret "gen.box.in-box" Examples.typedefs.
Proof.
  split; [vm_compute; reflexivity |].
  eapply (get_package_of_child 5 15 14 _ _ "in-box" "gen.box");
    [vm_compute; reflexivity | reflexivity | vm_compute; reflexivity
    | by eexists | reflexivity | vm_compute; reflexivity | done].
Defined.

(** ** Types *)

Lemma type_keyword_not_leaf (kw : string) :
  Py.mem kw ["type"; "typedef"] = true → Py.mem kw ["leaf"; "leaf-list"] = false.
Proof.
  intros Hkw. apply bool_decide_eq_true in Hkw.
  apply elem_of_cons in Hkw as [-> | Hkw]; [done |].
  apply elem_of_cons in Hkw as [-> | Hkw]; [done |].
  by apply elem_of_nil in Hkw.
Qed.

Lemma get_types_builtin_table (fuel : nat) (ctx : option Context) (w : world)
    (r : ref) (y : Statement) (a : string) (pair : string * string) :
  store w !! r = Some y →
  Py.mem (keyword y) ["type"; "typedef"] = true →
  arg y = Some a →
  (a, pair) ∈ builtin_types →
  get_types (S fuel) (Some r) ctx w = Ret pair w.
Proof.
  intros Hy Hkw Ha Hin.
  cbn [get_types deref_opt]. unfold bind at 1 2 3. unfold deref.
  rewrite Hy, (type_keyword_not_leaf _ Hkw).
  cbn [ret negb deref_opt]. unfold deref. rewrite Hy, Hkw, Ha. cbn [negb].
  unfold builtin_types in Hin.
  repeat (apply elem_of_cons in Hin as [Hin | Hin];
          [injection Hin as -> ->; reflexivity |]).
  by apply elem_of_nil in Hin.
Qed.

(** X14: for a type or typedef statement named by a built-in type,
    [get_types] gives the pair of the table, whatever the context and
    the [i_typedef] attribute, and prints and changes nothing. *)
Theorem get_types_builtin (fuel : nat) (ctx : option Context) (w : world)
    (r : ref) (y : Statement) (a : string) (pair : string * string) :
  store w !! r = Some y →
  Py.mem (keyword y) ["type"; "typedef"] = true →
  arg y = Some a →
  (a, pair) ∈ builtin_types →
  get_types (S fuel) (Some r) ctx w = Ret pair w.
Proof. apply get_types_builtin_table. Qed.

Lemma get_types_builtin_witness :
  get_types 1 (Some 4) None Examples.typedefs
    = Ret ("com.tailf.jnc.YangUInt8", "short") Examples.typedefs.
Proof.
  eapply (get_types_builtin 0 None Examples.typedefs 4 _ "uint8");
    [vm_compute; reflexivity | reflexivity | reflexivity |].
  apply (bool_decide_unpack _). vm_compute. exact I.
Defined.

Lemma bind_ret_l {A B} (a : A) (k : A → M B) (w : world) :
  bind (ret a) k w = k a w.
Proof. done. Qed.

(** X15: on a leaf or a leaf-list, [get_types] is [get_types] on its
    type substatement. *)
Theorem get_types_of_leaf (fuel : nat) (ctx : option Context) (w : world)
    (r : ref) (y : Statement) :
  store w !! r = Some y →
  Py.mem (keyword y) ["leaf"; "leaf-list"] = true →
  get_types fuel (Some r) ctx w =
  get_types fuel (search_one_in (store w) "type" None (substmts y)) ctx w.
Proof.
  intros Hy Hkw. destruct fuel as [|fuel]; [done |].
  cbn [get_types deref_opt].
  rewrite (bind_Ret _ _ _ _ _ (deref_eq _ _ _ Hy)), Hkw.
  rewrite (bind_Ret _ _ w w (search_one_in (store w) "type" None (substmts y)))
    by done.
  destruct (search_one_in (store w) "type" None (substmts y)) as [t|] eqn:Ht;
    [| done].
  destruct (search_one_in_Some _ _ _ _ _ Ht) as (c & Hc & Hckw & _).
  cbn [deref_opt].
  rewrite (bind_Ret _ _ _ _ _ (deref_eq _ _ _ Hc)).
  rewrite (bind_Ret (deref t) _ _ _ _ (deref_eq _ _ _ Hc)).
  rewrite Hckw. change (Py.mem "type" ["leaf"; "leaf-list"]) with false.
  cbv iota. rewrite bind_ret_l.
  cbn [deref_opt].
  by rewrite (bind_Ret _ _ _ _ _ (deref_eq _ _ _ Hc)), Hckw.
Qed.

Lemma get_types_of_leaf_witness :
  get_types 2 (Some 12) Examples.quiet Examples.typedefs =
  get_types 2 (Some 13) Examples.quiet Examples.typedefs.
Proof.
  etransitivity.
  - apply (get_types_of_leaf 2 Examples.quiet Examples.typedefs 12
             (mkStatement "leaf" (Some "d") [13] Absent (Some 11) (Some 0)
                          Absent Absent));
      vm_compute; reflexivity.
  - vm_compute. reflexivity.
Defined.

(** The tests of the table all fail on a name that is not in it. *)
Ltac not_in_table Htab :=
  unfold table_types in Htab;
  repeat (apply mem_app_false in Htab as [? Htab]);
  repeat match goal with H : Py.mem _ _ = false |- _ => rewrite H; clear H end.

(** X16: for a type statement that is not named by a built-in type and
    whose [i_typedef] is [None], as for a [union], [get_types] raises
    [AttributeError]; the statements stay as they are. *)
Theorem get_types_typedef_None (fuel : nat) (ctx : option Context) (w : world)
    (r : ref) (y : Statement) (a : string) :
  store w !! r = Some y →
  keyword y = "type" →
  arg y = Some a →
  Py.mem a table_types = false →
  i_typedef y = Present None →
  ∃ w', get_types (S (S fuel)) (Some r) ctx w = Exc AttributeError w' ∧
        store w' = store w.
Proof.
  intros Hy Hkw Ha Htab Hty.
  cbn [get_types deref_opt]. unfold bind at 1 2 3. unfold deref.
  rewrite Hy, Hkw.
  change (Py.mem "type" ["leaf"; "leaf-list"]) with false.
  cbn [ret negb deref_opt]. unfold deref. rewrite Hy.
  rewrite Hkw, Ha, Hty.
  change (Py.mem "type" ["type"; "typedef"]) with true. cbn [negb].
  not_in_table Htab.
  destruct ctx as [c|]; [| by exists w].
  destruct (opts_verbose c); eexists; (split; [reflexivity | done]).
Qed.

Lemma get_types_typedef_None_witness :
  ∃ w', get_types 2 (Some 10) Examples.verbose Examples.typedefs
          = Exc AttributeError w' ∧
        store w' = store Examples.typedefs.
Proof.
  eapply (get_types_typedef_None 0 Examples.verbose Examples.typedefs 10 _ "union");
    [vm_compute; reflexivity | reflexivity | reflexivity
    | vm_compute; reflexivity | reflexivity].
Defined.

Lemma get_base_type_cases (fuel : nat) (stmt : option ref) (w : world) :
  match get_base_type fuel stmt w with
  | Ret None w' => w' = w
  | Ret (Some t) w' =>
      w' = w ∧
      ∃ ts, store w !! t = Some ts ∧ keyword ts = "type" ∧
            (i_typedef ts = Absent ∨ i_typedef ts = Present None)
  | Exc e w' => e = AttributeError ∧ stmt = None ∧ w' = w
  | OutOfFuel | BadRef => True
  end.
Proof.
  revert stmt. induction fuel as [|fuel IH]; intros stmt; [done |].
  cbn [get_base_type].
  destruct stmt as [r|]; [| done].
  cbn [deref_opt]. unfold bind at 1, deref.
  destruct (store w !! r) as [s|]; [| done].
  unfold bind at 1, search_one.
  destruct (search_one_in (store w) "type" None (substmts s)) as [t|] eqn:Ht;
    [| done].
  destruct (search_one_in_Some _ _ _ _ _ Ht) as (ts & Hts & Hkw & _).
  unfold bind, deref. rewrite Hts.
  destruct (i_typedef ts) as [|[td|]] eqn:Hty.
  - split; [done |]. exists ts. split_and!; [done | done | by left].
  - specialize (IH (Some td)).
    destruct (get_base_type fuel (Some td) w) as [[t'|] w'|e w'| |]; try done.
    by destruct IH as (_ & ? & _).
  - split; [done |]. exists ts. split_and!; [done | done | by right].
Qed.

(** X17: [get_base_type] changes nothing, gives no type statement that
    has a typedef itself, and raises nothing but the [AttributeError] for
    a statement that is [None]. *)
Theorem get_base_type_outcome (fuel : nat) (stmt : option ref) (w : world) :
  match get_base_type fuel stmt w with
  | Ret None w' => w' = w
  | Ret (Some t) w' =>
      w' = w ∧
      ∃ ts, store w !! t = Some ts ∧ keyword ts = "type" ∧
            (i_typedef ts = Absent ∨ i_typedef ts = Present None)
  | Exc e w' => e = AttributeError ∧ stmt = None ∧ w' = w
  | OutOfFuel | BadRef => True
  end.
Proof. apply get_base_type_cases. Qed.

(** X18: whatever its outcome, [get_types] leaves every statement as it
    is. *)
Theorem get_types_keeps_statements (fuel : nat) (yang_type : option ref)
    (ctx : option Context) (w : world) :
  match get_types fuel yang_type ctx w with
  | Ret _ w' | Exc _ w' => store w' = store w
  | OutOfFuel | BadRef => True
  end.
Proof. apply keeps_store_get_types. Qed.

(** X19: a type statement that names a typedef gets the class generated
    for the typedef as its library type, the capitalized name in the
    package of the typedef, and the primitive type of the built-in type
    that the typedef is based on. *)
Theorem get_types_typedef (fuel : nat) (c : Context) (w : world)
    (r td bt : ref) (y b : Statement) (a ab pkg : string)
    (pair : string * string) :
  store w !! r = Some y →
  keyword y = "type" →
  arg y = Some a →
  Py.mem a table_types = false →
  i_typedef y = Present (Some td) →
  get_base_type (S fuel) (Some td) w = Ret (Some bt) w →
  store w !! bt = Some b →
  arg b = Some ab →
  (ab, pair) ∈ builtin_types →
  get_package (S fuel) (Some td) (Some c) w = Ret pkg w →
  get_types (S (S fuel)) (Some r) (Some c) w =
  Ret (pkg +:+ "." +:+ capitalize_first (camelize (Some a)), snd pair) w.
Proof.
  intros Hy Hkw Ha Htab Hty Hbase Hb Hab Hin Hpkg.
  pose proof (get_base_type_cases (S fuel) (Some td) w) as Hout.
  rewrite Hbase in Hout. destruct Hout as (_ & b' & Hb' & Hbkw & _).
  rewrite Hb in Hb'. injection Hb' as <-.
  assert (get_types (S fuel) (Some bt) (Some c) w = Ret pair w) as Hbt.
  { apply (get_types_builtin_table fuel (Some c) w bt b ab); try done.
    by rewrite Hbkw. }
  remember (S fuel) as n eqn:Hn.
  cbn [get_types deref_opt]. unfold bind at 1 2 3. unfold deref.
  rewrite Hy, Hkw.
  change (Py.mem "type" ["leaf"; "leaf-list"]) with false.
  cbn [ret negb deref_opt]. unfold deref. rewrite Hy.
  rewrite Hkw, Ha, Hty.
  change (Py.mem "type" ["type"; "typedef"]) with true. cbn [negb].
  not_in_table Htab.
  rewrite bind_ret_l.
  rewrite (bind_Ret _ _ _ _ _ Hbase), (bind_Ret _ _ _ _ _ Hpkg).
  by rewrite (bind_Ret _ _ _ _ _ Hbt).
Qed.

Lemma get_types_typedef_witness :
  get_types 3 (Some 8) Examples.quiet Examples.typedefs
    = Ret ("gen.Share", "short") Examples.typedefs.
Proof.
  eapply (get_types_typedef 1 _ Examples.typedefs 8 5 4 _ _ "share" "uint8" "gen"
            ("com.tailf.jnc.YangUInt8", "short"));
    [vm_compute; reflexivity | reflexivity | reflexivity
    | vm_compute; reflexivity | reflexivity | vm_compute; reflexivity
    | vm_compute; reflexivity | reflexivity
    | apply (bool_decide_unpack _); vm_compute; exact I
    | vm_compute; reflexivity].
Defined.

(** ** Imports *)

Lemma startswith_append (p s : string) : Py.startswith p (p +:+ s) = true.
Proof.
  induction p as [|c p IH]; [done |].
  rewrite append_cons. cbn [Py.startswith]. by rewrite decide_True.
Qed.

Lemma join_two (sep x y : string) : Py.join sep [x; y] = x +:+ sep +:+ y.
Proof. done. Qed.

Lemma fix_import_qualified (g : MethodGenerator.t) (children : list string)
    (basepkg : string) (stmt_arg : option string) (d : string) (w : world) :
  qualified basepkg d = true →
  MethodGenerator.fix_import g children basepkg stmt_arg d w = Ret (Some d) w.
Proof. unfold qualified, MethodGenerator.fix_import. by intros ->. Qed.

Lemma fix_import_result (g : MethodGenerator.t) (children : list string)
    (basepkg : string) (a d : string) (w : world) :
  ∃ o, MethodGenerator.fix_import g children basepkg (Some a) d w = Ret o w ∧
       ∀ d', o = Some d' → qualified basepkg d' = true.
Proof.
  unfold MethodGenerator.fix_import.
  destruct (_ || _ || _) eqn:Hq.
  { eexists. split; [reflexivity |]. by intros ? [= <-]. }
  destruct (Py.mem d ["BigInteger"; "BigDecimal"]).
  { eexists. split; [reflexivity |]. by intros ? [= <-]. }
  destruct (bool_decide (Some d = MethodGenerator.root g)).
  { destruct (MethodGenerator.is_top_level g).
    - eexists. split; [reflexivity |]. done.
    - eexists. split; [reflexivity |]. intros ? [= <-].
      unfold qualified. rewrite startswith_append.
      by rewrite !orb_true_r. }
  destruct (Py.mem d children).
  - eexists. split; [reflexivity |]. intros ? [= <-].
    unfold qualified. rewrite !append_assoc, startswith_append.
    by rewrite !orb_true_r.
  - eexists. split; [reflexivity |]. by intros ? [= <-].
Qed.

Lemma set_add_new (x : string) (l : list string) :
  x ∉ l → JavaMethod.set_add x l = l ++ [x].
Proof.
  intros Hx. unfold JavaMethod.set_add, Py.mem.
  by rewrite bool_decide_eq_false_2.
Qed.

Lemma keep_imports_spec (fixed : list (option string)) : ∀ acc,
  NoDup acc →
  NoDup (foldl keep_import acc fixed) ∧
  ∀ d, d ∈ foldl keep_import acc fixed → d ∈ acc ∨ Some d ∈ fixed.
Proof.
  induction fixed as [|o fixed IH]; intros acc Hnd; cbn [foldl].
  - split; [done |]. intros d Hd. by left.
  - assert (NoDup (keep_import acc o)) as Hnd'.
    { destruct o as [d|]; [| done]. cbn. unfold JavaMethod.set_add, Py.mem.
      destruct (bool_decide (d ∈ acc)) eqn:Hd; [done |].
      apply bool_decide_eq_false in Hd.
      apply NoDup_app. split_and!; [done | | apply NoDup_singleton].
      intros x Hx ->%list_elem_of_singleton. done. }
    destruct (IH _ Hnd') as [Hres Hin]. split; [done |].
    intros d Hd. destruct (Hin d Hd) as [Hacc | Hfix]; [| by right; right].
    destruct o as [d'|]; [| by left]. cbn in Hacc.
    unfold JavaMethod.set_add in Hacc. destruct (Py.mem d' acc); [by left |].
    apply elem_of_app in Hacc as [? | ->%list_elem_of_singleton]; [by left |].
    right. left.
Qed.

Lemma keep_imports_all (l : list string) : ∀ acc,
  NoDup (acc ++ l) → foldl keep_import acc (Some <$> l) = acc ++ l.
Proof.
  induction l as [|x l IH]; intros acc Hnd; cbn [foldl fmap list_fmap].
  - by rewrite app_nil_r.
  - cbn [keep_import]. rewrite set_add_new.
    + rewrite IH; rewrite <- app_assoc; done.
    + apply NoDup_app in Hnd as (_ & Hdisj & _). intros Hx.
      apply (Hdisj x Hx). left.
Qed.

Lemma fix_imports_eq (g : MethodGenerator.t) (m : JavaMethod.t) (w : world)
    (s : Statement) (a : string) (c : Context) (children : list string)
    (fixed : list (option string)) :
  store w !! MethodGenerator.stmt g = Some s →
  for_each (λ r, do c0 <- deref r ;; ret (capitalize_first (camelize (arg c0))))
           (substmts s) w = Ret children w →
  arg s = Some a →
  MethodGenerator.ctx g = Some c →
  for_each (MethodGenerator.fix_import g children (base_package c) (Some a))
           (JavaMethod.imports m) w = Ret fixed w →
  MethodGenerator.fix_imports g m w =
  Ret (JavaMethod.set_imports (foldl keep_import [] fixed) m) w.
Proof.
  intros Hs Hch Ha Hc Hfix.
  unfold MethodGenerator.fix_imports.
  rewrite (bind_Ret _ _ _ _ _ (deref_eq _ _ _ Hs)).
  rewrite (bind_Ret _ _ _ _ _ Hch), Hc, Ha. cbv zeta.
  fold (base_package c).
  by rewrite (bind_Ret _ _ _ _ _ Hfix).
Qed.

(** X20: [fix_imports] is idempotent: the names it leaves are names it
    keeps, so the second call that [empty_constructor] and the other
    generators make on a method changes nothing. *)
Theorem fix_imports_idempotent (g : MethodGenerator.t) (m : JavaMethod.t)
    (w : world) (s : Statement) (a : string) (c : Context) :
  store w !! MethodGenerator.stmt g = Some s →
  Forall (λ r, is_Some (store w !! r)) (substmts s) →
  arg s = Some a →
  MethodGenerator.ctx g = Some c →
  ∃ m1, MethodGenerator.fix_imports g m w = Ret m1 w ∧
        MethodGenerator.fix_imports g m1 w = Ret m1 w.
Proof.
  intros Hs Hsub Ha Hc.
  destruct (for_each_returns
              (λ r, do c0 <- deref r ;; ret (capitalize_first (camelize (arg c0))))
              (substmts s) w) as (children & Hch & _).
  { intros r Hr. rewrite Forall_forall in Hsub.
    destruct (Hsub r Hr) as [c0 Hc0].
    eexists. by rewrite (bind_Ret _ _ _ _ _ (deref_eq _ _ _ Hc0)). }
  destruct (for_each_returns_Forall
              (MethodGenerator.fix_import g children (base_package c) (Some a))
              (λ o, ∀ d', o = Some d' → qualified (base_package c) d' = true)
              (JavaMethod.imports m) w) as (fixed & Hfix & _ & Hall).
  { intros d _. apply fix_import_result. }
  destruct (keep_imports_spec fixed [] (NoDup_nil_2)) as [Hnd Hin].
  set (res := foldl keep_import [] fixed) in *.
  exists (JavaMethod.set_imports res m). split.
  - by apply (fix_imports_eq g m w s a c children fixed).
  - rewrite (fix_imports_eq g _ w s a c children (Some <$> res)); try done.
    + by rewrite (keep_imports_all res []).
    + apply for_each_returns_fmap. intros d Hd.
      apply fix_import_qualified.
      destruct (Hin d Hd) as [Hnil | Hfixed]; [by apply elem_of_nil in Hnil |].
      rewrite Forall_forall in Hall. by apply (Hall _ Hfixed).
Qed.

Lemma fix_imports_idempotent_witness :
  ∃ m1,
    MethodGenerator.fix_imports
      (MethodGenerator.mk 11 "Box" (Some "M") true false false true Examples.quiet)
      (snd (JavaMethod.add_dependency "BigInteger"
              (snd (JavaMethod.add_dependency "YangElement" JavaMethod.empty))))
      Examples.typedefs = Ret m1 Examples.typedefs ∧
    MethodGenerator.fix_imports
      (MethodGenerator.mk 11 "Box" (Some "M") true false false true Examples.quiet)
      m1 Examples.typedefs = Ret m1 Examples.typedefs.
Proof.
  eapply (fix_imports_idempotent _ _ Examples.typedefs _ "box");
    [vm_compute; reflexivity | | reflexivity | reflexivity].
  repeat constructor; by eexists.
Defined.

(** ** Constructors of containers and lists *)

Lemma add_dependency_set_imports (x : string) (m : JavaMethod.t) :
  ∃ l, (JavaMethod.add_dependency x m).2 = JavaMethod.set_imports l m.
Proof.
  unfold JavaMethod.add_dependency.
  destruct (Py.rpartition_dot x) as [[? sep] cls].
  destruct (Py.truthy sep), (negb (Py.mem cls java_built_in)),
    (negb (Py.mem x java_built_in));
    first [by eexists | exists (JavaMethod.imports m); by destruct m].
Qed.

(** The generator that [MethodGenerator.__init__] sets up for a
    statement in a module with the prefix [root], or without prefix. *)
Lemma MethodGenerator_init_eq (w : world) (stmt : ref) (s : Statement)
    (ctx : option Context) (tp : ref) (t : Statement) (root : option string) :
  store w !! stmt = Some s →
  Py.mem (keyword s) ["container"; "list"; "typedef"] = true →
  top s = Some tp →
  store w !! tp = Some t →
  match search_one_in (store w) "prefix" None (substmts t) with
  | Some p => ∃ ps, store w !! p = Some ps ∧ root = Some (extract_names (arg ps)).2
  | None => root = None
  end →
  MethodGenerator.init stmt ctx w =
  Ret (MethodGenerator.mk stmt (extract_names (arg s)).2 root
         (bool_decide (keyword s = "container")) (bool_decide (keyword s = "list"))
         (bool_decide (keyword s = "typedef")) (bool_decide (parent s = top s)) ctx) w.
Proof.
  intros Hs Hkw Htop Ht Hroot.
  unfold MethodGenerator.init.
  rewrite (bind_Ret _ _ _ _ _ (deref_eq _ _ _ Hs)), Htop.
  erewrite (bind_Ret (do t <- deref tp ;; _));
    [| rewrite (bind_Ret _ _ _ _ _ (deref_eq _ _ _ Ht)); reflexivity].
  assert (bool_decide (keyword s = "container") || bool_decide (keyword s = "list")
          || bool_decide (keyword s = "typedef") = true) as Hany.
  { apply bool_decide_eq_true in Hkw.
    repeat (apply elem_of_cons in Hkw as [-> | Hkw]; [done |]).
    by apply elem_of_nil in Hkw. }
  destruct (search_one_in (store w) "prefix" None (substmts t)) as [p|].
  - destruct Hroot as (ps & Hps & ->).
    erewrite (bind_Ret (do ps <- deref p ;; _));
      [| rewrite (bind_Ret _ _ _ _ _ (deref_eq _ _ _ Hps)); reflexivity].
    by rewrite Hany.
  - subst root. rewrite bind_ret_l. by rewrite Hany.
Qed.

Lemma constructor_template_returns (g : MethodGenerator.t) (w : world)
    (s : Statement) (a root : string) (c : Context) :
  store w !! MethodGenerator.stmt g = Some s →
  Forall (λ r, is_Some (store w !! r)) (substmts s) →
  arg s = Some a →
  MethodGenerator.ctx g = Some c →
  MethodGenerator.is_container g || MethodGenerator.is_list g = true →
  MethodGenerator.root g = Some root →
  ∃ l, MethodGenerator.constructor_template g w =
       Ret (JavaMethod.set_imports l
              (foldl (λ m x, JavaMethod.add_line x m)
                     (JavaMethod.init ["public"] (MethodGenerator.n g))
                     (super_lines root a (bool_decide (parent s = top s))))) w.
Proof.
  intros Hs Hsub Ha Hc Hkind Hroot.
  unfold MethodGenerator.constructor_template.
  rewrite Hkind. cbv zeta.
  destruct (add_dependency_set_imports root
              (JavaMethod.init ["public"] (MethodGenerator.n g))) as [l0 Hl0].
  rewrite (bind_Ret _ _ w w
             (foldl (λ m x, JavaMethod.add_line x m)
                    (JavaMethod.set_imports l0
                       (JavaMethod.init ["public"] (MethodGenerator.n g)))
                    (super_lines root a (bool_decide (parent s = top s))))).
  2:{ rewrite (bind_Ret _ _ _ _ _ (deref_eq _ _ _ Hs)), Hroot.
      unfold MethodGenerator.root_namespace. rewrite Hroot, Ha.
      cbn [as_str]. rewrite Hl0. unfold bind, ret, super_lines.
      destruct (bool_decide (parent s = top s)); reflexivity. }
  match goal with
  | |- context [MethodGenerator.fix_imports _ ?M w] =>
      destruct (fix_imports_returns g M w s a c Hs Hsub Ha Hc) as [res Hfix]
  end.
  rewrite Hfix. exists res. unfold super_lines.
  by destruct (bool_decide (parent s = top s)).
Qed.

Lemma empty_constructor_returns (g : MethodGenerator.t) (w : world)
    (s : Statement) (a root : string) (c : Context) :
  store w !! MethodGenerator.stmt g = Some s →
  Forall (λ r, is_Some (store w !! r)) (substmts s) →
  arg s = Some a →
  MethodGenerator.ctx g = Some c →
  MethodGenerator.is_container g || MethodGenerator.is_list g = true →
  MethodGenerator.is_typedef g = false →
  MethodGenerator.root g = Some root →
  ∃ l, MethodGenerator.empty_constructor g w =
       Ret (JavaMethod.set_imports l
              (JavaMethod.add_javadoc
                 (Py.concat ["Constructor for an empty "; MethodGenerator.n g;
                             " object."])
                 (foldl (λ m x, JavaMethod.add_line x m)
                        (JavaMethod.init ["public"] (MethodGenerator.n g))
                        (super_lines root a (bool_decide (parent s = top s)))))) w.
Proof.
  intros Hs Hsub Ha Hc Hkind Htd Hroot.
  unfold MethodGenerator.empty_constructor. rewrite Htd.
  destruct (constructor_template_returns g w s a root c Hs Hsub Ha Hc Hkind Hroot)
    as [l0 Htemplate].
  rewrite (bind_Ret _ _ _ _ _ Htemplate).
  match goal with
  | |- context [MethodGenerator.fix_imports _ ?M w] =>
      destruct (fix_imports_returns g M w s a c Hs Hsub Ha Hc) as [res Hfix]
  end.
  rewrite Hfix. by exists res.
Qed.

Lemma empty_constructor_without_root (g : MethodGenerator.t) (w : world)
    (s : Statement) :
  store w !! MethodGenerator.stmt g = Some s →
  MethodGenerator.is_container g || MethodGenerator.is_list g = true →
  MethodGenerator.is_typedef g = false →
  MethodGenerator.root g = None →
  MethodGenerator.empty_constructor g w = Exc AttributeError w.
Proof.
  intros Hs Hkind Htd Hroot.
  unfold MethodGenerator.empty_constructor, MethodGenerator.constructor_template.
  rewrite Htd, Hkind.
  unfold bind, deref. by rewrite Hs, Hroot.
Qed.

(** X21: a container class gets exactly one constructor, without
    parameters: it calls the parent constructor with the namespace of the
    module and the name of the container, and sets the prefix when the
    container is at the top level of the module. *)
Theorem container_constructors (w : world) (stmt : ref) (s : Statement)
    (a : string) (c : Context) (tp : ref) (t : Statement) (p : ref)
    (ps : Statement) :
  store w !! stmt = Some s →
  keyword s = "container" →
  arg s = Some a →
  Forall (λ r, is_Some (store w !! r)) (substmts s) →
  top s = Some tp →
  store w !! tp = Some t →
  search_one_in (store w) "prefix" None (substmts t) = Some p →
  store w !! p = Some ps →
  ∃ g k,
    ContainerMethodGenerator.init stmt (Some c) w = Ret g w ∧
    ContainerMethodGenerator.constructors g w = Ret [k] w ∧
    JavaMethod.name k = Some (capitalize_first (camelize (Some a))) ∧
    JavaMethod.modifiers k = ["public"] ∧
    JavaMethod.return_type k = None ∧
    JavaMethod.parameters k = [] ∧
    JavaMethod.exceptions k = [] ∧
    JavaMethod.body k =
      body_line <$> super_lines (capitalize_first (camelize (arg ps))) a
                                (bool_decide (parent s = top s)).
Proof.
  intros Hs Hkw Ha Hsub Htop Ht Hp Hps.
  pose proof (MethodGenerator_init_eq w stmt s (Some c) tp t
                (Some (extract_names (arg ps)).2) Hs) as Hinit.
  rewrite Hkw, Htop, Hp in Hinit.
  specialize (Hinit eq_refl eq_refl Ht ltac:(by exists ps)).
  set (g := MethodGenerator.mk _ _ _ _ _ _ _ _) in Hinit.
  destruct (empty_constructor_returns g w s a (extract_names (arg ps)).2 c)
    as [l Hempty]; try done.
  eexists g, _. split_and!.
  - unfold ContainerMethodGenerator.init. by rewrite (bind_Ret _ _ _ _ _ Hinit).
  - unfold ContainerMethodGenerator.constructors.
    by rewrite (bind_Ret _ _ _ _ _ Hempty).
  - cbn. destruct (bool_decide (parent s = top s)); cbn; by rewrite Ha.
  - by destruct (bool_decide (parent s = top s)).
  - by destruct (bool_decide (parent s = top s)).
  - by destruct (bool_decide (parent s = top s)).
  - by destruct (bool_decide (parent s = top s)).
  - by destruct (bool_decide (parent s = top s)).
Qed.

Lemma container_constructors_witness :
  ∃ g k,
    ContainerMethodGenerator.init 11 Examples.quiet Examples.typedefs
      = Ret g Examples.typedefs ∧
    ContainerMethodGenerator.constructors g Examples.typedefs
      = Ret [k] Examples.typedefs ∧
    JavaMethod.parameters k = [] ∧
    JavaMethod.body k = body_line <$> super_lines "M" "box" true.
Proof.
  destruct (container_constructors Examples.typedefs 11
              (mkStatement "container" (Some "box") [12; 14]
                 (Present (Some [12; 14])) (Some 0) (Some 0) Absent Absent)
              "box" (mkContext false false "gen") 0
              (mkStatement "module" (Some "m") [1; 2; 3; 5; 7; 9; 11; 18]
                 (Present (Some [7; 9; 11; 18])) None None Absent Absent)
              2 (mkStatement "prefix" (Some "m") [] Absent (Some 0) (Some 0)
                   Absent Absent))
    as (g & k & Hinit & Hcs & _ & _ & _ & Hpar & _ & Hbody).
  - reflexivity.
  - reflexivity.
  - reflexivity.
  - repeat constructor; by eexists.
  - reflexivity.
  - reflexivity.
  - reflexivity.
  - reflexivity.
  - exists g, k. split_and!; assumption.
Defined.

(** X22: in a module without a prefix substatement, as a submodule is,
    the generator of a container is set up, but its constructors cannot
    be generated: [AttributeError] is raised. *)
Theorem container_constructors_without_prefix (w : world) (stmt : ref)
    (s : Statement) (ctx : option Context) (tp : ref) (t : Statement) :
  store w !! stmt = Some s →
  keyword s = "container" →
  top s = Some tp →
  store w !! tp = Some t →
  search_one_in (store w) "prefix" None (substmts t) = None →
  ∃ g, ContainerMethodGenerator.init stmt ctx w = Ret g w ∧
       ContainerMethodGenerator.constructors g w = Exc AttributeError w.
Proof.
  intros Hs Hkw Htop Ht Hp.
  pose proof (MethodGenerator_init_eq w stmt s ctx tp t None Hs) as Hinit.
  rewrite Hkw, Htop, Hp in Hinit.
  specialize (Hinit eq_refl eq_refl Ht eq_refl).
  set (g := MethodGenerator.mk _ _ _ _ _ _ _ _) in Hinit.
  exists g. split.
  - unfold ContainerMethodGenerator.init. by rewrite (bind_Ret _ _ _ _ _ Hinit).
  - unfold ContainerMethodGenerator.constructors, bind.
    by rewrite (empty_constructor_without_root g w s).
Qed.

Lemma container_constructors_without_prefix_witness :
  ∃ g, ContainerMethodGenerator.init 3 Examples.quiet Examples.submodule
         = Ret g Examples.submodule ∧
       ContainerMethodGenerator.constructors g Examples.submodule
         = Exc AttributeError Examples.submodule.
Proof.
  eapply (container_constructors_without_prefix Examples.submodule 3 _ _ 0);
    [vm_compute; reflexivity | reflexivity | reflexivity
    | vm_compute; reflexivity | vm_compute; reflexivity].
Defined.

(** X23: for a list that is not configuration data the empty
    constructor is generated first; then, if the list has a key, the
    assertion of [value_constructors] fails, and if it has none, the
    empty constructor is the only one. *)
Theorem list_constructors_not_config (fuel fuel' : nat) (w : world) (stmt : ref)
    (s : Statement) (a : string) (c : Context) (tp : ref) (t : Statement)
    (p : ref) (ps : Statement) :
  store w !! stmt = Some s →
  keyword s = "list" →
  arg s = Some a →
  Forall (λ r, is_Some (store w !! r)) (substmts s) →
  top s = Some tp →
  store w !! tp = Some t →
  search_one_in (store w) "prefix" None (substmts t) = Some p →
  store w !! p = Some ps →
  global_is_config fuel stmt w = Ret false w →
  ∃ g e,
    ListMethodGenerator.init fuel stmt (Some c) w = Ret g w ∧
    MethodGenerator.empty_constructor (ListMethodGenerator.base g) w = Ret e w ∧
    JavaMethod.parameters e = [] ∧
    ListMethodGenerator.constructors fuel' g w =
      match search_one_in (store w) "key" None (substmts s) with
      | Some _ => Exc AssertionError w
      | None => Ret [e] w
      end.
Proof.
  intros Hs Hkw Ha Hsub Htop Ht Hp Hps Hconfig.
  pose proof (MethodGenerator_init_eq w stmt s (Some c) tp t
                (Some (extract_names (arg ps)).2) Hs) as Hinit.
  rewrite Hkw, Htop, Hp in Hinit.
  specialize (Hinit eq_refl eq_refl Ht ltac:(by exists ps)).
  set (b := MethodGenerator.mk _ _ _ _ _ _ _ _) in Hinit.
  destruct (empty_constructor_returns b w s a (extract_names (arg ps)).2 c)
    as [l Hempty]; try done.
  eexists (ListMethodGenerator.mk b false), _. split_and!.
  - unfold ListMethodGenerator.init.
    rewrite (bind_Ret _ _ _ _ _ Hinit). cbn [MethodGenerator.is_list b negb].
    change (bool_decide ("list" = "list")) with true. cbn [negb].
    by rewrite (bind_Ret _ _ _ _ _ Hconfig).
  - exact Hempty.
  - by destruct (bool_decide (parent s = top s)).
  - unfold ListMethodGenerator.constructors. cbn [ListMethodGenerator.base].
    rewrite (bind_Ret _ _ _ _ _ Hempty).
    rewrite (bind_Ret _ _ _ _ _ (deref_eq _ _ _ Hs)).
    unfold bind at 1, search_one.
    destruct (search_one_in (store w) "key" None (substmts s)); [| done].
    cbn [ListMethodGenerator.is_config orb].
    rewrite bool_decide_eq_true_2 by done.
    unfold ListMethodGenerator.value_constructors. done.
Qed.

Lemma list_constructors_not_config_witness :
  global_is_config 5 18 Examples.typedefs = Ret false Examples.typedefs ∧
  ∃ g, ListMethodGenerator.init 5 18 Examples.quiet Examples.typedefs
         = Ret g Examples.typedefs ∧
       ListMethodGenerator.constructors 5 g Examples.typedefs
         = Exc AssertionError Examples.typedefs.
Proof.
  split; [vm_compute; reflexivity |].
  destruct (list_constructors_not_config 5 5 Examples.typedefs 18
              (mkStatement "list" (Some "log") [17; 19; 20]
                 (Present (Some [20])) (Some 0) (Some 0) Absent Absent)
              "log" (mkContext false false "gen") 0
              (mkStatement "module" (Some "m") [1; 2; 3; 5; 7; 9; 11; 18]
                 (Present (Some [7; 9; 11; 18])) None None Absent Absent)
              2 (mkStatement "prefix" (Some "m") [] Absent (Some 0) (Some 0)
                   Absent Absent))
    as (g & e & Hinit & _ & _ & Hcs).
  - reflexivity.
  - reflexivity.
  - reflexivity.
  - repeat constructor; by eexists.
  - reflexivity.
  - reflexivity.
  - reflexivity.
  - reflexivity.
  - vm_compute. reflexivity.
  - exists g. split; [exact Hinit | exact Hcs].
Defined.

(** ** Clone methods *)

(** X24: a typedef class gets no clone method; a container or list class
    gets two, [clone] and [cloneShallow], both without parameters and
    with the return type [YangElement], each with the one line that
    returns the content cloned into a new object of the class. *)
Theorem cloners_of_class (g : MethodGenerator.t) (w : world) (s : Statement)
    (a : string) (c : Context) :
  store w !! MethodGenerator.stmt g = Some s →
  Forall (λ r, is_Some (store w !! r)) (substmts s) →
  arg s = Some a →
  MethodGenerator.ctx g = Some c →
  ∃ cs, MethodGenerator.cloners g w = Ret cs w ∧
        if MethodGenerator.is_typedef g then cs = []
        else
          (λ k, (JavaMethod.name k, JavaMethod.return_type k,
                 JavaMethod.parameters k, JavaMethod.body k)) <$> cs =
          [ (Some "clone", Some "YangElement", [],
             [body_line (Py.concat ["return cloneContent(new ";
                                    MethodGenerator.n g; "());"])]);
            (Some "cloneShallow", Some "YangElement", [],
             [body_line (Py.concat ["return cloneShallowContent(new ";
                                    MethodGenerator.n g; "());"])]) ].
Proof.
  intros Hs Hsub Ha Hc.
  unfold MethodGenerator.cloners.
  destruct (MethodGenerator.is_typedef g); [by exists [] |].
  unfold MethodGenerator.cloner.
  repeat match goal with
         | |- context [bind (MethodGenerator.fix_imports _ ?M) _ w] =>
             destruct (fix_imports_returns g M w s a c Hs Hsub Ha Hc) as [? ?Hfix];
             rewrite (bind_Ret _ _ _ _ _ Hfix); clear Hfix
         end.
  eexists. split; [reflexivity |]. reflexivity.
Qed.

Lemma cloners_of_class_witness :
  ∃ cs,
    MethodGenerator.cloners
      (MethodGenerator.mk 11 "Box" (Some "M") true false false true Examples.quiet)
      Examples.typedefs = Ret cs Examples.typedefs ∧
    JavaMethod.name <$> cs = [Some "clone"; Some "cloneShallow"].
Proof.
  destruct (cloners_of_class
              (MethodGenerator.mk 11 "Box" (Some "M") true false false true
                                  Examples.quiet)
              Examples.typedefs
              (mkStatement "container" (Some "box") [12; 14]
                 (Present (Some [12; 14])) (Some 0) (Some 0) Absent Absent)
              "box" (mkContext false false "gen"))
    as (cs & Hcs & Hshape).
  - reflexivity.
  - repeat constructor; by eexists.
  - reflexivity.
  - reflexivity.
  - exists cs. split; [exact Hcs |].
    cbn in Hshape.
    apply (f_equal (fmap (λ x, x.1.1.1))) in Hshape.
    rewrite <- list_fmap_compose in Hshape. exact Hshape.
Defined.

(** ** The cached lines of a method *)

Lemma cache_current_apply (c : JavaMethod.call) (m : JavaMethod.t) :
  cache_current m → cache_current (JavaMethod.apply c m).
Proof.
  intros Hm. destruct c; cbn [JavaMethod.apply]; try done.
  - destruct (add_dependency_set_imports import_ m) as [l ->].
    unfold cache_current in *. cbn [JavaMethod.set_imports JavaMethod.exact].
    destruct (JavaMethod.exact m); [| done].
    destruct Hm as (n & Hn & ->). by exists n.
  - unfold JavaMethod.set_return_type.
    by destruct (JavaMethod.add_dependency x m).
  - unfold JavaMethod.add_parameter.
    by destruct (JavaMethod.add_dependency param_type m).
  - unfold JavaMethod.add_exception.
    by destruct (JavaMethod.add_dependency exception m).
  - unfold JavaMethod.as_list.
    destruct (JavaMethod.exact m) eqn:He; [done |].
    destruct (JavaMethod.name m) as [n|] eqn:Hn; [| by unfold cache_current; rewrite He].
    unfold cache_current. cbn. by exists n.
Qed.

Lemma cache_current_built (calls : list JavaMethod.call) :
  cache_current (JavaMethod.built calls).
Proof.
  unfold JavaMethod.built.
  assert (cache_current JavaMethod.empty) as Hempty by done.
  revert Hempty. generalize JavaMethod.empty.
  induction calls as [|c calls IH]; intros m Hm; cbn [foldl]; [done |].
  by apply IH, cache_current_apply.
Qed.

(** X25: the cache of [as_list] is never stale: whatever calls made a
    method, [as_list] gives the lines of its present modifiers, return
    type, name, parameters, exceptions, javadoc and body, and the
    assertion fails exactly when no name has been set. *)
Theorem as_list_current (calls : list JavaMethod.call) :
  JavaMethod.as_list (JavaMethod.built calls) =
  match JavaMethod.name (JavaMethod.built calls) with
  | None => inl AssertionError
  | Some n =>
      inr (JavaMethod.render n (JavaMethod.built calls),
           JavaMethod.set_exact (JavaMethod.render n (JavaMethod.built calls))
                                (JavaMethod.built calls))
  end.
Proof.
  pose proof (cache_current_built calls) as Hm.
  unfold cache_current in Hm. unfold JavaMethod.as_list.
  destruct (JavaMethod.exact (JavaMethod.built calls)) as [e|] eqn:He; [| done].
  destruct Hm as (n & Hn & ->). rewrite Hn. do 2 f_equal.
  destruct (JavaMethod.built calls). cbn in *. by rewrite He.
Qed.

(** ** Splitting and joining *)

Lemma rev_app_append (s : string) : ∀ t u,
  String.rev_app s (t +:+ u) = String.rev_app s t +:+ u.
Proof.
  induction s as [|a s IH]; intros t u; [done |].
  cbn [String.rev_app]. by rewrite <- IH.
Qed.

Lemma rev_cons (a : ascii) (s : string) :
  String.rev (String a s) = String.rev s +:+ String a "".
Proof. unfold String.rev. cbn [String.rev_app]. by rewrite <- rev_app_append. Qed.

Lemma split_aux_split (c : ascii) (s : string) : ∀ cur,
  Py.split_aux c cur s =
  match Py.split c s with
  | x :: rest => (String.rev cur +:+ x) :: rest
  | [] => []
  end.
Proof.
  unfold Py.split.
  induction s as [|a s IH]; intros cur; cbn [Py.split_aux].
  - cbn. by rewrite append_nil_r.
  - destruct (decide (a = c)).
    + cbn. by rewrite append_nil_r.
    + rewrite (IH (String a cur)), (IH (String a "")).
      destruct (Py.split_aux c "" s) as [|x rest]; [done |].
      rewrite !rev_cons. by rewrite !append_assoc.
Qed.

Lemma split_nonempty (c : ascii) (s : string) : Py.split c s ≠ [].
Proof.
  unfold Py.split. generalize EmptyString.
  induction s as [|a s IH]; intros cur; cbn [Py.split_aux]; [done |].
  destruct (decide (a = c)); [done | apply IH].
Qed.

Lemma split_sep (c : ascii) (s : string) :
  Py.split c (String c s) = "" :: Py.split c s.
Proof. unfold Py.split. cbn [Py.split_aux]. by rewrite decide_True. Qed.

Lemma split_other (c a : ascii) (s : string) :
  a ≠ c →
  Py.split c (String a s) =
  match Py.split c s with
  | x :: rest => String a x :: rest
  | [] => []
  end.
Proof.
  intros Ha. unfold Py.split at 1. cbn [Py.split_aux].
  rewrite decide_False by done. by rewrite split_aux_split.
Qed.

Lemma split_without (c : ascii) (s : string) :
  has_char c s = false → Py.split c s = [s].
Proof.
  induction s as [|a s IH]; [done |]. cbn [has_char].
  intros [Ha Hs]%orb_false_iff. apply bool_decide_eq_false in Ha.
  by rewrite split_other, IH.
Qed.

Lemma split_append (c : ascii) (a s : string) :
  has_char c a = false → Py.split c (a +:+ String c s) = a :: Py.split c s.
Proof.
  induction a as [|x a IH]; cbn [has_char].
  - intros _. apply split_sep.
  - intros [Hx Ha]%orb_false_iff. apply bool_decide_eq_false in Hx.
    rewrite append_cons, split_other, IH by done. done.
Qed.

Lemma join_cons_char (sep : string) (a : ascii) (x : string) (rest : list string) :
  Py.join sep (String a x :: rest) = String a (Py.join sep (x :: rest)).
Proof. by destruct rest. Qed.

Lemma join_split (c : ascii) (s : string) :
  Py.join (String c "") (Py.split c s) = s.
Proof.
  induction s as [|a s IH]; [done |].
  destruct (decide (a = c)) as [-> | Ha].
  - rewrite split_sep.
    destruct (Py.split c s) as [|x rest] eqn:Hs; [by destruct (split_nonempty c s) |].
    change (Py.join (String c "") ("" :: x :: rest))
      with (String c (Py.join (String c "") (x :: rest))).
    by rewrite IH.
  - rewrite split_other by done.
    destruct (Py.split c s) as [|x rest] eqn:Hs; [by destruct (split_nonempty c s) |].
    by rewrite join_cons_char, IH.
Qed.

Lemma split_join (c : ascii) (xs : list string) :
  xs ≠ [] → Forall (λ x, has_char c x = false) xs →
  Py.split c (Py.join (String c "") xs) = xs.
Proof.
  induction xs as [|x xs IH]; [done |]. intros _ Hall.
  apply Forall_cons in Hall as [Hx Hxs].
  destruct xs as [|y xs]; [by apply split_without |].
  change (Py.join (String c "") (x :: y :: xs))
    with (x +:+ String c (Py.join (String c "") (y :: xs))).
  by rewrite split_append, IH.
Qed.

(** ** strip_first *)

Lemma replace_char_append (a b : ascii) (s t : string) :
  replace_char a b (s +:+ t) = replace_char a b s +:+ replace_char a b t.
Proof.
  unfold replace_char. induction s as [|x s IH]; [done |].
  rewrite append_cons. cbn [Py.map_string]. by rewrite IH.
Qed.

Lemma replace_char_without (a b : ascii) (s : string) :
  has_char a s = false → replace_char a b s = s.
Proof.
  unfold replace_char. induction s as [|x s IH]; [done |]. cbn [has_char Py.map_string].
  intros [Hx Hs]%orb_false_iff. apply bool_decide_eq_false in Hx.
  by rewrite decide_False, IH.
Qed.

(** X26: [strip_first] drops the text up to the first dot or slash and
    writes the rest with dots for slashes; a string without a dot or a
    slash, such as an output directory of one component, gives the empty
    string. *)
Theorem strip_first_component (a rest : string) (sep : ascii) :
  has_char "." a = false → has_char "/" a = false →
  sep = "."%char ∨ sep = "/"%char →
  strip_first (a +:+ String sep rest) = replace_char "/" "." rest ∧
  strip_first a = "".
Proof.
  intros Hdot Hslash Hsep. unfold strip_first. split.
  - rewrite replace_char_append, (replace_char_without _ _ a Hslash).
    assert (replace_char "/" "." (String sep rest)
            = String "." (replace_char "/" "." rest)) as ->.
    { by destruct Hsep as [-> | ->]. }
    rewrite split_append by done. cbn [tail].
    apply (join_split ".").
  - rewrite (replace_char_without _ _ a Hslash), split_without by done. done.
Qed.

Lemma strip_first_component_witness :
  strip_first "src/gen/foo" = "gen.foo" ∧ strip_first "gen" = "".
Proof.
  pose proof (strip_first_component "src" "gen/foo" "/") as [H1 _];
    [reflexivity | reflexivity | by right |].
  pose proof (strip_first_component "gen" "" ".") as [_ H2];
    [reflexivity | reflexivity | by left |].
  split; [exact H1 | exact H2].
Defined.

(** ** indent *)

Lemma length_append (s t : string) :
  String.length (s +:+ t) = String.length s + String.length t.
Proof. induction s as [|c s IH]; [done |]. rewrite append_cons. cbn. by rewrite IH. Qed.

Lemma take_append (s t : string) (k : nat) :
  Py.take (String.length s + k) (s +:+ t) = s +:+ Py.take k t.
Proof. induction s as [|c s IH]; [done |]. rewrite append_cons. cbn. by rewrite IH. Qed.

Lemma drop_last_append (s t : string) :
  t ≠ "" → Py.drop_last 1 (s +:+ t) = s +:+ Py.drop_last 1 t.
Proof.
  intros Ht. unfold Py.drop_last. rewrite length_append.
  destruct t as [|c t]; [done |]. cbn [String.length].
  replace (String.length s + S (String.length t) - 1)
    with (String.length s + (S (String.length t) - 1)) by lia.
  apply take_append.
Qed.

Lemma drop_last_char (s : string) (c : ascii) :
  Py.drop_last 1 (s +:+ String c "") = s.
Proof. rewrite drop_last_append by done. cbn. apply append_nil_r. Qed.

Lemma indent_loop (p : string) (lines : list string) : ∀ acc,
  foldl (λ res line, res +:+ (p +:+ line +:+ Py.nl)) acc lines =
  acc +:+ Py.concat ((λ line, p +:+ line +:+ Py.nl) <$> lines).
Proof.
  induction lines as [|l lines IH]; intros acc; cbn [foldl fmap list_fmap].
  - cbn. by rewrite append_nil_r.
  - rewrite IH. unfold Py.concat. cbn [foldr]. by rewrite append_assoc.
Qed.

Lemma append_nil_l (s : string) : "" +:+ s = s.
Proof. done. Qed.

Lemma drop_last_lines (p : string) (lines : list string) :
  Py.drop_last 1 (Py.concat ((λ line, p +:+ line +:+ Py.nl) <$> lines)) =
  Py.join Py.nl ((λ l, p +:+ l) <$> lines).
Proof.
  induction lines as [|x lines IH]; [done |].
  cbn [fmap list_fmap]. unfold Py.concat. cbn [foldr].
  fold (Py.concat ((λ line, p +:+ line +:+ Py.nl) <$> lines)).
  destruct lines as [|y lines].
  - cbn [fmap list_fmap Py.concat foldr Py.join].
    rewrite append_nil_r, <- append_assoc.
    apply drop_last_char.
  - rewrite drop_last_append.
    + rewrite IH. cbn [fmap list_fmap Py.join]. by rewrite !append_assoc.
    + cbn [fmap list_fmap Py.concat foldr].
      destruct p; [| done]. rewrite append_nil_l. by destruct y.
Qed.

Lemma indent_join (lines : list string) (level : nat) :
  indent lines level = Py.join Py.nl ((λ l, spaces (level * 4) +:+ l) <$> lines).
Proof.
  unfold indent. rewrite indent_loop, append_nil_l. apply drop_last_lines.
Qed.

Lemma has_char_append (c : ascii) (s t : string) :
  has_char c (s +:+ t) = has_char c s || has_char c t.
Proof.
  induction s as [|a s IH]; [done |].
  rewrite append_cons. cbn [has_char]. by rewrite IH, orb_assoc.
Qed.

Lemma has_char_spaces (n : nat) : has_char "010" (spaces n) = false.
Proof. induction n as [|n IH]; [done |]. cbn [spaces has_char]. by rewrite IH. Qed.

(** X27: splitting the text of [indent] at the newlines gives the lines
    back, each after four spaces per level, when there is at least one
    line and no line holds a newline; of no lines [indent] makes the
    empty string. *)
Theorem indent_lines (lines : list string) (level : nat) :
  lines ≠ [] →
  Forall (λ l, has_char "010" l = false) lines →
  Py.split "010" (indent lines level) = (λ l, spaces (level * 4) +:+ l) <$> lines ∧
  indent [] level = "".
Proof.
  intros Hne Hall. split; [| done].
  rewrite indent_join. apply (split_join "010").
  - by destruct lines.
  - apply Forall_fmap. eapply Forall_impl; [exact Hall |].
    intros l Hl. cbn. by rewrite has_char_append, has_char_spaces, Hl.
Qed.

Lemma indent_lines_witness :
  Py.split "010" (indent ["int x;"; "return x;"] 2)
    = ["        int x;"; "        return x;"].
Proof.
  apply (indent_lines ["int x;"; "return x;"] 2); [done |].
  repeat constructor.
Defined.

(** ** The access methods of a leaf *)

(** X28: a leaf child that is not a key of its parent gets, after its
    other access methods, an unset method and four mark methods, one for
    each of replace, merge, create and delete; a key leaf gets neither.
    The primitive type only decides whether a third setter is
    generated. *)
Theorem generate_child_leaf
    (generate_nested : ClassGenerator.t → ref → JavaClass.t → M (list string * JavaClass.t))
    (fuel : nat) (self : ClassGenerator.t) (c : JavaClass.t) (sub pr : ref)
    (w w' : world) (s ps : Statement) (a p type_str1 type_str2 : string)
    (is_key : bool) :
  store w !! sub = Some s →
  keyword s = "leaf" →
  arg s = Some a →
  ClassGenerator.prefix_name self = Some p →
  get_types fuel (search_one_in (store w) "type" None (substmts s))
            (ClassGenerator.ctx self) w = Ret (type_str1, type_str2) w' →
  parent s = Some pr →
  store w !! pr = Some ps →
  match search_one_in (store w) "key" None (substmts ps) with
  | None => is_key = false
  | Some k =>
      ∃ ks key_arg, store w !! k = Some ks ∧ arg ks = Some key_arg ∧
                    is_key = Py.mem a (Py.split " " key_arg)
  end →
  ∃ c', generate_child generate_nested fuel self c sub w = Ret ([], c') w' ∧
        JavaClass.get (Some a) (JavaClass.access_methods c') =
          JavaClass.get (Some a) (JavaClass.access_methods c) ++
          leaf_accessors a p type_str1 type_str2 is_key ++
          (if is_key then [] else leaf_marks a) ∧
        length (leaf_marks a) = 4 ∧
        Forall (λ x, is_mark_method x = true) (leaf_marks a).
Proof.
  intros Hs Hkw Ha Hp Hty Hpr Hps Hkey.
  pose proof (keeps_store_get_types fuel
                (search_one_in (store w) "type" None (substmts s))
                (ClassGenerator.ctx self) w) as Hst.
  rewrite Hty in Hst.
  assert (store w' !! pr = Some ps) as Hps' by (by rewrite Hst).
  unfold generate_child.
  rewrite (bind_Ret _ _ _ _ _ (deref_eq _ _ _ Hs)), Hkw.
  change (Py.mem "leaf" ["list"; "container"; "typedef"]) with false.
  change (Py.mem "leaf" ["leaf"; "leaf-list"]) with true.
  change (bool_decide ("leaf" = "leaf")) with true.
  cbv beta iota zeta.
  rewrite (bind_Ret _ _ w w (search_one_in (store w) "type" None (substmts s)))
    by done.
  rewrite (bind_Ret _ _ _ _ _ Hty). cbv beta iota zeta.
  rewrite Hpr. cbn [deref_opt].
  rewrite (bind_Ret _ _ _ _ _ (deref_eq _ _ _ Hps')).
  rewrite (bind_Ret _ _ w' w' (search_one_in (store w') "key" None (substmts ps)))
    by done.
  rewrite Hst.
  rewrite (bind_Ret _ _ w' w' is_key).
  2:{ destruct (search_one_in (store w) "key" None (substmts ps)) as [k0|].
      - destruct Hkey as (ks & key_arg & Hks & Hkarg & ->).
        rewrite <- Hst in Hks.
        rewrite (bind_Ret _ _ _ _ _ (deref_eq _ _ _ Hks)), Hkarg. by rewrite Ha.
      - by subst is_key. }
  rewrite Ha, Hp. cbn [as_str default]. rewrite !bind_ret_l.
  eexists. split; [reflexivity |].
  split; [| split].
  - unfold leaf_accessors, leaf_marks, mark_operations.
    destruct is_key, (bool_decide (type_str2 = "String"));
      cbn [negb foldl fmap list_fmap app];
      rewrite !get_append_access_method, <- ?app_assoc; reflexivity.
  - reflexivity.
  - unfold leaf_marks, mark_operations. cbn [fmap list_fmap].
    repeat (apply Forall_cons; split; [apply mark_is_mark_method |]).
    apply Forall_nil_2.
Qed.

Lemma generate_child_leaf_witness :
  ∃ c', generate_child (λ _ _ c, ret ([], c)) 10
          (Examples.top_level_generator 11 Examples.quiet)
          Examples.items_class 12 Examples.typedefs = Ret ([], c') Examples.typedefs ∧
        JavaClass.get (Some "d") (JavaClass.access_methods c') =
          leaf_accessors "d" "M" "com.tailf.jnc.YangString" "String" false ++
          leaf_marks "d".
Proof.
  destruct (generate_child_leaf (λ _ _ c, ret ([], c)) 10
              (Examples.top_level_generator 11 Examples.quiet)
              Examples.items_class 12 11 Examples.typedefs Examples.typedefs
              (mkStatement "leaf" (Some "d") [13] Absent (Some 11) (Some 0)
                           Absent Absent)
              (mkStatement "container" (Some "box") [12; 14]
                 (Present (Some [12; 14])) (Some 0) (Some 0) Absent Absent)
              "d" "M" "com.tailf.jnc.YangString" "String" false
              eq_refl eq_refl eq_refl eq_refl)
    as (c' & Hrun & Hget & _).
  - vm_compute. reflexivity.
  - reflexivity.
  - reflexivity.
  - vm_compute. reflexivity.
  - exists c'. split; [exact Hrun | exact Hget].
Defined.

(** ** The keys of a list *)

Lemma for_each_Forall2 {A B} (f : A → M B) (l : list A) (ys : list B) (w : world) :
  Forall2 (λ x y, f x w = Ret y w) l ys → for_each f l w = Ret ys w.
Proof.
  induction 1 as [|x y l ys Hxy _ IH]; [done |].
  cbn [for_each]. by rewrite (bind_Ret _ _ _ _ _ Hxy), (bind_Ret _ _ _ _ _ IH).
Qed.

Lemma keys_fst (keys : list string) : ∀ types : list (string * string),
  fst <$> zip_with (λ a ty, ((ty.1, a), (ty.2, a))) keys types =
  zip (fst <$> types) keys.
Proof.
  induction keys as [|a keys IH]; intros [|ty types]; try done.
  cbn [zip_with fmap list_fmap]. by rewrite IH.
Qed.

Lemma keys_snd (keys : list string) : ∀ types : list (string * string),
  snd <$> zip_with (λ a ty, ((ty.1, a), (ty.2, a))) keys types =
  zip (snd <$> types) keys.
Proof.
  induction keys as [|a keys IH]; intros [|ty types]; try done.
  cbn [zip_with fmap list_fmap]. by rewrite IH.
Qed.

Lemma keys_only_strings (keys : list string) : ∀ types : list (string * string),
  length keys = length types →
  forallb (λ p : string * string, bool_decide (p.1 = "String"))
          (zip (snd <$> types) keys) =
  forallb (λ ty : string * string, bool_decide (ty.2 = "String")) types.
Proof.
  induction keys as [|a keys IH]; intros [|ty types] Hlen; try done.
  cbn [zip_with fmap list_fmap forallb fst]. rewrite IH; [done |].
  by injection Hlen.
Qed.

(** X29: for a list whose key leaves have built-in types,
    [extract_keys] gives the key statement, the key names with their
    library types and with their primitive types, in the order of the key
    statement, and [only_strings] is true exactly when every primitive
    type is [String]; nothing is printed or changed. *)
Theorem extract_keys_builtin (fuel : nat) (w : world) (stmt kr : ref)
    (s k : Statement) (ctx : option Context) (key_arg : string)
    (types : list (string * string)) :
  store w !! stmt = Some s →
  search_one_in (store w) "key" None (substmts s) = Some kr →
  store w !! kr = Some k →
  arg k = Some key_arg →
  Forall2 (key_of_type (store w) s) (Py.split " " key_arg) types →
  extract_keys (S fuel) stmt ctx w =
  Ret (Some kr,
       forallb (λ ty, bool_decide (ty.2 = "String")) types,
       zip (fst <$> types) (Py.split " " key_arg),
       zip (snd <$> types) (Py.split " " key_arg)) w.
Proof.
  intros Hs Hkr Hk Hkarg Hkeys.
  unfold extract_keys.
  rewrite (bind_Ret _ _ _ _ _ (deref_eq _ _ _ Hs)).
  rewrite (bind_Ret _ _ w w (Some kr)) by (unfold search_one; by rewrite Hkr).
  cbn [deref_opt].
  rewrite (bind_Ret _ _ _ _ _ (deref_eq _ _ _ Hk)), Hkarg.
  set (keys := Py.split " " key_arg) in *. clearbody keys.
  rewrite (bind_Ret _ _ w w
             (zip_with (λ a ty, ((ty.1, a), (ty.2, a))) keys types)).
  2:{ apply for_each_Forall2.
      induction Hkeys as [|a ty keys0 tys Hty Hrest IH]; [constructor |].
      cbn [zip_with]. apply Forall2_cons. split; [| exact IH].
      destruct Hty as (lr & l & tr & t & ta & Hlr & Hl & Htr & Ht & Hta & Hin).
      unfold extract_key.
      rewrite (bind_Ret _ _ w w (Some lr)) by (unfold search_one; by rewrite Hlr).
      cbn [deref_opt]. rewrite (bind_Ret _ _ _ _ _ (deref_eq _ _ _ Hl)).
      rewrite (bind_Ret _ _ w w (Some tr)) by (unfold search_one; by rewrite Htr).
      destruct (search_one_in_Some _ _ _ _ _ Htr) as (t' & Ht' & Hkw & _).
      rewrite Ht in Ht'. injection Ht' as <-.
      rewrite (bind_Ret _ _ _ _ _
                 (get_types_builtin_table fuel ctx w tr t ta ty Ht
                    ltac:(by rewrite Hkw) Hta Hin)).
      done. }
  cbn [ret]. rewrite keys_fst, keys_snd.
  by rewrite (keys_only_strings keys types (Forall2_length _ _ _ Hkeys)).
Qed.

Lemma extract_keys_builtin_witness :
  extract_keys 1 9 Examples.quiet Examples.doc =
  Ret (Some 10, false,
       [("com.tailf.jnc.YangInt32", "a"); ("com.tailf.jnc.YangUInt8", "b")],
       [("int", "a"); ("short", "b")]) Examples.doc.
Proof.
  eapply (extract_keys_builtin 0 Examples.doc 9 10 _ _ Examples.quiet "a b"
            [("com.tailf.jnc.YangInt32", "int"); ("com.tailf.jnc.YangUInt8", "short")]);
    [vm_compute; reflexivity | vm_compute; reflexivity | vm_compute; reflexivity
    | reflexivity |].
  repeat constructor.
  - exists 11, (mkStatement "leaf" (Some "a") [12] Absent (Some 9) (Some 0) Absent Absent),
      12, (mkStatement "type" (Some "int32") [] Absent (Some 11) (Some 0)
             (Present None) Absent), "int32".
    split_and!; [vm_compute; reflexivity | vm_compute; reflexivity
                | vm_compute; reflexivity | vm_compute; reflexivity | reflexivity |].
    apply (bool_decide_unpack _). vm_compute. exact I.
  - exists 13, (mkStatement "leaf" (Some "b") [14] Absent (Some 9) (Some 0) Absent Absent),
      14, (mkStatement "type" (Some "uint8") [] Absent (Some 13) (Some 0)
             (Present None) Absent), "uint8".
    split_and!; [vm_compute; reflexivity | vm_compute; reflexivity
                | vm_compute; reflexivity | vm_compute; reflexivity | reflexivity |].
    apply (bool_decide_unpack _). vm_compute. exact I.
Defined.

(** ** Configuration data *)

(** X30: a statement with a [config] substatement is configuration data
    exactly when the argument of the substatement is [true]; without one
    it is configuration data exactly when its parent is, and the root is
    when it has none. *)
Theorem is_config_inherited (fuel : nat) (r : ref) (s : Statement) (w : world) :
  store w !! r = Some s →
  match search_one_in (store w) "config" None (substmts s) with
  | Some c =>
      ∃ cs, store w !! c = Some cs ∧
            is_config (S fuel) r w = Ret (bool_decide (arg cs = Some "true")) w
  | None =>
      match parent s with
      | Some p => is_config (S fuel) r w = is_config fuel p w
      | None => is_config (S fuel) r w = Ret true w
      end
  end.
Proof.
  intros Hs.
  assert (is_config_loop (S fuel) (Some r) w =
          match search_one_in (store w) "config" None (substmts s) with
          | Some c => Ret (Some c) w
          | None => is_config_loop fuel (parent s) w
          end) as Hloop.
  { cbn [is_config_loop].
    rewrite (bind_Ret _ _ _ _ _ (deref_eq _ _ _ Hs)).
    unfold bind at 1, search_one.
    by destruct (search_one_in (store w) "config" None (substmts s)). }
  unfold is_config.
  destruct (search_one_in (store w) "config" None (substmts s)) as [c|] eqn:Hc.
  - destruct (search_one_in_Some _ _ _ _ _ Hc) as (cs & Hcs & _).
    exists cs. split; [done |].
    rewrite (bind_Ret _ _ _ _ _ Hloop).
    by rewrite (bind_Ret _ _ _ _ _ (deref_eq _ _ _ Hcs)).
  - destruct (parent s) as [p|] eqn:Hp.
    + unfold bind at 1. by rewrite Hloop.
    + unfold bind at 1. rewrite Hloop. by destruct fuel.
Qed.

Lemma is_config_inherited_witness :
  is_config 3 20 Examples.typedefs = is_config 2 18 Examples.typedefs ∧
  is_config 2 18 Examples.typedefs = Ret false Examples.typedefs.
Proof.
  split; [| vm_compute; reflexivity].
  exact (is_config_inherited 2 20
           (mkStatement "leaf" (Some "id") [21] Absent (Some 18) (Some 0) Absent Absent)
           Examples.typedefs eq_refl).
Defined.
